(** * fink-utils: alert distribution helpers and ephemerides enrichment

    A shallow embedding of [fink_utils/broker/distributionUtils.py] and
    [fink_utils/sso/utils.py], together with the properties stated for them.

    The Python functions are rendered as Rocq functions.  Exceptions are
    values of [exn] carried by the [result] monad; code that touches the
    file system or prints threads a [world] explicitly.  The engines the
    code delegates to (Spark SQL, the Avro codec, pandas, astropy, the
    Miriade web service, float64 arithmetic) are modelled by their
    documented behaviour, or taken as interfaces ([AvroCodec], [Numeric],
    [service]) where only an interface is known. *)

From Stdlib Require Import ZArith List String Ascii Bool Lia DecimalString.
From Stdlib Require Import OrderedTypeEx Sorted.
From Stdlib Require DecimalPos.
From stdpp Require Import gmap strings.
Import ListNotations.
Open Scope string_scope.
Set Warnings "-register-all".

(** ** Exceptions and the [result] monad *)

Inductive exn : Type :=
| KeyError (key : string)
| IndexError
| ValueError
| TypeError
| FileNotFoundError
| IsADirectoryError
| NotADirectoryError
| AnalysisException (msg : string)
| SparkException (msg : string)
| JSONDecodeError
| RequestException (kind : string).

Inductive result (A : Type) : Type :=
| Ok (a : A)
| Raise (e : exn).

Arguments Ok {A} a.
Arguments Raise {A} e.

Global Instance result_bind : MBind result := fun A B k r =>
  match r with
  | Ok a => k a
  | Raise e => Raise e
  end.

Global Instance result_ret : MRet result := fun A a => Ok a.

(** Python's [for x in l: out.append(f(x))], stopping at the first
    exception. *)
Fixpoint for_each {A B : Type} (f : A -> result B) (l : list A) : result (list B) :=
  match l with
  | [] => Ok []
  | a :: l' => b ← f a; bs ← for_each f l'; Ok (b :: bs)
  end.

Definition is_ok {A : Type} (r : result A) : bool :=
  match r with Ok _ => true | Raise _ => false end.

(** ** Python builtins used by the sources

    A [string] stands for a Python [str] whose code points are all below
    256; an [ascii] is one such code point. *)

Module Py.

Definition chars : string -> list ascii := list_ascii_of_string.
Definition str : list ascii -> string := string_of_list_ascii.

Definition code (c : ascii) : N := N_of_ascii c.

(** [l[-1]] *)
Fixpoint last {A : Type} (l : list A) : result A :=
  match l with
  | [] => Raise IndexError
  | [a] => Ok a
  | _ :: l' => last l'
  end.

(** [l[0]] *)
Definition first {A : Type} (l : list A) : result A :=
  match l with
  | [] => Raise IndexError
  | a :: _ => Ok a
  end.

(** [s.startswith(p)] and [s.endswith(p)] *)
Definition startswith (s p : string) : bool := String.prefix p s.

Definition endswith (s p : string) : bool :=
  String.prefix (str (rev (chars p))) (str (rev (chars s))).

(** [s[pos:]] for [pos >= 0] *)
Fixpoint slice_from (pos : nat) (s : string) : string :=
  match pos, s with
  | O, _ => s
  | S _, EmptyString => EmptyString
  | S p, String _ s' => slice_from p s'
  end.

(** [s.split(sep)]: the pieces between the non-overlapping occurrences of
    [sep], found left to right.  [skip] counts the characters of a matched
    separator still to be passed over, [cur] holds the current piece in
    reverse. *)
Fixpoint split_go (sep s : string) (skip : nat) (cur : list ascii) : list string :=
  match s with
  | EmptyString => [str (rev cur)]
  | String c s' =>
      match skip with
      | S k => split_go sep s' k cur
      | O =>
          if String.prefix sep s
          then str (rev cur) :: split_go sep s' (String.length sep - 1) []
          else split_go sep s' 0 (c :: cur)
      end
  end.

Definition split (s sep : string) : result (list string) :=
  match sep with
  | EmptyString => Raise ValueError
  | _ => Ok (split_go sep s 0 [])
  end.

(** White space as [int()] sees it: [Py_ISSPACE] on ASCII, and the two
    Unicode spaces below 256 (NEL and NBSP). *)
Definition is_space (c : ascii) : bool :=
  let n := code c in
  ((9 <=? n) && (n <=? 13) || (n =? 32) || (n =? 133) || (n =? 160))%N.

Definition is_digit (c : ascii) : bool :=
  let n := code c in ((48 <=? n) && (n <=? 57))%N.

Definition digit_value (c : ascii) : Z := Z.of_N (code c) - 48.

Fixpoint lstrip (cs : list ascii) : list ascii :=
  match cs with
  | c :: cs' => if is_space c then lstrip cs' else cs
  | [] => []
  end.

Definition strip (cs : list ascii) : list ascii :=
  rev (lstrip (rev (lstrip cs))).

(** Decimal digits with single underscores allowed between digits.
    Returns the value and the number of digits read. *)
Fixpoint parse_digits (cs : list ascii) (acc : Z) (n : nat) (after_digit : bool)
  : option (Z * nat) :=
  match cs with
  | [] => if after_digit then Some (acc, n) else None
  | c :: cs' =>
      if is_digit c then parse_digits cs' (10 * acc + digit_value c) (S n) true
      else if Ascii.eqb c "_" then
        (if after_digit then parse_digits cs' acc n false else None)
      else None
  end.

(** [sys.get_int_max_str_digits()], at its default. *)
Definition int_max_str_digits : nat := 4300.

(** [int(s)] for a [str] argument, base 10. *)
Definition int (s : string) : result Z :=
  let body := strip (chars s) in
  let '(neg, ds) :=
    match body with
    | "-"%char :: r => (true, r)
    | "+"%char :: r => (false, r)
    | _ => (false, body)
    end in
  match parse_digits ds 0 0 false with
  | Some (v, n) =>
      if Nat.ltb int_max_str_digits n then Raise ValueError
      else Ok (if neg then - v else v)%Z
  | None => Raise ValueError
  end.

(** [f.readlines()] on a file opened in text mode with universal
    newlines: a line ends at "\n", "\r" or "\r\n", each read as "\n". *)
Definition nl : ascii := ascii_of_N 10.
Definition cr : ascii := ascii_of_N 13.

Fixpoint readlines_go (s : string) (cur : list ascii) : list string :=
  match s with
  | EmptyString =>
      match cur with
      | [] => []
      | _ => [str (rev cur)]
      end
  | String c s' =>
      if Ascii.eqb c nl then str (rev (nl :: cur)) :: readlines_go s' []
      else if Ascii.eqb c cr then
        match s' with
        | String c' s'' =>
            if Ascii.eqb c' nl
            then str (rev (nl :: cur)) :: readlines_go s'' []
            else str (rev (nl :: cur)) :: readlines_go s' []
        | EmptyString => [str (rev (nl :: cur))]
        end
      else readlines_go s' (c :: cur)
  end.

Definition readlines (content : string) : list string := readlines_go content [].

(** ["{}_{}".format(a, b)] for two [str] arguments *)
Definition format_underscore (a b : string) : string := a ++ "_" ++ b.

(** [str(n)] and ["{}".format(n)] for an [int]: the decimal digits after
    the sign, or [ValueError] when there are more of them than
    [int_max_str_digits]. *)
Definition decimal (z : Z) : string := NilZero.string_of_int (Z.to_int z).

Definition str_int (z : Z) : result string :=
  let s := decimal z in
  let digits := String.length s - (if (z <? 0)%Z then 1 else 0) in
  if Nat.ltb int_max_str_digits digits then Raise ValueError else Ok s.

End Py.

(** ** The file system and standard output

    A path is its string; the store maps the paths that exist to what is
    there.  [size] of a regular file is the length of its text. *)

Inductive node : Type :=
| File (content : string)
| Dir.

Record world : Type := World {
  fs : gmap string node;
  environ : gmap string string;
  stdout : list string;
}.

(** What [stat] reports as the size of a directory (one block). *)
Definition dir_size : nat := 4096.

(** [os.path.isfile], [os.path.exists], [os.path.getsize] *)
Definition isfile (w : world) (path : string) : bool :=
  match fs w !! path with
  | Some (File _) => true
  | _ => false
  end.

Definition exists_ (w : world) (path : string) : bool :=
  match fs w !! path with
  | Some _ => true
  | None => false
  end.

Definition getsize (w : world) (path : string) : result nat :=
  match fs w !! path with
  | Some (File c) => Ok (String.length c)
  | Some Dir => Ok dir_size
  | None => Raise FileNotFoundError
  end.

(** [open(path, "r")] followed by [read] of the whole text *)
Definition read_text (w : world) (path : string) : result string :=
  match fs w !! path with
  | Some (File c) => Ok c
  | Some Dir => Raise IsADirectoryError
  | None => Raise FileNotFoundError
  end.

(** [os.path.join] and [os.path.dirname] (POSIX) *)
Definition join2 (a b : string) : string :=
  if Py.startswith b "/" then b
  else if String.eqb a "" || Py.endswith a "/" then a ++ b
  else a ++ "/" ++ b.

Definition path_join (a : string) (ps : list string) : string :=
  fold_left join2 ps a.

Fixpoint drop_while {A : Type} (p : A -> bool) (l : list A) : list A :=
  match l with
  | a :: l' => if p a then drop_while p l' else l
  | [] => []
  end.

Definition is_slash (c : ascii) : bool := Ascii.eqb c "/".

Definition dirname (p : string) : string :=
  let head := drop_while (fun c => negb (is_slash c)) (rev (Py.chars p)) in
  if forallb is_slash head then Py.str (rev head)
  else Py.str (rev (drop_while is_slash head)).

(** [path] lies strictly below the directory [dir]. *)
Definition below (dir path : string) : bool := String.prefix (dir ++ "/") path.

(** Code that reads and changes the world: the world is threaded, and an
    exception keeps the changes made before it. *)
Definition io (A : Type) : Type := world -> result A * world.

Global Instance io_bind : MBind io := fun A B k m w =>
  match m w with
  | (Ok a, w') => k a w'
  | (Raise e, w') => (Raise e, w')
  end.

Global Instance io_ret : MRet io := fun A a w => (Ok a, w).

Definition lift {A : Type} (r : result A) : io A := fun w => (r, w).

(** [pass] *)
Definition pass : io unit := fun w => (Ok tt, w).

Definition os_path_isfile (path : string) : io bool := fun w => (Ok (isfile w path), w).
Definition os_path_exists (path : string) : io bool := fun w => (Ok (exists_ w path), w).

(** [os.environ[name]] *)
Definition os_environ (name : string) : io string := fun w =>
  match environ w !! name with
  | Some v => (Ok v, w)
  | None => (Raise (KeyError name), w)
  end.

Definition set_fs (w : world) (m : gmap string node) : world :=
  World m (environ w) (stdout w).

(** [print(msg)] *)
Definition print (msg : string) : io unit := fun w =>
  (Ok tt, World (fs w) (environ w) (stdout w ++ [(msg ++ Py.str [Py.nl])%string])%list).

(** [open(path).read()] *)
Definition open_read (path : string) : io string := fun w => (read_text w path, w).

(** [with open(path, "w") as f: f.write(text)] *)
Definition open_write (path text : string) : io unit := fun w =>
  match fs w !! path with
  | Some Dir => (Raise IsADirectoryError, w)
  | _ =>
      let parent := dirname path in
      let parent_ok :=
        forallb is_slash (Py.chars parent) ||
        match fs w !! parent with Some Dir => true | _ => false end in
      if parent_ok then (Ok tt, set_fs w (<[path := File text]> (fs w)))
      else (Raise FileNotFoundError, w)
  end.

(** [shutil.rmtree(path)] *)
Definition rmtree (path : string) : io unit := fun w =>
  match fs w !! path with
  | None => (Raise FileNotFoundError, w)
  | Some (File _) => (Raise NotADirectoryError, w)
  | Some Dir =>
      (Ok tt,
       set_fs w (filter (fun kv => (String.eqb kv.1 path || below path kv.1) = false) (fs w)))
  end.

(** [glob.glob(os.path.join(dir, prefix + "*"))]: the entries of [dir] whose
    name starts with [prefix], in the order the store lists them. *)
Definition glob_prefix (dir prefix : string) : io (list string) := fun w =>
  let pat := join2 dir prefix in
  (Ok (filter
         (fun k => (String.prefix pat k &&
                    negb (existsb is_slash
                            (Py.chars (Py.slice_from (String.length pat) k)))) = true)
         (map fst (map_to_list (fs w)))), w).

(** ** Offset tracker: [get_distribution_offset] *)

Definition get_distribution_offset (w : world) (offsetfile : string)
    (startingoffset_dist : string) : result Z :=
  let fileexist := isfile w offsetfile in
  negatifoffset ←
    (if fileexist
     then sz ← getsize w offsetfile; Ok (Nat.leb sz 0)
     else Ok false);
  if negb fileexist || negatifoffset || String.eqb startingoffset_dist "earliest"
  then Ok 100%Z
  else
    if String.eqb startingoffset_dist "latest"
    then
      content ← read_text w offsetfile;
      line ← Py.last (Py.readlines content);
      toks ← Py.split line ", ";
      tok ← Py.last toks;
      Py.int tok
    else Py.int startingoffset_dist.

(** ** Spark SQL: the part of the DataFrame API the sources call

    A DataFrame is its schema and the rows that collecting it yields.
    Column names are resolved literally: that is what the analyser does
    on names that are plain and that differ also when case is ignored
    ([plain_names]), and the properties that depend on how a name is
    resolved are stated for such names.  An error of the analyser is
    [AnalysisException]; an error while a row is computed is
    [SparkException], and makes the whole frame fail. *)

Module Spark.

Inductive dtype : Type :=
| TBool | TLong | TDouble | TString | TBinary
| TStruct (fields : list (string * dtype)).

(** A double is its IEEE 754 binary64 bit pattern. *)
Inductive value : Type :=
| VNull
| VBool (b : bool)
| VLong (z : Z)
| VDouble (bits : Z)
| VString (s : string)
| VBinary (b : list Byte.byte)
| VStruct (vs : list value).

Record DataFrame : Type := mkDF {
  schema : list (string * dtype);
  rows : list (list value);
}.

Definition columns (df : DataFrame) : list string := map fst (schema df).
Definition count (df : DataFrame) : nat := length (rows df).

Fixpoint has_type (v : value) (t : dtype) {struct v} : bool :=
  match v, t with
  | VNull, _ => true
  | VBool _, TBool => true
  | VLong _, TLong => true
  | VDouble _, TDouble => true
  | VString _, TString => true
  | VBinary _, TBinary => true
  | VStruct vs, TStruct fs =>
      (fix all2 (vs : list value) (fs : list (string * dtype)) : bool :=
         match vs, fs with
         | [], [] => true
         | v :: vs', (_, t) :: fs' => has_type v t && all2 vs' fs'
         | _, _ => false
         end) vs fs
  | _, _ => false
  end.

(** Every row is a record of the schema. *)
Definition well_formed (df : DataFrame) : Prop :=
  List.NoDup (columns df) /\
  Forall (fun r => has_type (VStruct r) (TStruct (schema df)) = true) (rows df).

(** Names as the analyser reads them.  A name that is referred to is
    parsed: a dot selects a field or follows a qualifier, backticks quote,
    and "*" is every column; and with [spark.sql.caseSensitive] at its
    default two names are the same when they are equal ignoring case.
    [lower] is the lower case of a name, [plain] says that a name is not
    empty, is not "*", and has neither a dot nor a backtick. *)
Definition lower_char (c : ascii) : ascii :=
  let n := Py.code c in
  if ((65 <=? n) && (n <=? 90) ||
      (192 <=? n) && (n <=? 222) && negb (n =? 215))%N
  then ascii_of_N (n + 32) else c.

Fixpoint lower (s : string) : string :=
  match s with
  | EmptyString => EmptyString
  | String c s' => String (lower_char c) (lower s')
  end.

Definition plain (n : string) : bool :=
  negb (String.eqb n "") && negb (String.eqb n "*") &&
  forallb (fun c => negb (Ascii.eqb c "." || Ascii.eqb c "`")) (Py.chars n).

(** Names that a reference by name tells apart: each is plain, and no two
    are equal ignoring case. *)
Definition plain_names (names : list string) : Prop :=
  Forall (fun n => plain n = true) names /\ List.NoDup (map lower names).

(** A plain name that none of [names] is, also when case is ignored. *)
Definition absent (n : string) (names : list string) : Prop :=
  plain n = true /\ ~ In (lower n) (map lower names).

(** Equality as an equi-join sees it.  NaNs are one value and -0.0 is
    0.0; inside a record two nulls are equal; a null key matches nothing. *)
Definition normalize_double (bits : Z) : Z :=
  let b := (bits mod 2 ^ 64)%Z in
  let e := Z.land (Z.shiftr b 52) 2047 in
  let m := Z.land b (2 ^ 52 - 1) in
  if ((e =? 2047) && negb (m =? 0))%Z then 9221120237041090560%Z
  else if (b =? 2 ^ 63)%Z then 0%Z
  else b.

Fixpoint bytes_eqb (x y : list Byte.byte) : bool :=
  match x, y with
  | [], [] => true
  | a :: x', b :: y' => Byte.eqb a b && bytes_eqb x' y'
  | _, _ => false
  end.

Fixpoint sql_eqb (a b : value) {struct a} : bool :=
  match a, b with
  | VNull, VNull => true
  | VBool x, VBool y => Bool.eqb x y
  | VLong x, VLong y => (x =? y)%Z
  | VDouble x, VDouble y => (normalize_double x =? normalize_double y)%Z
  | VString x, VString y => String.eqb x y
  | VBinary x, VBinary y => bytes_eqb x y
  | VStruct xs, VStruct ys =>
      (fix all2 (xs ys : list value) : bool :=
         match xs, ys with
         | [], [] => true
         | x :: xs', y :: ys' => sql_eqb x y && all2 xs' ys'
         | _, _ => false
         end) xs ys
  | _, _ => false
  end.

Definition is_null (v : value) : bool :=
  match v with VNull => true | _ => false end.

Definition key_eqb (a b : value) : bool :=
  match a, b with
  | VNull, _ | _, VNull => false
  | _, _ => sql_eqb a b
  end.

(** No null among the keys, and no two keys that an equi-join matches. *)
Fixpoint unique_keys (ks : list value) : bool :=
  match ks with
  | [] => true
  | k :: ks' =>
      negb (is_null k) && negb (existsb (key_eqb k) ks') && unique_keys ks'
  end.

(** The cell of row [r] under the column called [name], and the declared
    type of that column. *)
Fixpoint index_of (name : string) (cols : list string) : nat :=
  match cols with
  | [] => 0
  | c :: cols' => if String.eqb c name then 0 else S (index_of name cols')
  end.

Definition cell (df : DataFrame) (r : list value) (name : string) : value :=
  nth (index_of name (columns df)) r VNull.

Definition dtype_of (df : DataFrame) (name : string) : dtype :=
  nth (index_of name (columns df)) (map snd (schema df)) TBool.

Definition field (df : DataFrame) (name : string) : string * dtype :=
  (name, dtype_of df name).

(** The frame restricted to the columns [names], in that order. *)
Definition project (names : list string) (df : DataFrame) : DataFrame :=
  mkDF (map (field df) names) (map (fun r => map (cell df r) names) (rows df)).

(** The frame with every row packed into one record column. *)
Definition nest (name : string) (df : DataFrame) : DataFrame :=
  mkDF [(name, TStruct (schema df))] (map (fun r => [VStruct r]) (rows df)).

(** Column expressions *)
Inductive column : Type :=
| col (name : string)
| lit (s : string)
| struct (names : list string)
| to_avro (name : string)
| to_avro_native (name : string) (jsonschema : string)
| from_avro (name : string) (jsonschema : string)
| alias (c : column) (name : string).

(** The Avro codec of the engine.  [to_avro_bytes ty v] is the datum of
    [v] under the Avro schema the engine derives from [ty];
    [avro_describes js ty] says that the JSON text [js] is that schema. *)
Class AvroCodec : Type := {
  to_avro_bytes : dtype -> value -> list Byte.byte;
  to_avro_native_bytes : string -> dtype -> value -> result (list Byte.byte);
  from_avro_value : string -> list Byte.byte -> result value;
  avro_sql_type : string -> result dtype;
  avro_describes : string -> dtype -> Prop;
  avro_describes_type : forall js ty,
    avro_describes js ty -> avro_sql_type js = Ok ty;
  avro_roundtrip : forall js ty v,
    avro_describes js ty -> has_type v ty = true ->
    from_avro_value js (to_avro_bytes ty v) = Ok v;
}.

Section Engine.
Context `{codec : AvroCodec}.

(** Positions of the fields called [name] *)
Fixpoint positions (name : string) (sch : list (string * dtype)) (i : nat) : list nat :=
  match sch with
  | [] => []
  | (n, _) :: sch' =>
      if String.eqb n name then i :: positions name sch' (S i)
      else positions name sch' (S i)
  end.

Definition resolve (sch : list (string * dtype)) (name : string) : result (nat * dtype) :=
  match positions name sch 0 with
  | [] => Raise (AnalysisException "cannot resolve")
  | [i] => Ok (i, nth i (map snd sch) TBool)
  | _ => Raise (AnalysisException "ambiguous reference")
  end.

Definition default_name (c : column) : string :=
  match c with
  | col n => n
  | lit s => s
  | struct names => "struct(" ++ String.concat ", " names ++ ")"
  | to_avro n => "to_avro(" ++ n ++ ")"
  | to_avro_native n _ => "to_avro(" ++ n ++ ")"
  | from_avro n _ => "from_avro(" ++ n ++ ")"
  | alias _ n => n
  end.

(** The field an expression yields, as the analyser computes it *)
Fixpoint field_of (sch : list (string * dtype)) (c : column) : result (string * dtype) :=
  match c with
  | col n => '(_, t) ← resolve sch n; Ok (n, t)
  | lit s => Ok (s, TString)
  | struct names =>
      fs ← for_each (fun n => '(_, t) ← resolve sch n; Ok (n, t)) names;
      Ok (default_name c, TStruct fs)
  | to_avro n => _ ← resolve sch n; Ok (default_name c, TBinary)
  | to_avro_native n _ => _ ← resolve sch n; Ok (default_name c, TBinary)
  | from_avro n js =>
      '(_, t) ← resolve sch n;
      match t with
      | TBinary => t' ← avro_sql_type js; Ok (default_name c, t')
      | _ => Raise (AnalysisException "data type mismatch")
      end
  | alias c' n => '(_, t) ← field_of sch c'; Ok (n, t)
  end.

(** The value of an expression on one row *)
Fixpoint eval (sch : list (string * dtype)) (c : column) (row : list value) : result value :=
  match c with
  | col n => '(i, _) ← resolve sch n; Ok (nth i row VNull)
  | lit s => Ok (VString s)
  | struct names =>
      vs ← for_each (fun n => '(i, _) ← resolve sch n; Ok (nth i row VNull)) names;
      Ok (VStruct vs)
  | to_avro n =>
      '(i, t) ← resolve sch n;
      match nth i row VNull with
      | VNull => Ok VNull
      | v => Ok (VBinary (to_avro_bytes t v))
      end
  | to_avro_native n js =>
      '(i, t) ← resolve sch n;
      match nth i row VNull with
      | VNull => Ok VNull
      | v => b ← to_avro_native_bytes js t v; Ok (VBinary b)
      end
  | from_avro n js =>
      '(i, _) ← resolve sch n;
      match nth i row VNull with
      | VNull => Ok VNull
      | VBinary b => from_avro_value js b
      | _ => Raise (AnalysisException "data type mismatch")
      end
  | alias c' _ => eval sch c' row
  end.

(** [df.select] of a list of column expressions *)
Definition select (cs : list column) (df : DataFrame) : result DataFrame :=
  fs ← for_each (field_of (schema df)) cs;
  rs ← for_each (fun r => for_each (fun c => eval (schema df) c r) cs) (rows df);
  Ok (mkDF fs rs).

(** [df.select(names)] for a list of column names *)
Definition select_names (names : list string) (df : DataFrame) : result DataFrame :=
  select (map col names) df.

(** [df.withColumn(name, c)]: replaces the columns called [name] when
    there are some, appends one otherwise. *)
Definition withColumn (name : string) (c : column) (df : DataFrame) : result DataFrame :=
  let cs :=
    if existsb (String.eqb name) (columns df)
    then map (fun n => if String.eqb n name then alias c name else col n) (columns df)
    else (map col (columns df) ++ [alias c name])%list in
  select cs df.

(** [df.toDF] of the new names *)
Definition toDF (names : list string) (df : DataFrame) : result DataFrame :=
  if Nat.eqb (length names) (length (schema df))
  then Ok (mkDF (combine names (map snd (schema df))) (rows df))
  else Raise (AnalysisException "the number of columns does not match")
.

Fixpoint remove_nth {A : Type} (i : nat) (l : list A) : list A :=
  match i, l with
  | _, [] => []
  | O, _ :: l' => l'
  | S j, a :: l' => a :: remove_nth j l'
  end.

(** [left.join(right, key)]: inner equi-join on the column [key] of both
    sides; the key comes first, then the other columns of [left], then the
    other columns of [right]. *)
Definition join (left right : DataFrame) (key : string) : result DataFrame :=
  '(i, t) ← resolve (schema left) key;
  '(j, _) ← resolve (schema right) key;
  Ok (mkDF
        ((key, t) :: (remove_nth i (schema left) ++ remove_nth j (schema right))%list)
        (flat_map
           (fun l =>
              flat_map
                (fun r =>
                   if key_eqb (nth i l VNull) (nth j r VNull)
                   then [nth i l VNull :: (remove_nth i l ++ remove_nth j r)%list]
                   else [])
                (rows right))
           (rows left))).

End Engine.

End Spark.

(** ** [fink_utils.broker.distributionUtils] *)

Import Spark.

(** [json.load], [json.dumps] and [json.dump(_, _, indent=2)] *)
Class Json : Type := {
  json : Type;
  json_load : string -> result json;
  json_dumps : json -> string;
  json_dump_indent : json -> string;
}.

(** What Spark and [fink_utils.broker.avroUtils] do to the store:
    [df.write.format("avro").save(path)] and [readschemafromavrofile]. *)
Class SparkIO `{Json} : Type := {
  write_avro : DataFrame -> string -> gmap string node -> result (gmap string node);
  readschemafromavrofile : gmap string node -> string -> result json;
}.

Section Distribution.
Context `{codec : AvroCodec} `{J : Json} `{sio : !SparkIO}.

Definition df_write_avro (df : DataFrame) (path : string) : io unit := fun w =>
  match write_avro df path (fs w) with
  | Ok m => (Ok tt, set_fs w m)
  | Raise e => (Raise e, w)
  end.

Definition read_schema (avro_file : string) : io json := fun w =>
  (readschemafromavrofile (fs w) avro_file, w).

Definition already_exists_msg (schema_path : string) : string :=
  Py.str [Py.nl] ++ "            " ++ schema_path ++
  " already exists - cannot write the new schema" ++ Py.str [Py.nl] ++ "        ".

Definition save_avro_schema (df : DataFrame) (schema_path : string)
    (save_on_hdfs : bool) : io unit :=
  there ← os_path_isfile schema_path;
  if negb there then
    let prefix_path := if save_on_hdfs then "hdfs:///" else "file:///" in
    pwd ← os_environ "PWD";
    let path_for_avro :=
      path_join prefix_path [Py.slice_from 1 pwd; "flatten_hbase.avro"] in
    stale ← os_path_exists path_for_avro;
    _ ← (if stale : bool then rmtree path_for_avro else pass);
    _ ← df_write_avro df path_for_avro;
    found ←
      (if save_on_hdfs then glob_prefix path_for_avro ".part"
       else
         pwd' ← os_environ "PWD";
         glob_prefix (path_join pwd' ["flatten_hbase.avro"]) ".part");
    avro_file ← lift (Py.first found);
    avro_schema ← read_schema avro_file;
    _ ← open_write schema_path (json_dump_indent avro_schema);
    rmtree path_for_avro
  else
    print (already_exists_msg schema_path).

Definition save_avro_schema_stream (df : DataFrame) (epochid : nat)
    (schema_path : string) (save_on_hdfs : bool) : io unit :=
  save_avro_schema df schema_path save_on_hdfs.

(** [writeStream.foreachBatch(f).start()], the sleep, and [stop()]: [f]
    runs on the micro-batches that arrive in between; an exception in [f]
    ends the query without reaching the caller. *)
Fixpoint foreach_batch (f : DataFrame -> nat -> io unit) (batches : list DataFrame)
    (epochid : nat) : io unit := fun w =>
  match batches with
  | [] => (Ok tt, w)
  | b :: batches' =>
      match f b epochid w with
      | (Ok _, w') => foreach_batch f batches' (S epochid) w'
      | (Raise _, w') => (Ok tt, w')
      end
  end.

(** [l.remove(x)] for an [x] that is in [l] *)
Fixpoint remove_first (x : string) (l : list string) : list string :=
  match l with
  | [] => []
  | y :: l' => if String.eqb y x then l' else y :: remove_first x l'
  end.

Definition elasticc_schema : string :=
  "/home/julien.peloton/elasticc/alert_schema/elasticc.v0_9.brokerClassification.avsc".

(** [stream] is [None] for a static frame, and otherwise holds the
    micro-batches the stream delivers while the caller sleeps. *)
Definition get_kafka_df (df : DataFrame)
    (schema_path fink_broker_version fink_science_version : string)
    (saveschema elasticc : bool) (stream : option (list DataFrame)) : io DataFrame :=
  let cols := columns df in
  let cols :=
    if existsb (String.eqb "status") cols then remove_first "status" cols else cols in
  df ← lift (select_names cols df);
  df_struct ← lift (select [alias (struct (columns df)) "struct"] df);
  df_kafka ←
    (if elasticc then
       jsonschema ← open_read elasticc_schema;
       lift (select [alias (to_avro_native "struct" jsonschema) "value"] df_struct)
     else lift (select [alias (to_avro "struct") "value"] df_struct));
  df_kafka ←
    lift (withColumn "key"
            (lit (Py.format_underscore fink_broker_version fink_science_version))
            df_kafka);
  _ ←
    (if saveschema then
       let schema_path := "schemas/distribution_schema_new.avsc" in
       match stream with
       | None => lift (Raise (AnalysisException "writeStream on a static frame"))
       | Some batches =>
           foreach_batch
             (fun x y => save_avro_schema_stream x y schema_path false) batches 0
       end
     else pass);
  lift (Ok df_kafka).

Definition decode_kafka_df (df_kafka : DataFrame) (schema_path : string) : io DataFrame :=
  text ← open_read schema_path;
  parsed ← lift (json_load text);
  let avro_schema := json_dumps parsed in
  lift (select [alias (from_avro "value" avro_schema) "struct"] df_kafka).

Definition group_df_into_struct (df : DataFrame) (colfamily key : string)
  : result DataFrame :=
  let struct_cols := List.filter (fun c => Py.startswith c (colfamily ++ "_")) (columns df) in
  let flat_cols :=
    List.filter (fun c => negb (Py.startswith c (colfamily ++ "_"))) (columns df) in
  let pos := String.length colfamily + 1 in
  df1 ← select_names flat_cols df;
  let new_col_names := [key] in
  df2 ← select_names (new_col_names ++ struct_cols)%list df;
  let struct_cols := map (Py.slice_from pos) struct_cols in
  let new_col_names := (new_col_names ++ struct_cols)%list in
  df2_renamed ← toDF new_col_names df2;
  df2_struct ← select [col key; alias (struct struct_cols) colfamily] df2_renamed;
  join df1 df2_struct key.

End Distribution.

(** ** pandas and numpy: frames of columns

    A frame is its index labels and its columns, each as long as the
    index.  float64 arithmetic, its formatting, numpy's ordering of floats
    and astropy's [SkyCoord] are an interface.  [skycoord lon lat] is
    [(sc.ra.value, sc.dec.value)] for [sc = SkyCoord(lon, lat, unit=(deg,
    deg))]. *)

Class Numeric : Type := {
  float : Type;
  nan : float;
  of_int : Z -> float;
  fadd : float -> float -> float;
  fsub : float -> float -> float;
  fmul : float -> float -> float;
  fdiv : float -> float -> float;
  log10 : float -> float;
  format6 : float -> string;
  float_str : float -> string;
  float_eqb : float -> float -> bool;
  unique_floats : list float -> list float;
  int_str : Z -> string;
}.

Module Pd.

Section Frames.
Context `{num : Numeric}.

Inductive cell : Type :=
| Num (x : float)
| Int (z : Z)
| Str (s : string).

Record frame : Type := mkFrame {
  index : list Z;
  cols : list (string * list cell);
}.

(** [pd.DataFrame()] *)
Definition empty_frame : frame := mkFrame [] [].

Definition columns (f : frame) : list string := map fst (cols f).
Definition nrows (f : frame) : nat := length (index f).

(** [f.empty] *)
Definition empty (f : frame) : bool :=
  Nat.eqb (nrows f) 0 || Nat.eqb (length (cols f)) 0.

Definition well_formed (f : frame) : Prop :=
  List.NoDup (columns f) /\
  Forall (fun c => length (snd c) = nrows f) (cols f).

Fixpoint lookup_col (name : string) (cs : list (string * list cell))
  : option (list cell) :=
  match cs with
  | [] => None
  | (n, c) :: cs' => if String.eqb n name then Some c else lookup_col name cs'
  end.

(** [f[name]] *)
Definition getitem (f : frame) (name : string) : result (list cell) :=
  match lookup_col name (cols f) with
  | Some c => Ok c
  | None => Raise (KeyError name)
  end.

Fixpoint keep {A : Type} (mask : list bool) (l : list A) : list A :=
  match mask, l with
  | true :: mask', a :: l' => a :: keep mask' l'
  | false :: mask', _ :: l' => keep mask' l'
  | _, _ => []
  end.

(** [f[mask]] *)
Definition select_rows (f : frame) (mask : list bool) : frame :=
  mkFrame (keep mask (index f))
          (map (fun c => (fst c, keep mask (snd c))) (cols f)).

Definition mem (name : string) (names : list string) : bool :=
  existsb (String.eqb name) names.

(** [f.drop(columns=names)] *)
Definition drop (f : frame) (names : list string) : result frame :=
  match List.filter (fun n => negb (mem n (columns f))) names with
  | [] => Ok (mkFrame (index f)
                (List.filter (fun c => negb (mem (fst c) names)) (cols f)))
  | n :: _ => Raise (KeyError n)
  end.

(** [f[name] = values] for an array of values *)
Definition assign (f : frame) (name : string) (values : list cell) : frame :=
  if mem name (columns f)
  then mkFrame (index f)
         (map (fun c => if String.eqb (fst c) name then (name, values) else c) (cols f))
  else mkFrame (index f) (cols f ++ [(name, values)]).

Definition setitem (f : frame) (name : string) (values : list cell) : result frame :=
  if Nat.eqb (length values) (nrows f) then Ok (assign f name values)
  else Raise ValueError.

Definition range (n : nat) : list Z := map Z.of_nat (seq 0 n).

(** [f.reset_index()] *)
Definition index_name (names : list string) : string :=
  if mem "index" names then "level_0" else "index".

Definition reset_index (f : frame) : result frame :=
  let name := index_name (columns f) in
  if mem name (columns f) then Raise ValueError
  else Ok (mkFrame (range (nrows f)) ((name, map Int (index f)) :: cols f)).

Definition pad (n : nat) (c : list cell) : list cell :=
  c ++ repeat (Num nan) (n - length c).

(** [pd.concat([a, b], axis=1)] for two frames indexed from 0 *)
Definition concat_columns (a b : frame) : frame :=
  let n := Nat.max (nrows a) (nrows b) in
  mkFrame (range n)
          (map (fun c => (fst c, pad n (snd c))) (cols a ++ cols b)).

(** [f.loc[:, ~f.columns.duplicated()]] *)
Fixpoint first_occurrences (seen : list string) (cs : list (string * list cell))
  : list (string * list cell) :=
  match cs with
  | [] => []
  | (n, c) :: cs' =>
      if mem n seen then first_occurrences seen cs'
      else (n, c) :: first_occurrences (n :: seen) cs'
  end.

Definition drop_duplicated (f : frame) : frame :=
  mkFrame (index f) (first_occurrences [] (cols f)).

(** [pd.concat(frames)]: the rows of the frames one below the other, under
    the union of their columns in order of first appearance; a frame
    without a column has NaN there. *)
Fixpoint union_names (seen : list string) (names : list string) : list string :=
  match names with
  | [] => []
  | n :: names' =>
      if mem n seen then union_names seen names'
      else n :: union_names (n :: seen) names'
  end.

Definition column_or_nan (name : string) (f : frame) : list cell :=
  match lookup_col name (cols f) with
  | Some c => c
  | None => repeat (Num nan) (nrows f)
  end.

Definition concat_rows (frames : list frame) : frame :=
  mkFrame (flat_map index frames)
          (map (fun n => (n, flat_map (column_or_nan n) frames))
               (union_names [] (flat_map columns frames))).

(** [a == b] on two scalars *)
Definition cell_eqb (a b : cell) : bool :=
  match a, b with
  | Num x, Num y => float_eqb x y
  | Int x, Int y => (x =? y)%Z
  | Str x, Str y => String.eqb x y
  | Num x, Int y => float_eqb x (of_int y)
  | Int x, Num y => float_eqb (of_int x) y
  | _, _ => false
  end.

(** [str(x)] of a scalar *)
Definition cell_str (c : cell) : string :=
  match c with
  | Num x => float_str x
  | Int z => int_str z
  | Str s => s
  end.

(** The number a scalar stands for in float arithmetic *)
Definition as_float (c : cell) : result float :=
  match c with
  | Num x => Ok x
  | Int z => Ok (of_int z)
  | Str _ => Raise TypeError
  end.

(** [np.unique(values)]: the sorted distinct values of an array of
    strings, of integers or of floats; other arrays do not sort. *)
Fixpoint insert_string (x : string) (l : list string) : list string :=
  match l with
  | [] => [x]
  | y :: l' =>
      match String_as_OT.cmp x y with
      | Lt => x :: l
      | Eq => l
      | Gt => y :: insert_string x l'
      end
  end.

Fixpoint insert_int (x : Z) (l : list Z) : list Z :=
  match l with
  | [] => [x]
  | y :: l' =>
      match Z.compare x y with
      | Lt => x :: l
      | Eq => l
      | Gt => y :: insert_int x l'
      end
  end.

Fixpoint strings_of (l : list cell) : option (list string) :=
  match l with
  | [] => Some []
  | Str s :: l' => option_map (cons s) (strings_of l')
  | _ => None
  end.

Fixpoint ints_of (l : list cell) : option (list Z) :=
  match l with
  | [] => Some []
  | Int z :: l' => option_map (cons z) (ints_of l')
  | _ => None
  end.

Fixpoint floats_of (l : list cell) : option (list float) :=
  match l with
  | [] => Some []
  | Num x :: l' => option_map (cons x) (floats_of l')
  | _ => None
  end.

Definition np_unique (values : list cell) : result (list cell) :=
  match strings_of values, ints_of values, floats_of values with
  | Some ss, _, _ => Ok (map Str (fold_right insert_string [] ss))
  | _, Some zs, _ => Ok (map Int (fold_right insert_int [] zs))
  | _, _, Some xs => Ok (map Num (unique_floats xs))
  | _, _, _ => Raise TypeError
  end.

End Frames.

End Pd.

(** ** [fink_utils.sso.utils] *)

Module Sso.
Import Pd.

(** What is posted to the service, and what comes back: the request timed
    out while reading, [requests.post] raised something else, or there is a
    response whose body is not JSON, is a JSON object with or without a
    "data" entry, or is JSON of another kind. *)
Record request : Type := mkRequest {
  url : string;
  p_name : string;
  p_mime : string;
  p_rplane : string;
  p_tcoor : string;
  p_output : string;
  p_observer : string;
  p_tscale : string;
  epochs : string;
  timeout : Z;
}.

Inductive body `{Numeric} : Type :=
| NotJson
| JsonObject (data : option frame)
| JsonOther.

Inductive outcome `{Numeric} : Type :=
| ReadTimeout
| Failed (kind : string)
| Response (b : body).

Class Sky `{Numeric} : Type := {
  skycoord : list cell -> list cell -> result (list float * list float);
}.

Section Miriade.
Context `{num : Numeric} `{sky : !Sky}.
Variable post : request -> outcome.

Definition query_miriade (ident : string) (jd : list cell)
    (observer rplane tcoor : string) (shift : float) : result frame :=
  let url := "https://ssp.imcce.fr/webservices/miriade/api/ephemcc.php" in
  let tcoor := if String.eqb rplane "2" then "1" else tcoor in
  let otype :=
    if Py.endswith ident "P" || Py.startswith ident "C/" then "c" else "a" in
  let shift_hour := fdiv (fdiv shift (of_int 24)) (of_int 3600) in
  lines ← for_each (fun epoch => x ← as_float epoch; Ok (format6 (fadd x shift_hour))) jd;
  let req :=
    mkRequest url (otype ++ ":" ++ ident) "json" rplane tcoor
      "--jd,--colors(SDSS:r,SDSS:g)" observer "UTC"
      (String.concat (Py.str [Py.nl]) lines) 10 in
  match post req with
  | ReadTimeout => Ok empty_frame
  | Failed kind => Raise (RequestException kind)
  | Response NotJson => Raise JSONDecodeError
  | Response JsonOther => Raise TypeError
  | Response (JsonObject None) => Ok empty_frame
  | Response (JsonObject (Some ephem)) => Ok ephem
  end.

(** The body of the loop of [get_miriade_data] for one identifier *)
Definition enrich_group (pdf : frame) (observer rplane tcoor : string)
    (withecl : bool) (ssnamenr : cell) : result frame :=
  ids ← getitem pdf "i:ssnamenr";
  let mask := map (fun x => cell_eqb x ssnamenr) ids in
  let pdf_sub := select_rows pdf mask in
  jd ← getitem pdf_sub "i:jd";
  eph ← query_miriade (cell_str ssnamenr) jd observer rplane tcoor (of_int 15);
  if negb (empty eph) then
    ra ← getitem eph "RA";
    dec ← getitem eph "DEC";
    sc ← skycoord ra dec;
    eph ← drop eph ["RA"; "DEC"];
    eph ← setitem eph "RA" (map (fun x => Num (fmul x (of_int 15))) sc.1);
    eph ← setitem eph "Dec" (map Num sc.2);
    eph ←
      (if withecl then
         jd ← getitem pdf_sub "i:jd";
         eph_ec ← query_miriade (cell_str ssnamenr) jd observer "2" "5" (of_int 15);
         lon ← getitem eph_ec "Longitude";
         lat ← getitem eph_ec "Latitude";
         sc ← skycoord lon lat;
         eph ← setitem eph "Longitude" (map Num sc.1);
         setitem eph "Latitude" (map Num sc.2)
       else Ok eph);
    left ← reset_index eph;
    right ← reset_index pdf_sub;
    let info := concat_columns left right in
    let info := drop_duplicated info in
    magpsf ← getitem info "i:magpsf";
    dobs ← getitem info "Dobs";
    dhelio ← getitem info "Dhelio";
    red ←
      for_each
        (fun t : cell * (cell * cell) =>
           m ← as_float t.1;
           d ← as_float t.2.1;
           h ← as_float t.2.2;
           Ok (Num (fsub m (fmul (of_int 5) (log10 (fmul d h))))))
        (combine magpsf (combine dobs dhelio));
    Ok (assign info "i:magpsf_red" red)
  else Ok pdf_sub.

Definition get_miriade_data (pdf : frame) (observer rplane tcoor : string)
    (withecl : bool) : result frame :=
  ids ← getitem pdf "i:ssnamenr";
  ssnamenrs ← np_unique ids;
  infos ← for_each (enrich_group pdf observer rplane tcoor withecl) ssnamenrs;
  if Nat.ltb 1 (length infos) then Ok (concat_rows infos)
  else Py.first infos.

(** The rows of [pdf] that belong to one identifier, and the first query
    that is made for them. *)
Definition group_rows (pdf : frame) (ssnamenr : cell) : frame :=
  match getitem pdf "i:ssnamenr" with
  | Ok ids => select_rows pdf (map (fun x => cell_eqb x ssnamenr) ids)
  | Raise _ => pdf
  end.

Definition first_query (pdf : frame) (observer rplane tcoor : string)
    (ssnamenr : cell) : result frame :=
  jd ← getitem (group_rows pdf ssnamenr) "i:jd";
  query_miriade (cell_str ssnamenr) jd observer rplane tcoor (of_int 15).

Definition second_query (pdf : frame) (observer : string) (ssnamenr : cell)
  : result frame :=
  jd ← getitem (group_rows pdf ssnamenr) "i:jd";
  query_miriade (cell_str ssnamenr) jd observer "2" "5" (of_int 15).

(** The request [query_miriade] posts, given the lines of its epochs. *)
Definition request_of (ident observer rplane tcoor : string) (lines : list string)
  : request :=
  mkRequest "https://ssp.imcce.fr/webservices/miriade/api/ephemcc.php"
    ((if Py.endswith ident "P" || Py.startswith ident "C/" then "c" else "a")
     ++ ":" ++ ident)
    "json" rplane (if String.eqb rplane "2" then "1" else tcoor)
    "--jd,--colors(SDSS:r,SDSS:g)" observer "UTC"
    (String.concat (Py.str [Py.nl]) lines) 10.

Definition epoch_lines (jd : list cell) (shift : float) : result (list string) :=
  for_each
    (fun epoch =>
       x ← as_float epoch;
       Ok (format6 (fadd x (fdiv (fdiv shift (of_int 24)) (of_int 3600)))))
    jd.

(** [m - 5 * log10(d * h)] *)
Definition reduced_magnitude (m d h : float) : float :=
  fsub m (fmul (of_int 5) (log10 (fmul d h))).

(** The names of the columns that enriching a group adds to it: those of
    the answer without "RA" and "DEC", the converted coordinates, the
    index columns of the two frames that are put side by side, and the
    reduced magnitude. *)
Definition enrichment_columns (eph_columns pdf_columns : list string)
    (withecl : bool) : list string :=
  let e :=
    (List.filter (fun c => negb (mem c ["RA"; "DEC"])) eph_columns ++
     ["RA"; "Dec"] ++ (if withecl then ["Longitude"; "Latitude"] else []))%list in
  (index_name e :: e ++ [index_name pdf_columns; "i:magpsf_red"])%list.

End Miriade.

End Sso.

(** ** [fink_utils.broker.distributionUtils]: the Kafka sink

    [writeStream.format(f).option(k, v)....trigger(processingTime=t)]
    describes a streaming query; what [start()] makes of the description
    is up to the engine and to the cluster, and is an interface. *)

Record stream_writer : Type := mkWriter {
  w_source : DataFrame;
  w_format : string;
  w_options : list (string * string);
  w_trigger : string;
}.

Class StreamSink : Type := {
  streaming_query : Type;
  start : stream_writer -> result streaming_query;
}.

Section Kafka.
Context `{codec : AvroCodec} `{num : Numeric} `{sink : StreamSink}.

(** ["{} seconds".format(t)] for a float [t] *)
Definition format_seconds (t : float) : string := float_str t ++ " seconds".

(** [key] is the [Column] that [withColumn] is given. *)
Definition write_to_kafka (sdf : DataFrame) (key : column)
    (kafka_bootstrap_servers kafka_sasl_username kafka_sasl_password
     topic_name checkpoint_stream_path : string) (processingTime : float)
  : result streaming_query :=
  df_struct ← select [alias (struct (columns sdf)) "struct"] sdf;
  df_kafka ← select [alias (to_avro "struct") "value"] df_struct;
  df_kafka ← withColumn "key" key df_kafka;
  start (mkWriter df_kafka "kafka"
           [("kafka.bootstrap.servers", kafka_bootstrap_servers);
            ("kafka.sasl.username", kafka_sasl_username);
            ("kafka.sasl.password", kafka_sasl_password);
            ("topic", topic_name);
            ("checkpointLocation", checkpoint_stream_path)]
           (format_seconds processingTime)).

End Kafka.

(** ** A small instance of the interfaces

    Enough of a codec, of JSON and of the engine's output to run the
    functions on concrete frames: the codec knows the records with one
    string field "objectId"; a JSON value is its own text; Spark writes a
    "file://" URL below the local path it names and leaves other stores
    alone. *)

Module Example.

Definition record_type : dtype := TStruct [("objectId", TString)].

Definition record_schema : string := "{type: record, fields: [objectId: string]}".

Definition to_bytes (t : dtype) (v : value) : list Byte.byte :=
  match v with
  | VStruct [VString s] => Byte.x01 :: list_byte_of_string s
  | VStruct [VNull] => [Byte.x00]
  | _ => []
  end.

Definition from_bytes (js : string) (b : list Byte.byte) : result value :=
  match b with
  | [] => Ok VNull
  | Byte.x00 :: _ => Ok (VStruct [VNull])
  | Byte.x01 :: r => Ok (VStruct [VString (string_of_list_byte r)])
  | _ => Raise (SparkException "malformed datum")
  end.

Definition sql_type (js : string) : result dtype :=
  if String.eqb js record_schema then Ok record_type
  else Raise (AnalysisException "unknown schema").

Definition describes (js : string) (t : dtype) : Prop :=
  js = record_schema /\ t = record_type.

Lemma describes_type (js : string) (t : dtype) :
  describes js t -> sql_type js = Ok t.
Proof. intros [-> ->]. reflexivity. Qed.

Lemma roundtrip (js : string) (t : dtype) (v : value) :
  describes js t -> has_type v t = true -> from_bytes js (to_bytes t v) = Ok v.
Proof.
  intros [-> ->] Hv.
  destruct v as [| | | | | |vs]; try discriminate; [reflexivity|].
  destruct vs as [|v [|v' vs]]; try discriminate.
  - destruct v; try discriminate; [reflexivity|].
    cbn [to_bytes from_bytes]. now rewrite string_of_list_byte_of_string.
  - cbn in Hv. now rewrite andb_false_r in Hv.
Qed.

Definition codec : AvroCodec := {|
  to_avro_bytes := to_bytes;
  to_avro_native_bytes := fun _ t v => Ok (to_bytes t v);
  from_avro_value := from_bytes;
  avro_sql_type := sql_type;
  avro_describes := describes;
  avro_describes_type := describes_type;
  avro_roundtrip := roundtrip;
|}.

Definition text_json : Json := {|
  json := string;
  json_load := fun text => Ok text;
  json_dumps := fun j => j;
  json_dump_indent := fun j => j;
|}.

Definition local_path (url : string) : option string :=
  if String.prefix "file://" url then Some (Py.slice_from 7 url) else None.

Definition read_schema_file (m : gmap string node) (f : string)
  : result (@json text_json) :=
  match m !! f with
  | Some (File _) => Ok record_schema
  | _ => Raise FileNotFoundError
  end.

Definition spark_io : @SparkIO text_json := {|
  write_avro := fun _ url m =>
    match local_path url with
    | Some dir =>
        match m !! dir with
        | Some _ => Raise (AnalysisException "path already exists")
        | None =>
            Ok (<[dir ++ "/.part-00000.avro.crc" := File "crc"]>
                  (<[dir ++ "/part-00000.avro" := File "avro"]>
                     (<[dir := Dir]> m)))
        end
    | None => Ok m
    end;
  readschemafromavrofile := read_schema_file;
|}.

(** Two alerts with a status, and the store of a machine whose working
    directory is /home/fink and which holds the schema of the records. *)
Definition alerts : DataFrame :=
  mkDF [("objectId", TString); ("status", TString)]
       [[VString "ZTF18aceatkx"; VString "new"];
        [VString "ZTF18acsbjvw"; VString "old"]].

(** The frame of the docstring of [group_df_into_struct], and two frames
    on which the family and the key meet. *)
Definition flat_alerts : DataFrame :=
  mkDF [("objectId", TString); ("candid", TLong); ("candidate_ra", TDouble);
        ("candidate_dec", TDouble); ("cross_match_alerts_per_batch", TString)]
       [[VString "ZTF18aceatkx"; VLong 697251923115015002;
         VDouble 4626433554180871324; VDouble 13851233562653588731; VString "Star"];
        [VString "ZTF18acsbjvw"; VLong 697251921215010004;
         VDouble 4626441890259339094; VDouble 13851681644020094312;
         VString "Unknown"]].

Definition keyed_family : DataFrame :=
  mkDF [("id", TLong); ("candidate_id", TLong)] [[VLong 1; VLong 7]].

Definition key_second : DataFrame :=
  mkDF [("a", TLong); ("id", TLong); ("candidate_ra", TLong)]
       [[VLong 5; VLong 1; VLong 7]].

(** Floats as the expressions that compute them: running the enricher
    on them shows which operations it applies, in which order. *)
Inductive sym : Type :=
| SLit (text : string)
| SOfInt (z : Z)
| SNaN
| SAdd (a b : sym)
| SSub (a b : sym)
| SMul (a b : sym)
| SDiv (a b : sym)
| SLog10 (a : sym)
| SRa (lon : sym)
| SDec (lat : sym).

Fixpoint show (x : sym) : string :=
  match x with
  | SLit t => t
  | SOfInt z => DecimalString.NilZero.string_of_int (Z.to_int z)
  | SNaN => "nan"
  | SAdd a b => "(" ++ show a ++ " + " ++ show b ++ ")"
  | SSub a b => "(" ++ show a ++ " - " ++ show b ++ ")"
  | SMul a b => "(" ++ show a ++ " * " ++ show b ++ ")"
  | SDiv a b => "(" ++ show a ++ " / " ++ show b ++ ")"
  | SLog10 a => "log10(" ++ show a ++ ")"
  | SRa a => "ra(" ++ show a ++ ")"
  | SDec a => "dec(" ++ show a ++ ")"
  end.

Fixpoint dedup_strings (seen l : list string) : list string :=
  match l with
  | [] => []
  | x :: l' =>
      if existsb (String.eqb x) seen then dedup_strings seen l'
      else x :: dedup_strings (x :: seen) l'
  end.

Definition symbolic : Numeric := {|
  float := sym;
  nan := SNaN;
  of_int := SOfInt;
  fadd := SAdd;
  fsub := SSub;
  fmul := SMul;
  fdiv := SDiv;
  log10 := SLog10;
  format6 := show;
  float_str := show;
  float_eqb := fun a b => String.eqb (show a) (show b);
  unique_floats := fun xs => map SLit (dedup_strings [] (map show xs));
  int_str := fun z => DecimalString.NilZero.string_of_int (Z.to_int z);
|}.

Definition angle (c : @Pd.cell symbolic) : sym :=
  match c with
  | Pd.Num x => x
  | Pd.Int z => SOfInt z
  | Pd.Str s => SLit s
  end.

Definition sky : @Sso.Sky symbolic := {|
  Sso.skycoord := fun lon lat =>
    if Nat.eqb (length lon) (length lat)
    then Ok (map (fun c => SRa (angle c)) lon, map (fun c => SDec (angle c)) lat)
    else Raise ValueError;
|}.

Definition number (t : string) : @Pd.cell symbolic := @Pd.Num symbolic (SLit t).
Definition text (t : string) : @Pd.cell symbolic := @Pd.Str symbolic t.

(** Three observations of two objects, the answers of the service for
    object 1234 in both planes, and two states of the service: one that
    times out for object 9999, one that times out in the ecliptic plane. *)
Definition observations : @Pd.frame symbolic :=
  @Pd.mkFrame symbolic [0; 1; 2]%Z
    [("i:ssnamenr", [text "9999"; text "1234"; text "9999"]);
     ("i:jd", [number "2459000.5"; number "2459001.5";
               number "2459002.5"]);
     ("i:magpsf", [number "17.5"; number "18.0";
                   number "17.2"])].

Definition equatorial : @Pd.frame symbolic :=
  @Pd.mkFrame symbolic [0]%Z
    [("Date", [number "2459001.500174"]);
     ("RA", [text "12 30 00.0"]);
     ("DEC", [text "+05 00 00.0"]);
     ("Dobs", [number "1.2"]);
     ("Dhelio", [number "2.3"])].

Definition ecliptic : @Pd.frame symbolic :=
  @Pd.mkFrame symbolic [0]%Z
    [("Date", [number "2459001.500174"]);
     ("Longitude", [number "188.1"]);
     ("Latitude", [number "1.5"])].

Definition partly_down (req : Sso.request) : @Sso.outcome symbolic :=
  if String.eqb (Sso.p_name req) "a:1234" then
    if String.eqb (Sso.p_rplane req) "1"
    then Sso.Response (Sso.JsonObject (Some equatorial))
    else Sso.Response (Sso.JsonObject (Some ecliptic))
  else Sso.ReadTimeout.

Definition ecliptic_down (req : Sso.request) : @Sso.outcome symbolic :=
  if String.eqb (Sso.p_rplane req) "1"
  then Sso.Response (Sso.JsonObject (Some equatorial))
  else Sso.ReadTimeout.

Definition refused (req : Sso.request) : @Sso.outcome symbolic :=
  Sso.Failed "ConnectionError".

Definition one_object : @Pd.frame symbolic :=
  @Pd.mkFrame symbolic [0]%Z
    [("i:ssnamenr", [text "1234"]);
     ("i:jd", [number "2459001.5"]);
     ("i:magpsf", [number "18.0"])].

Definition machine : world :=
  World (<["schema.avsc" := File record_schema]> (<["/home/fink" := Dir]> ∅))
        (<["PWD" := "/home/fink"]> ∅)
        [].


Definition sink : StreamSink := {|
  streaming_query := stream_writer;
  start := fun wr => Ok wr;
|}.

(** The offset log of the docstring of [get_distribution_offset], after
    a second record was appended, and alerts that are only their
    identifier. *)
Definition offset_machine : world :=
  World (<["dist.offset.test" :=
             File ("distributed till, 1600000000000" ++ Py.str [Py.nl] ++
                   "distributed till, 1700000000000")]> ∅)
        ∅ [].

Definition bare_alerts : DataFrame :=
  mkDF [("objectId", TString)]
       [[VString "ZTF18aceatkx"]; [VString "ZTF18acsbjvw"]].

End Example.

(** ** Vocabulary of the properties *)

(** The characters a decimal literal of [int()] is made of. *)
Definition numeric_char (c : ascii) : bool :=
  Py.is_digit c || Py.is_space c || Ascii.eqb c "_" || Ascii.eqb c "+" || Ascii.eqb c "-".

(** The columns that remain once "status" is gone, and the frame
    restricted to them. *)
Definition kept_columns (df : DataFrame) : list string :=
  List.filter (fun c => negb (String.eqb c "status")) (columns df).

Definition drop_status (df : DataFrame) : DataFrame :=
  project (kept_columns df) df.

(** The directory [save_avro_schema] materialises a batch in, when the
    working directory is [pwd]. *)
Definition scratch_dir (save_on_hdfs : bool) (pwd : string) : string :=
  path_join (if save_on_hdfs then "hdfs:///" else "file:///")
            [Py.slice_from 1 pwd; "flatten_hbase.avro"].


(** The columns named [colfamily_...], and the others. *)
Definition prefixed (colfamily : string) (df : DataFrame) : list string :=
  List.filter (fun c => Py.startswith c (colfamily ++ "_")) (columns df).

Definition unprefixed (colfamily : string) (df : DataFrame) : list string :=
  List.filter (fun c => negb (Py.startswith c (colfamily ++ "_"))) (columns df).

(** The values of the column [key], row by row. *)
Definition key_values (df : DataFrame) (key : string) : list value :=
  map (fun r => cell df r key) (rows df).

(** The regrouped table, written out: the key, the other columns outside
    the family, and the record of the family under the names without the
    prefix; one row for each pair of rows whose keys match. *)
Definition regrouped (df : DataFrame) (colfamily key : string) : DataFrame :=
  let flat := unprefixed colfamily df in
  let family := prefixed colfamily df in
  let i := index_of key flat in
  let names := map (Py.slice_from (String.length colfamily + 1)) family in
  mkDF
    ((key, dtype_of df key) ::
     (remove_nth i (map (field df) flat) ++
      [(colfamily, TStruct (combine names (map (dtype_of df) family)))])%list)
    (flat_map
       (fun a =>
          flat_map
            (fun b =>
               if key_eqb (cell df a key) (cell df b key)
               then [cell df a key ::
                     (remove_nth i (map (cell df a) flat) ++
                      [VStruct (map (cell df b) family)])%list]
               else [])
            (rows df))
       (rows df)).

(** A table for the regrouping of [colfamily] around [key]: the column
    names are distinct, [key] is one of them, is neither [colfamily]
    itself nor one of its family, and the family has no member that
    would be called [key] once the prefix is gone. *)
Definition regroupable (df : DataFrame) (colfamily key : string) : Prop :=
  List.NoDup (columns df) /\
  In key (columns df) /\
  key <> colfamily /\
  Py.startswith key (colfamily ++ "_") = false /\
  ~ In (colfamily ++ "_" ++ key) (columns df).

(** The names [group_df_into_struct] refers to: those of the table and,
    once the family is renamed, the key next to the family's names
    without the prefix; and the key is not the family's name in another
    case. *)
Definition plainly_regroupable (df : DataFrame) (colfamily key : string) : Prop :=
  plain_names (columns df) /\
  plain_names
    (key :: map (Py.slice_from (String.length colfamily + 1)) (prefixed colfamily df)) /\
  lower key <> lower colfamily.

(** A text without a line break. *)
Definition one_line (s : string) : bool :=
  forallb (fun c => negb (Ascii.eqb c Py.nl || Ascii.eqb c Py.cr)) (Py.chars s).

(** The payload column of a frame, before a key is put next to it, and
    the options [write_to_kafka] sets. *)
Definition value_frame `{AvroCodec} (sdf : DataFrame) : DataFrame :=
  mkDF [("value", TBinary)]
    (map (fun r => [VBinary (to_avro_bytes (TStruct (schema sdf)) (VStruct r))])
         (rows sdf)).

Definition kafka_options (servers user password topic checkpoint : string)
  : list (string * string) :=
  [("kafka.bootstrap.servers", servers); ("kafka.sasl.username", user);
   ("kafka.sasl.password", password); ("topic", topic);
   ("checkpointLocation", checkpoint)].

(* ================================================================== *)
(** * Properties *)

Example int_examples :
  Py.int "123456789" = Ok 123456789%Z /\
  Py.int " -1_000 " = Ok (-1000)%Z /\
  Py.int "12a" = Raise ValueError /\
  Py.int "" = Raise ValueError /\
  Py.int "1__0" = Raise ValueError.
Proof. repeat split; reflexivity. Qed.

(** ** Offset tracker *)

Lemma isfile_lookup (w : world) (path : string) :
  isfile w path = true <-> exists c, fs w !! path = Some (File c).
Proof.
  unfold isfile. destruct (fs w !! path) as [[c|]|]; split;
    try discriminate; eauto; intros [c' H]; discriminate.
Qed.

Lemma eqb_string_false (a b : string) : a <> b -> String.eqb a b = false.
Proof. intros H. apply String.eqb_neq. exact H. Qed.

(** The last line of a non-empty text exists. *)
Lemma readlines_go_nonempty (s : string) (cur : list ascii) :
  (s <> "" \/ cur <> []) -> Py.readlines_go s cur <> [].
Proof.
  revert cur. induction s as [|c s IH]; intros cur H; simpl.
  - destruct cur; [destruct H; congruence | discriminate].
  - destruct (Ascii.eqb c Py.nl); [discriminate|].
    destruct (Ascii.eqb c Py.cr).
    + destruct s as [|c' s']; [discriminate|].
      destruct (Ascii.eqb c' Py.nl); discriminate.
    + apply IH. right. discriminate.
Qed.

Lemma last_nonempty {A : Type} (l : list A) :
  l <> [] -> exists a, Py.last l = Ok a.
Proof.
  induction l as [|a l IH]; [congruence|]. intros _.
  destruct l as [|b l]; [exists a; reflexivity|].
  destruct IH as [x Hx]; [discriminate|]. exists x. exact Hx.
Qed.

Lemma split_go_nonempty (sep s : string) (skip : nat) (cur : list ascii) :
  Py.split_go sep s skip cur <> [].
Proof.
  revert skip cur. induction s as [|c s IH]; intros skip cur; cbn [Py.split_go].
  - discriminate.
  - destruct skip; [|apply IH].
    destruct (String.prefix sep (String c s)); [discriminate | apply IH].
Qed.

(** [int] refuses a text with a character that no literal has. *)
Lemma lstrip_keeps (c : ascii) (cs : list ascii) :
  In c cs -> Py.is_space c = false -> In c (Py.lstrip cs).
Proof.
  induction cs as [|x cs IH]; intros Hin Hc; [destruct Hin|].
  cbn [Py.lstrip]. destruct (Py.is_space x) eqn:Hx; [|exact Hin].
  destruct Hin as [->|Hin]; [congruence | now apply IH].
Qed.

Lemma strip_keeps (c : ascii) (cs : list ascii) :
  In c cs -> Py.is_space c = false -> In c (Py.strip cs).
Proof.
  intros Hin Hc. unfold Py.strip. rewrite <- in_rev.
  apply lstrip_keeps; [|exact Hc]. rewrite <- in_rev.
  now apply lstrip_keeps.
Qed.

Lemma parse_digits_refuses (c : ascii) (cs : list ascii) (acc : Z) (n : nat) (b : bool) :
  In c cs -> Py.is_digit c = false -> Ascii.eqb c "_" = false ->
  Py.parse_digits cs acc n b = None.
Proof.
  revert acc n b. induction cs as [|x cs IH]; intros acc n b Hin Hd Hu; [destruct Hin|].
  cbn [Py.parse_digits]. destruct Hin as [->|Hin].
  - now rewrite Hd, Hu.
  - destruct (Py.is_digit x); [now apply IH|].
    destruct (Ascii.eqb x "_"); [|reflexivity].
    destruct b; [now apply IH | reflexivity].
Qed.

Lemma int_not_numeric (s : string) (c : ascii) :
  In c (Py.chars s) -> numeric_char c = false -> Py.int s = Raise ValueError.
Proof.
  unfold numeric_char. intros Hin Hc.
  apply orb_false_iff in Hc as [Hc Hminus]. apply orb_false_iff in Hc as [Hc Hplus].
  apply orb_false_iff in Hc as [Hc Hunder]. apply orb_false_iff in Hc as [Hdigit Hspace].
  pose proof (strip_keeps c _ Hin Hspace) as Hbody.
  unfold Py.int. set (body := Py.strip (Py.chars s)) in *.
  assert (Hrest : forall r sign, body = sign :: r -> Ascii.eqb c sign = false -> In c r).
  { intros r sign E Hne. rewrite E in Hbody. destruct Hbody as [->|H]; [|exact H].
    now rewrite Ascii.eqb_refl in Hne. }
  destruct body as [|x r] eqn:E; [destruct Hbody|].
  destruct (Ascii.eqb_spec x "-") as [->|Hx1].
  - now rewrite (parse_digits_refuses c r _ _ _ (Hrest r _ eq_refl Hminus) Hdigit Hunder).
  - destruct (Ascii.eqb_spec x "+") as [->|Hx2].
    + now rewrite (parse_digits_refuses c r _ _ _ (Hrest r _ eq_refl Hplus) Hdigit Hunder).
    + assert (Hds : Py.parse_digits (x :: r) 0 0 false = None)
        by (apply (parse_digits_refuses c); assumption).
      destruct x as [[] [] [] [] [] [] [] []]; try congruence; now rewrite Hds.
Qed.

(** C2. [get_distribution_offset path policy] is 100 when the file is
    missing, or is empty, or the policy is "earliest".  Otherwise, under
    "latest" it is [int] of the piece after the last ", " of the last line
    of the file, and under any other policy it is [int(policy)]; in both
    cases the call ends in [ValueError] as soon as the text handed to [int]
    holds a character that is no digit, sign, underscore or blank. *)
Theorem get_distribution_offset_spec (w : world) (path policy : string) :
  (isfile w path = false -> get_distribution_offset w path policy = Ok 100%Z) /\
  (isfile w path = true -> getsize w path = Ok 0 ->
     get_distribution_offset w path policy = Ok 100%Z) /\
  (policy = "earliest" -> get_distribution_offset w path policy = Ok 100%Z) /\
  (forall content, fs w !! path = Some (File content) -> content <> "" ->
     (policy = "latest" ->
        exists line toks tok,
          Py.last (Py.readlines content) = Ok line /\
          Py.split line ", " = Ok toks /\
          Py.last toks = Ok tok /\
          get_distribution_offset w path policy = Py.int tok /\
          (forall c, In c (Py.chars tok) -> numeric_char c = false ->
             get_distribution_offset w path policy = Raise ValueError)) /\
     (policy <> "earliest" -> policy <> "latest" ->
        get_distribution_offset w path policy = Py.int policy /\
        (forall c, In c (Py.chars policy) -> numeric_char c = false ->
           get_distribution_offset w path policy = Raise ValueError))).
Proof.
  unfold get_distribution_offset. repeat split.
  - intros H. rewrite H. reflexivity.
  - intros H Hsz. rewrite H. cbn. rewrite Hsz. reflexivity.
  - intros ->. destruct (isfile w path) eqn:Hf; cbn.
    + apply isfile_lookup in Hf as [c Hc]. unfold getsize. rewrite Hc. cbn.
      rewrite orb_true_r. reflexivity.
    + reflexivity.
  - intros ->.
    assert (Hf : isfile w path = true) by (apply isfile_lookup; eauto).
    destruct (last_nonempty (Py.readlines content)) as [line Hline].
    { apply readlines_go_nonempty. left. assumption. }
    destruct (last_nonempty (Py.split_go ", " line 0 [])) as [tok Htok].
    { apply split_go_nonempty. }
    exists line, (Py.split_go ", " line 0 []), tok.
    assert (E : get_distribution_offset w path "latest" = Py.int tok).
    { unfold get_distribution_offset, getsize, read_text. rewrite Hf, H.
      destruct content as [|c0 content']; [congruence|].
      cbn [mbind result_bind String.length Nat.leb negb orb String.eqb].
      change (String.eqb "latest" "earliest") with false.
      change (String.eqb "latest" "latest") with true.
      cbn iota. rewrite Hline. cbn [mbind result_bind]. unfold Py.split.
      cbn [mbind result_bind]. rewrite Htok. reflexivity. }
    unfold get_distribution_offset in E.
    repeat split; try assumption; try reflexivity.
    intros c Hin Hc. rewrite E. exact (int_not_numeric tok c Hin Hc).
  - unfold getsize. rewrite H.
    assert (Hf : isfile w path = true) by (apply isfile_lookup; eauto).
    rewrite Hf. cbn. destruct content as [|c0 content']; [congruence|]. cbn.
    rewrite (eqb_string_false policy "earliest"), (eqb_string_false policy "latest")
      by assumption.
    reflexivity.
  - intros c Hin Hc. unfold getsize. rewrite H.
    assert (Hf : isfile w path = true) by (apply isfile_lookup; eauto).
    rewrite Hf. cbn. destruct content as [|c0 content']; [congruence|]. cbn.
    rewrite (eqb_string_false policy "earliest"), (eqb_string_false policy "latest")
      by assumption.
    exact (int_not_numeric policy c Hin Hc).
Qed.

(** ** Spark: name resolution and projection *)

Lemma bind_ok {A B : Type} (a : A) (k : A -> result B) : (x ← Ok a; k x) = k a.
Proof. reflexivity. Qed.

Lemma for_each_ok {A B : Type} (f : A -> result B) (g : A -> B) (l : list A) :
  (forall a, In a l -> f a = Ok (g a)) -> for_each f l = Ok (map g l).
Proof.
  induction l as [|a l IH]; intros H; [reflexivity|].
  cbn [for_each map]. rewrite (H a (or_introl eq_refl)), bind_ok.
  rewrite IH by (intros b Hb; apply H; right; exact Hb). reflexivity.
Qed.

Lemma for_each_Forall2_len {A B : Type} (f : A -> result B) (l : list A) (r : list B) :
  for_each f l = Ok r -> length r = length l.
Proof.
  revert r. induction l as [|a l IH]; intros r H.
  - now injection H as <-.
  - cbn [for_each] in H. destruct (f a) as [b|]; [|discriminate].
    rewrite bind_ok in H. destruct (for_each f l) as [bs|]; [|discriminate].
    rewrite bind_ok in H. injection H as <-. cbn [length]. f_equal. now apply IH.
Qed.

Lemma for_each_map {A B C : Type} (f : B -> result C) (g : A -> B) (l : list A) :
  for_each f (map g l) = for_each (fun a => f (g a)) l.
Proof.
  induction l as [|a l IH]; [reflexivity|].
  cbn [for_each map]. rewrite IH. reflexivity.
Qed.

Lemma io_bind_ok {A B : Type} (a : A) (k : A -> io B) (w : world) :
  (x ← lift (Ok a); k x) w = k a w.
Proof. reflexivity. Qed.

Lemma io_bind_raise {A B : Type} (e : exn) (k : A -> io B) (w : world) :
  (x ← lift (Raise e); k x) w = (Raise e, w).
Proof. reflexivity. Qed.

Lemma io_bind_run {A B : Type} (m : io A) (k : A -> io B) (w : world) :
  (x ← m; k x) w =
  match m w with
  | (Ok a, w') => k a w'
  | (Raise e, w') => (Raise e, w')
  end.
Proof. reflexivity. Qed.

Section SparkFacts.
Context `{codec : AvroCodec}.

Lemma positions_notin (name : string) (sch : list (string * dtype)) (i : nat) :
  ~ In name (map fst sch) -> positions name sch i = [].
Proof.
  revert i. induction sch as [|[n t] sch IH]; intros i H; [reflexivity|].
  cbn [positions]. cbn [map fst In] in H.
  destruct (String.eqb_spec n name) as [->|Hne]; [tauto|].
  apply IH. tauto.
Qed.

Lemma positions_nodup (name : string) (sch : list (string * dtype)) (i : nat) :
  List.NoDup (map fst sch) -> In name (map fst sch) ->
  positions name sch i = [i + index_of name (map fst sch)].
Proof.
  revert i. induction sch as [|[n t] sch IH]; intros i Hnd Hin; [destruct Hin|].
  cbn [positions map fst index_of]. cbn [map fst] in Hnd, Hin.
  apply List.NoDup_cons_iff in Hnd as [Hn Hnd].
  destruct (String.eqb_spec n name) as [->|Hne].
  - rewrite positions_notin by assumption. f_equal. lia.
  - destruct Hin as [->|Hin]; [congruence|].
    rewrite IH by assumption. f_equal. lia.
Qed.

Lemma resolve_nodup (sch : list (string * dtype)) (name : string) :
  List.NoDup (map fst sch) -> In name (map fst sch) ->
  resolve sch name =
  Ok (index_of name (map fst sch), nth (index_of name (map fst sch)) (map snd sch) TBool).
Proof.
  intros Hnd Hin. unfold resolve. rewrite positions_nodup by assumption.
  reflexivity.
Qed.

Lemma resolve_missing (sch : list (string * dtype)) (name : string) :
  ~ In name (map fst sch) -> resolve sch name = Raise (AnalysisException "cannot resolve").
Proof. intros H. unfold resolve. rewrite positions_notin by assumption. reflexivity. Qed.

Lemma select_names_project (names : list string) (df : DataFrame) :
  List.NoDup (columns df) -> incl names (columns df) ->
  select_names names df = Ok (project names df).
Proof.
  intros Hnd Hin. unfold select_names, select, project.
  rewrite for_each_map.
  rewrite (for_each_ok _ (field df)).
  2:{ intros n Hn. cbn [field_of]. rewrite resolve_nodup by auto. reflexivity. }
  rewrite bind_ok.
  rewrite (for_each_ok _ (fun r => map (cell df r) names)).
  2:{ intros r _. rewrite for_each_map. apply for_each_ok.
      intros n Hn. cbn [eval]. rewrite resolve_nodup by auto. reflexivity. }
  reflexivity.
Qed.

End SparkFacts.

Lemma plain_names_nodup (names : list string) :
  plain_names names -> List.NoDup names.
Proof. intros [_ H]. exact (List.NoDup_map_inv lower names H). Qed.

Lemma absent_not_in (n : string) (names : list string) :
  absent n names -> ~ In n names.
Proof. intros [_ H] Hin. apply H. now apply in_map. Qed.

(** ** Record encoder *)

Lemma nth_index_of_map {A : Type} (g : string -> A) (names : list string)
    (n : string) (d : A) :
  In n names -> nth (index_of n names) (map g names) d = g n.
Proof.
  induction names as [|c names IH]; intros Hin; [destruct Hin|].
  cbn [index_of map]. destruct (String.eqb_spec c n) as [->|Hne]; [reflexivity|].
  destruct Hin as [->|Hin]; [congruence|]. cbn [nth]. apply IH, Hin.
Qed.

Lemma map_nth_index_of {A : Type} (cols : list string) (l : list A) (d : A) :
  List.NoDup cols -> length l = length cols ->
  map (fun n => nth (index_of n cols) l d) cols = l.
Proof.
  revert l. induction cols as [|c cols IH]; intros l Hnd Hlen.
  - destruct l; [reflexivity | discriminate].
  - destruct l as [|x l]; [discriminate|].
    apply List.NoDup_cons_iff in Hnd as [Hc Hnd].
    cbn [map index_of]. rewrite String.eqb_refl. cbn [nth]. f_equal.
    transitivity (map (fun n => nth (index_of n cols) l d) cols).
    + apply map_ext_in. intros n Hn.
      destruct (String.eqb_spec c n) as [->|Hne]; [tauto | reflexivity].
    + apply IH; [assumption | cbn in Hlen; lia].
Qed.

Lemma remove_first_filter (cols : list string) :
  List.NoDup cols ->
  (if existsb (String.eqb "status") cols then remove_first "status" cols else cols) =
  List.filter (fun c => negb (String.eqb c "status")) cols.
Proof.
  induction cols as [|c cols IH]; intros Hnd; [reflexivity|].
  apply List.NoDup_cons_iff in Hnd as [Hc Hnd]. specialize (IH Hnd).
  cbn [existsb remove_first List.filter].
  rewrite (String.eqb_sym "status" c).
  destruct (String.eqb_spec c "status") as [->|Hne]; cbn [orb negb].
  - symmetry. apply forallb_filter_id. apply forallb_forall. intros x Hx.
    destruct (String.eqb_spec x "status") as [->|]; [tauto | reflexivity].
  - destruct (existsb (String.eqb "status") cols); rewrite <- IH; reflexivity.
Qed.

Lemma kept_columns_incl (df : DataFrame) : incl (kept_columns df) (columns df).
Proof. intros n Hn. apply filter_In in Hn. tauto. Qed.

Lemma kept_columns_nodup (df : DataFrame) :
  List.NoDup (columns df) -> List.NoDup (kept_columns df).
Proof. apply List.NoDup_filter. Qed.

Lemma columns_project (names : list string) (df : DataFrame) :
  columns (project names df) = names.
Proof.
  unfold columns, project. cbn [schema]. rewrite map_map. apply map_id.
Qed.

Lemma map_field_columns (d : DataFrame) :
  List.NoDup (columns d) -> map (field d) (columns d) = schema d.
Proof.
  unfold field, dtype_of, columns. generalize (schema d) as sch.
  induction sch as [|[n t] sch IH]; intros Hnd; [reflexivity|].
  cbn [map fst snd] in *. apply List.NoDup_cons_iff in Hnd as [Hn Hnd].
  cbn [index_of]. rewrite String.eqb_refl. cbn [nth]. f_equal.
  rewrite <- (IH Hnd) at 2. apply map_ext_in. intros m Hm.
  destruct (String.eqb_spec n m) as [->|Hne]; [tauto | reflexivity].
Qed.

Section EncoderFacts.
Context `{codec : AvroCodec} `{J : Json} `{sio : !SparkIO}.

(** Packing every column of a frame whose rows are as long as its schema. *)
Lemma select_struct_nest (name : string) (d : DataFrame) :
  List.NoDup (columns d) ->
  Forall (fun r => length r = length (schema d)) (rows d) ->
  select [alias (struct (columns d)) name] d = Ok (nest name d).
Proof.
  intros Hnd Hrows. unfold select, nest. cbn [for_each field_of].
  rewrite (for_each_ok _ (field d)).
  2:{ intros n Hn. rewrite resolve_nodup by assumption. reflexivity. }
  rewrite !bind_ok.
  rewrite map_field_columns by assumption.
  rewrite (for_each_ok _ (fun r => [VStruct r])).
  2:{ intros r Hr. cbn [for_each eval].
      rewrite (for_each_ok _ (cell d r)).
      2:{ intros n Hn. rewrite resolve_nodup by assumption. reflexivity. }
      rewrite !bind_ok. unfold cell.
      rewrite map_nth_index_of; [reflexivity | assumption |].
      rewrite List.Forall_forall in Hrows. rewrite (Hrows r Hr).
      unfold columns. now rewrite length_map. }
  reflexivity.
Qed.

Lemma select_to_avro (T : dtype) (vs : list (list value)) :
  select [alias (to_avro "struct") "value"]
    (mkDF [("struct", T)] (map (fun r => [VStruct r]) vs)) =
  Ok (mkDF [("value", TBinary)]
        (map (fun r => [VBinary (to_avro_bytes T (VStruct r))]) vs)).
Proof.
  unfold select. cbn [schema rows]. rewrite for_each_map.
  rewrite (for_each_ok _ (fun r => [VBinary (to_avro_bytes T (VStruct r))]))
    by (intros r _; reflexivity).
  reflexivity.
Qed.

Lemma withColumn_key (k : string) (bs : list value) :
  withColumn "key" (lit k) (mkDF [("value", TBinary)] (map (fun b => [b]) bs)) =
  Ok (mkDF [("value", TBinary); ("key", TString)]
        (map (fun b => [b; VString k]) bs)).
Proof.
  unfold withColumn, select. cbn [schema rows columns map fst].
  rewrite for_each_map.
  rewrite (for_each_ok _ (fun b => [b; VString k])) by (intros b _; reflexivity).
  reflexivity.
Qed.

Lemma project_rows_length (names : list string) (df : DataFrame) :
  Forall (fun r => length r = length (schema (project names df)))
         (rows (project names df)).
Proof.
  unfold project. cbn [schema rows]. apply List.Forall_forall. intros r Hr.
  apply in_map_iff in Hr as [r0 [<- _]]. now rewrite !length_map.
Qed.

Lemma foreach_batch_ok (f : DataFrame -> nat -> io unit) (batches : list DataFrame)
    (epochid : nat) (w : world) :
  fst (foreach_batch f batches epochid w) = Ok tt.
Proof.
  revert epochid w. induction batches as [|b bs IH]; intros e w; [reflexivity|].
  cbn [foreach_batch]. destruct (f b e w) as [[[]|x] w']; [apply IH | reflexivity].
Qed.

(** The frame [get_kafka_df] builds before it looks at [saveschema]. *)
Definition kafka_frame (df : DataFrame) (key : string) : DataFrame :=
  mkDF [("value", TBinary); ("key", TString)]
    (map (fun r =>
            [VBinary (to_avro_bytes (TStruct (schema (drop_status df))) (VStruct r));
             VString key])
         (rows (drop_status df))).

Lemma get_kafka_df_run (df : DataFrame)
    (schema_path fink_broker_version fink_science_version : string)
    (saveschema : bool) (stream : option (list DataFrame)) (w : world) :
  List.NoDup (columns df) ->
  get_kafka_df df schema_path fink_broker_version fink_science_version
    saveschema false stream w =
  let frame := kafka_frame df (fink_broker_version ++ "_" ++ fink_science_version) in
  if saveschema then
    match stream with
    | Some batches =>
        (Ok frame,
         snd (foreach_batch
                (fun x y =>
                   save_avro_schema_stream x y "schemas/distribution_schema_new.avsc" false)
                batches 0 w))
    | None => (Raise (AnalysisException "writeStream on a static frame"), w)
    end
  else (Ok frame, w).
Proof.
  intros Hnd. unfold get_kafka_df. rewrite remove_first_filter by assumption.
  fold (kept_columns df).
  rewrite select_names_project by (auto using kept_columns_incl).
  fold (drop_status df).
  rewrite io_bind_ok, select_struct_nest.
  2:{ unfold drop_status. rewrite columns_project. now apply kept_columns_nodup. }
  2:{ apply project_rows_length. }
  unfold nest. rewrite io_bind_ok, select_to_avro, io_bind_ok.
  rewrite <- (map_map (fun r => VBinary (to_avro_bytes _ (VStruct r)))
                      (fun b => [b])).
  rewrite withColumn_key, io_bind_ok, map_map, io_bind_run.
  destruct saveschema; [|reflexivity].
  destruct stream as [batches|]; [|reflexivity].
  pose proof (foreach_batch_ok
    (fun x y => save_avro_schema_stream x y "schemas/distribution_schema_new.avsc" false)
    batches 0 w) as Hb.
  destruct (foreach_batch _ batches 0 w) as [[[]|e] w'] eqn:E;
    [reflexivity | discriminate].
Qed.

Lemma select_to_avro_native (js : string) (T : dtype) (vs : list (list value)) :
  select [alias (to_avro_native "struct" js) "value"]
    (mkDF [("struct", T)] (map (fun r => [VStruct r]) vs)) =
  (bs ← for_each (fun r => to_avro_native_bytes js T (VStruct r)) vs;
   Ok (mkDF [("value", TBinary)] (map (fun b => [VBinary b]) bs))).
Proof.
  unfold select. cbn [schema rows]. rewrite for_each_map.
  change (for_each (field_of [("struct", T)]) [alias (to_avro_native "struct" js) "value"])
    with (Ok [("value", TBinary)] : result (list (string * dtype))).
  rewrite bind_ok.
  induction vs as [|r vs IH]; [reflexivity|].
  cbn [for_each map].
  change (eval [("struct", T)] (alias (to_avro_native "struct" js) "value") [VStruct r])
    with (b ← to_avro_native_bytes js T (VStruct r); Ok (VBinary b)).
  destruct (to_avro_native_bytes js T (VStruct r)) as [b|e]; [|reflexivity].
  rewrite !bind_ok.
  destruct (for_each _ vs) as [rs|e]; destruct (for_each _ vs) as [bs|e'];
    first [discriminate IH | injection IH as ->; reflexivity].
Qed.

(** The payloads of the rows, under the schema of the data or under the
    schema that is forced in [elasticc] mode. *)
Definition payloads (elasticc : bool) (jsonschema : string) (df : DataFrame)
  : result (list (list Byte.byte)) :=
  let T := TStruct (schema (drop_status df)) in
  if elasticc
  then for_each (fun r => to_avro_native_bytes jsonschema T (VStruct r))
                (rows (drop_status df))
  else Ok (map (fun r => to_avro_bytes T (VStruct r)) (rows (drop_status df))).

Definition payload_frame (bs : list (list Byte.byte)) (key : string) : DataFrame :=
  mkDF [("value", TBinary); ("key", TString)]
    (map (fun b => [VBinary b; VString key]) bs).

Lemma get_kafka_df_run_elasticc (df : DataFrame)
    (schema_path fink_broker_version fink_science_version jsonschema : string)
    (saveschema : bool) (stream : option (list DataFrame)) (w : world) :
  List.NoDup (columns df) ->
  (saveschema = true -> stream <> None) ->
  fs w !! elasticc_schema = Some (File jsonschema) ->
  fst (get_kafka_df df schema_path fink_broker_version fink_science_version
         saveschema true stream w) =
  (bs ← payloads true jsonschema df;
   Ok (payload_frame bs (fink_broker_version ++ "_" ++ fink_science_version))).
Proof.
  intros Hnd Hstream Hfile. unfold get_kafka_df.
  rewrite remove_first_filter by assumption. fold (kept_columns df).
  rewrite select_names_project by (auto using kept_columns_incl).
  fold (drop_status df).
  rewrite io_bind_ok, select_struct_nest.
  2:{ unfold drop_status. rewrite columns_project. now apply kept_columns_nodup. }
  2:{ apply project_rows_length. }
  unfold nest. rewrite io_bind_ok, io_bind_run, io_bind_run.
  unfold open_read at 1, read_text. rewrite Hfile.
  rewrite select_to_avro_native. unfold payloads.
  destruct (for_each _ (rows (drop_status df))) as [bs|e]; [|reflexivity].
  rewrite bind_ok. unfold lift at 1.
  rewrite <- (map_map VBinary (fun b => [b])).
  rewrite io_bind_run. unfold lift at 1. rewrite withColumn_key, map_map, io_bind_run.
  destruct saveschema; [|reflexivity].
  destruct stream as [batches|]; [|now destruct Hstream].
  pose proof (foreach_batch_ok
    (fun x y => save_avro_schema_stream x y "schemas/distribution_schema_new.avsc" false)
    batches 0 w) as Hb.
  destruct (foreach_batch _ batches 0 w) as [[[]|e] w'] eqn:E;
    [reflexivity | discriminate].
Qed.

(** C7. On a frame whose column names are plain and differ also when case
    is ignored, [get_kafka_df] answers with
    the columns "value" and "key": "status" is not among the columns that
    are packed, whether the input had it or not, every other column is, in
    the input's order; "value" is the Avro datum of the record of those
    columns, and "key" is the two versions joined by an underscore, on every
    row.  In [elasticc] mode the datum is written under the schema read
    from the fixed path, and the call fails if a row does not fit it. *)
Theorem get_kafka_df_payload (df : DataFrame)
    (schema_path fink_broker_version fink_science_version jsonschema : string)
    (saveschema elasticc : bool) (stream : option (list DataFrame)) (w : world) :
  plain_names (columns df) ->
  (saveschema = true -> stream <> None) ->
  (elasticc = true -> fs w !! elasticc_schema = Some (File jsonschema)) ->
  fst (get_kafka_df df schema_path fink_broker_version fink_science_version
         saveschema elasticc stream w) =
    (bs ← payloads elasticc jsonschema df;
     Ok (payload_frame bs (fink_broker_version ++ "_" ++ fink_science_version))) /\
  columns (drop_status df) =
    List.filter (fun c => negb (String.eqb c "status")) (columns df) /\
  (~ In "status" (columns df) -> columns (drop_status df) = columns df) /\
  (forall bs, payloads elasticc jsonschema df = Ok bs ->
     count (payload_frame bs (fink_broker_version ++ "_" ++ fink_science_version)) =
     count df).
Proof.
  intros Hplain Hstream Hfile. pose proof (plain_names_nodup _ Hplain) as Hnd.
  repeat split.
  - destruct elasticc.
    + now apply get_kafka_df_run_elasticc; auto.
    + rewrite get_kafka_df_run by assumption. cbv zeta.
      unfold payloads, kafka_frame, payload_frame. rewrite bind_ok, map_map.
      destruct saveschema; [|reflexivity].
      destruct stream as [batches|]; [reflexivity | now destruct Hstream].
  - unfold drop_status. apply columns_project.
  - intros Hno. unfold drop_status. rewrite columns_project. unfold kept_columns.
    apply forallb_filter_id, forallb_forall. intros x Hx.
    destruct (String.eqb_spec x "status") as [->|]; [tauto | reflexivity].
  - intros bs Hbs. unfold payload_frame, count. cbn [rows]. rewrite length_map.
    unfold payloads in Hbs. destruct elasticc.
    + apply for_each_Forall2_len in Hbs. rewrite Hbs.
      unfold drop_status, project. cbn [rows]. now rewrite length_map.
    + injection Hbs as <-. unfold drop_status, project. cbn [rows].
      now rewrite !length_map.
Qed.

(** ** Record decoder and round trip *)

Lemma has_type_struct_cons (v : value) (vs : list value) (n : string) (t : dtype)
    (fs : list (string * dtype)) :
  has_type (VStruct (v :: vs)) (TStruct ((n, t) :: fs)) =
  has_type v t && has_type (VStruct vs) (TStruct fs).
Proof. reflexivity. Qed.

Lemma has_type_struct_nth (vs : list value) (fs : list (string * dtype)) (i : nat) :
  has_type (VStruct vs) (TStruct fs) = true ->
  has_type (nth i vs VNull) (nth i (map snd fs) TBool) = true.
Proof.
  revert fs i. induction vs as [|v vs IH]; intros fs i H.
  - destruct i; reflexivity.
  - destruct fs as [|[n t] fs]; [discriminate|].
    rewrite has_type_struct_cons in H. apply andb_prop in H as [Hv Hvs].
    destruct i; [exact Hv | apply (IH fs i Hvs)].
Qed.

Lemma has_type_struct_map (f : string -> value) (g : string -> dtype)
    (names : list string) :
  (forall n, In n names -> has_type (f n) (g n) = true) ->
  has_type (VStruct (map f names)) (TStruct (map (fun n => (n, g n)) names)) = true.
Proof.
  induction names as [|n names IH]; intros H; [reflexivity|].
  cbn [map]. rewrite has_type_struct_cons, (H n (or_introl eq_refl)).
  apply IH. intros m Hm. apply H. right. exact Hm.
Qed.

Lemma project_well_typed (names : list string) (df : DataFrame) (r : list value) :
  has_type (VStruct r) (TStruct (schema df)) = true ->
  has_type (VStruct (map (cell df r) names))
           (TStruct (schema (project names df))) = true.
Proof.
  intros H. unfold project. cbn [schema]. apply has_type_struct_map.
  intros n _. apply has_type_struct_nth, H.
Qed.

Lemma select_from_avro (js : string) (T : dtype) (vs : list (list value)) (k : string) :
  avro_describes js T ->
  Forall (fun r => has_type (VStruct r) T = true) vs ->
  select [alias (from_avro "value" js) "struct"]
    (mkDF [("value", TBinary); ("key", TString)]
       (map (fun r => [VBinary (to_avro_bytes T (VStruct r)); VString k]) vs)) =
  Ok (mkDF [("struct", T)] (map (fun r => [VStruct r]) vs)).
Proof.
  intros Hd Hvs. unfold select. cbn [schema rows for_each field_of].
  change (resolve [("value", TBinary); ("key", TString)] "value")
    with (Ok (0, TBinary) : result (nat * dtype)).
  rewrite !bind_ok. rewrite (avro_describes_type _ _ Hd), !bind_ok.
  rewrite for_each_map.
  rewrite (for_each_ok _ (fun r => [VStruct r])); [reflexivity|].
  intros r Hr. cbn [for_each eval].
  change (resolve [("value", TBinary); ("key", TString)] "value")
    with (Ok (0, TBinary) : result (nat * dtype)).
  rewrite !bind_ok. cbn [nth].
  rewrite List.Forall_forall in Hvs.
  rewrite (avro_roundtrip _ _ _ Hd (Hvs r Hr)). reflexivity.
Qed.

(** What decoding an encoded frame yields: the frame without "status",
    packed into one record column named "struct". *)
Lemma decode_after_encode (df : DataFrame)
    (schema_path fink_broker_version fink_science_version text : string)
    (parsed : json) (w : world) :
  well_formed df ->
  fs w !! schema_path = Some (File text) ->
  json_load text = Ok parsed ->
  avro_describes (json_dumps parsed) (TStruct (schema (drop_status df))) ->
  (df_kafka ← get_kafka_df df schema_path fink_broker_version fink_science_version
                false false None;
   decode_kafka_df df_kafka schema_path) w =
  (Ok (nest "struct" (drop_status df)), w).
Proof.
  intros [Hnd Hrows] Hfile Hload Hd.
  rewrite io_bind_run, get_kafka_df_run by assumption. cbv zeta iota.
  unfold decode_kafka_df. rewrite io_bind_run. unfold open_read, read_text.
  rewrite Hfile, Hload, io_bind_ok.
  unfold kafka_frame. rewrite (select_from_avro _ _ _ _ Hd); [reflexivity|].
  apply List.Forall_forall. intros r Hr. unfold drop_status, project in Hr.
  cbn [rows] in Hr. apply in_map_iff in Hr as [r0 [<- Hr0]].
  apply project_well_typed.
  rewrite List.Forall_forall in Hrows. apply Hrows, Hr0.
Qed.

(** C1, as the code has it.  Encoding a well-formed frame whose column
    names are plain and differ also when case is ignored, and decoding the
    payload against a stored descriptor that describes the encoded records
    yields one column, "struct", whose records hold the columns of the
    input other than "status", in order and with the input's values: its
    expansion is the input without "status", the frame itself is not. *)
Theorem decode_kafka_df_get_kafka_df (df : DataFrame)
    (schema_path fink_broker_version fink_science_version text : string)
    (parsed : json) (w : world) :
  well_formed df ->
  plain_names (columns df) ->
  fs w !! schema_path = Some (File text) ->
  json_load text = Ok parsed ->
  avro_describes (json_dumps parsed) (TStruct (schema (drop_status df))) ->
  exists decoded,
    (df_kafka ← get_kafka_df df schema_path fink_broker_version fink_science_version
                  false false None;
     decode_kafka_df df_kafka schema_path) w = (Ok decoded, w) /\
    schema decoded = [("struct", TStruct (schema (drop_status df)))] /\
    map (fun r => match r with [VStruct vs] => vs | _ => [] end) (rows decoded) =
      rows (drop_status df) /\
    columns decoded = ["struct"].
Proof.
  intros Hwf _ Hfile Hload Hd. exists (nest "struct" (drop_status df)).
  split; [now apply (decode_after_encode df _ _ _ text parsed)|].
  unfold nest. cbn [schema rows columns map fst]. repeat split.
  rewrite map_map. apply map_id.
Qed.

End EncoderFacts.

(** *** The encoder and the decoder on two alerts *)

Ltac distinct_names :=
  repeat (apply List.NoDup_cons; [cbn; intuition discriminate|]); apply List.NoDup_nil.

Lemma alerts_well_formed : well_formed Example.alerts.
Proof.
  split; [cbn; distinct_names | repeat constructor].
Defined.

Ltac plain_names_tac :=
  split; [repeat constructor | vm_compute; distinct_names].

Lemma alerts_plain : plain_names (columns Example.alerts).
Proof. plain_names_tac. Defined.

Lemma get_kafka_df_payload_witness :
  plain_names (columns Example.alerts) /\
  (false = true -> @None (list DataFrame) <> None) /\
  (false = true -> fs Example.machine !! elasticc_schema = Some (File "")) /\
  fst (@get_kafka_df Example.codec Example.text_json Example.spark_io
         Example.alerts "schema.avsc" "2.2" "2.0.0" false false None Example.machine) =
    Ok (@kafka_frame Example.codec Example.alerts "2.2_2.0.0") /\
  columns (drop_status Example.alerts) = ["objectId"].
Proof.
  pose proof alerts_plain as Hnd.
  assert (Hs : false = true -> @None (list DataFrame) <> None) by discriminate.
  assert (He : false = true -> fs Example.machine !! elasticc_schema = Some (File ""))
    by discriminate.
  destruct (@get_kafka_df_payload Example.codec Example.text_json Example.spark_io
              Example.alerts "schema.avsc" "2.2" "2.0.0" "" false false None
              Example.machine Hnd Hs He) as (H1 & H2 & _ & _).
  split; [exact Hnd | split; [exact Hs | split; [exact He | split; [exact H1 | exact H2]]]].
Defined.

Lemma decode_kafka_df_get_kafka_df_witness :
  well_formed Example.alerts /\
  plain_names (columns Example.alerts) /\
  exists decoded,
    (df_kafka ← @get_kafka_df Example.codec Example.text_json Example.spark_io
                  Example.alerts "schema.avsc" "2.2" "2.0.0" false false None;
     @decode_kafka_df Example.codec Example.text_json df_kafka "schema.avsc")
      Example.machine = (Ok decoded, Example.machine) /\
    schema decoded = [("struct", TStruct [("objectId", TString)])] /\
    map (fun r => match r with [VStruct vs] => vs | _ => [] end) (rows decoded) =
      [[VString "ZTF18aceatkx"]; [VString "ZTF18acsbjvw"]] /\
    columns decoded = ["struct"].
Proof.
  split; [exact alerts_well_formed|]. split; [exact alerts_plain|].
  apply (@decode_kafka_df_get_kafka_df Example.codec Example.text_json Example.spark_io
           Example.alerts "schema.avsc" "2.2" "2.0.0"
           Example.record_schema Example.record_schema Example.machine).
  - exact alerts_well_formed.
  - exact alerts_plain.
  - reflexivity.
  - reflexivity.
  - split; reflexivity.
Defined.

(** The decoded frame is not the input without "status": it has the one
    column "struct" where the input has "objectId". *)
Lemma decoded_frame_is_nested :
  exists decoded,
    (df_kafka ← @get_kafka_df Example.codec Example.text_json Example.spark_io
                  Example.alerts "schema.avsc" "2.2" "2.0.0" false false None;
     @decode_kafka_df Example.codec Example.text_json df_kafka "schema.avsc")
      Example.machine = (Ok decoded, Example.machine) /\
    columns decoded = ["struct"] /\
    columns (drop_status Example.alerts) = ["objectId"] /\
    decoded <> drop_status Example.alerts.
Proof.
  eexists. split; [vm_compute; reflexivity|].
  repeat split. intros H. discriminate H.
Qed.

(** ** Column regrouping *)

(** Induction on values, through the fields of records. *)
Fixpoint value_ind_fields (P : value -> Prop)
    (Hnull : P VNull) (Hbool : forall b, P (VBool b)) (Hlong : forall z, P (VLong z))
    (Hdouble : forall d, P (VDouble d)) (Hstring : forall s, P (VString s))
    (Hbinary : forall b, P (VBinary b))
    (Hstruct : forall vs, Forall P vs -> P (VStruct vs))
    (v : value) {struct v} : P v :=
  match v with
  | VNull => Hnull
  | VBool b => Hbool b
  | VLong z => Hlong z
  | VDouble d => Hdouble d
  | VString s => Hstring s
  | VBinary b => Hbinary b
  | VStruct vs =>
      Hstruct vs
        ((fix all (l : list value) : Forall P l :=
            match l with
            | [] => @List.Forall_nil value P
            | x :: l' =>
                @List.Forall_cons value P x l'
                  (value_ind_fields P Hnull Hbool Hlong Hdouble Hstring Hbinary
                     Hstruct x)
                  (all l')
            end) vs)
  end.

Lemma bytes_eqb_refl (x : list Byte.byte) : bytes_eqb x x = true.
Proof.
  induction x as [|a x IH]; [reflexivity|]. cbn [bytes_eqb].
  rewrite IH, andb_true_r. now apply Byte.byte_dec_lb.
Qed.

Lemma bytes_eqb_sym (x y : list Byte.byte) : bytes_eqb x y = bytes_eqb y x.
Proof.
  revert y. induction x as [|a x IH]; intros [|b y]; try reflexivity.
  cbn [bytes_eqb]. rewrite IH. f_equal.
  destruct (Byte.eqb a b) eqn:E.
  - apply Byte.byte_dec_bl in E as ->. symmetry. now apply Byte.byte_dec_lb.
  - destruct (Byte.eqb b a) eqn:E'; [|reflexivity].
    apply Byte.byte_dec_bl in E' as ->.
    rewrite (Byte.byte_dec_lb eq_refl) in E. discriminate.
Qed.

Lemma sql_eqb_struct_cons (x y : value) (xs ys : list value) :
  sql_eqb (VStruct (x :: xs)) (VStruct (y :: ys)) =
  sql_eqb x y && sql_eqb (VStruct xs) (VStruct ys).
Proof. reflexivity. Qed.

Lemma sql_eqb_refl (v : value) : sql_eqb v v = true.
Proof.
  induction v as [| b | z | d | s | b | vs IH] using value_ind_fields;
    cbn [sql_eqb]; try reflexivity.
  - now destruct b.
  - apply Z.eqb_refl.
  - apply Z.eqb_refl.
  - apply String.eqb_refl.
  - apply bytes_eqb_refl.
  - induction IH as [|x xs Hx _ IHxs]; [reflexivity|].
    change (sql_eqb (VStruct (x :: xs)) (VStruct (x :: xs)) = true).
    rewrite sql_eqb_struct_cons, Hx. exact IHxs.
Qed.

Lemma sql_eqb_sym (a b : value) : sql_eqb a b = sql_eqb b a.
Proof.
  revert b.
  induction a as [| x | x | x | x | x | xs IH] using value_ind_fields;
    intros [| y | y | y | y | y | ys]; try reflexivity; cbn [sql_eqb].
  - now destruct x, y.
  - apply Z.eqb_sym.
  - apply Z.eqb_sym.
  - apply String.eqb_sym.
  - apply bytes_eqb_sym.
  - revert ys. induction IH as [|x xs Hx _ IHxs]; intros [|y ys]; try reflexivity.
    change (sql_eqb (VStruct (x :: xs)) (VStruct (y :: ys)) =
            sql_eqb (VStruct (y :: ys)) (VStruct (x :: xs))).
    rewrite !sql_eqb_struct_cons, Hx. f_equal. apply IHxs.
Qed.

Lemma key_eqb_refl (v : value) : is_null v = false -> key_eqb v v = true.
Proof.
  intros H. destruct v; try discriminate; unfold key_eqb; apply sql_eqb_refl.
Qed.

Lemma key_eqb_sym (a b : value) : key_eqb a b = key_eqb b a.
Proof.
  destruct a, b; try reflexivity; unfold key_eqb; apply sql_eqb_sym.
Qed.

Lemma filter_none {A : Type} (f : A -> bool) (l : list A) :
  (forall x, In x l -> f x = false) -> List.filter f l = [].
Proof.
  induction l as [|a l IH]; intros H; [reflexivity|].
  cbn [List.filter]. rewrite (H a (or_introl eq_refl)).
  apply IH. intros x Hx. apply H. right. exact Hx.
Qed.

(** Among unique keys, a key matches itself and nothing else. *)
Lemma unique_keys_one_match (ks : list value) (k : value) :
  unique_keys ks = true -> In k ks ->
  length (List.filter (key_eqb k) ks) = 1.
Proof.
  induction ks as [|k0 ks IH]; intros Hu Hin; [destruct Hin|].
  cbn [unique_keys] in Hu.
  apply andb_prop in Hu as [Hu Hks]. apply andb_prop in Hu as [Hnn Hno].
  apply negb_true_iff in Hnn, Hno.
  assert (Hnone : forall x, In x ks -> key_eqb k0 x = false).
  { intros x Hx. destruct (key_eqb k0 x) eqn:E; [|reflexivity].
    assert (existsb (key_eqb k0) ks = true) by (apply existsb_exists; eauto).
    congruence. }
  cbn [List.filter].
  destruct (key_eqb k k0) eqn:E.
  - assert (k = k0) as ->.
    { destruct Hin as [->|Hin]; [reflexivity|].
      rewrite key_eqb_sym, (Hnone k Hin) in E. discriminate. }
    cbn [length]. f_equal.
    rewrite filter_none; [reflexivity|].
    intros x Hx. apply Hnone, Hx.
  - destruct Hin as [->|Hin]; [rewrite key_eqb_refl in E by assumption; discriminate|].
    now apply IH.
Qed.

Lemma append_cons (c : ascii) (a b : string) : String c a ++ b = String c (a ++ b).
Proof. reflexivity. Qed.

Lemma string_length_append (a b : string) :
  String.length (a ++ b) = String.length a + String.length b.
Proof.
  induction a as [|c a IH]; [reflexivity|].
  rewrite append_cons. cbn [String.length Nat.add]. f_equal. exact IH.
Qed.

Lemma prefix_split (p c : string) :
  String.prefix p c = true -> c = p ++ Py.slice_from (String.length p) c.
Proof.
  revert c. induction p as [|x p IH]; intros c H; [reflexivity|].
  destruct c as [|y c]; [discriminate|]. cbn [String.prefix] in H.
  destruct (Ascii.ascii_dec x y) as [->|]; [|discriminate].
  rewrite append_cons. cbn [String.length Py.slice_from]. f_equal. apply IH, H.
Qed.

Lemma NoDup_map_in {A B : Type} (f : A -> B) (l : list A) :
  (forall a b, In a l -> In b l -> f a = f b -> a = b) ->
  List.NoDup l -> List.NoDup (map f l).
Proof.
  induction l as [|a l IH]; intros Hinj Hnd; [constructor|].
  apply List.NoDup_cons_iff in Hnd as [Ha Hnd]. cbn [map].
  apply List.NoDup_cons.
  - intros Hin. apply in_map_iff in Hin as [b [Hb Hin]].
    apply Ha. rewrite (Hinj a b); auto using in_eq, in_cons.
  - apply IH; [|assumption]. intros x y Hx Hy. apply Hinj; now right.
Qed.

Section RegroupFacts.
Context `{codec : AvroCodec}.
Variables (df : DataFrame) (colfamily key : string).
Hypothesis Hreg : regroupable df colfamily key.

Let pos : nat := String.length colfamily + 1.
Let stripped : list string := map (Py.slice_from pos) (prefixed colfamily df).

Lemma prefixed_incl : incl (prefixed colfamily df) (columns df).
Proof. intros n Hn. apply filter_In in Hn. tauto. Qed.

Lemma unprefixed_incl : incl (unprefixed colfamily df) (columns df).
Proof. intros n Hn. apply filter_In in Hn. tauto. Qed.

Lemma key_unprefixed : In key (unprefixed colfamily df).
Proof.
  destruct Hreg as (_ & Hin & _ & Hk & _). apply filter_In. split; [assumption|].
  now rewrite Hk.
Qed.

Lemma prefixed_name (c : string) :
  In c (prefixed colfamily df) -> c = (colfamily ++ "_") ++ Py.slice_from pos c.
Proof.
  intros Hc. apply filter_In in Hc as [_ Hc]. unfold Py.startswith in Hc.
  apply prefix_split in Hc. rewrite string_length_append in Hc. exact Hc.
Qed.

Lemma stripped_nodup : List.NoDup stripped.
Proof.
  destruct Hreg as (Hnd & _). apply NoDup_map_in.
  - intros a b Ha Hb E. rewrite (prefixed_name a Ha), (prefixed_name b Hb), E.
    reflexivity.
  - now apply List.NoDup_filter.
Qed.

Lemma key_not_stripped : ~ In key stripped.
Proof.
  destruct Hreg as (_ & _ & _ & _ & Hno). intros Hin.
  apply in_map_iff in Hin as [c [E Hc]]. apply Hno.
  pose proof (prefixed_name c Hc) as Hname. rewrite E in Hname.
  replace (colfamily ++ "_" ++ key) with c.
  - now apply prefixed_incl.
  - rewrite Hname. clear. induction colfamily as [|x p IH]; [reflexivity|].
    rewrite !append_cons. now rewrite IH.
Qed.

Lemma flat_map_map {A B C : Type} (f : B -> list C) (g : A -> B) (l : list A) :
  flat_map f (map g l) = flat_map (fun a => f (g a)) l.
Proof. induction l as [|a l IH]; [reflexivity|]. cbn [map flat_map]. now rewrite IH. Qed.

Lemma map_snd_combine {A B : Type} (l : list A) (l' : list B) :
  length l = length l' -> map snd (combine l l') = l'.
Proof.
  revert l'. induction l as [|a l IH]; intros [|b l'] H; try discriminate;
    [reflexivity|].
  cbn [combine map snd]. f_equal. apply IH. cbn in H. lia.
Qed.

Lemma map_pair_combine {A B : Type} (g : A -> B) (l : list A) :
  map (fun a => (a, g a)) l = combine l (map g l).
Proof. induction l as [|a l IH]; [reflexivity|]. cbn [map combine]. now rewrite IH. Qed.

Lemma columns_combine (names : list string) (types : list dtype) :
  length names = length types -> map fst (combine names types) = names.
Proof.
  revert types. induction names as [|n names IH]; intros [|t types] H;
    try discriminate; [reflexivity|].
  cbn [combine map fst]. f_equal. apply IH. cbn in H. lia.
Qed.

Lemma select_key_struct (d : DataFrame) (k name : string) (names : list string) :
  List.NoDup (columns d) -> In k (columns d) -> incl names (columns d) ->
  select [col k; alias (struct names) name] d =
  Ok (mkDF [(k, dtype_of d k); (name, TStruct (map (field d) names))]
        (map (fun r => [cell d r k; VStruct (map (cell d r) names)]) (rows d))).
Proof.
  intros Hnd Hk Hnames. unfold select. cbn [for_each field_of].
  rewrite (resolve_nodup _ _ Hnd Hk), !bind_ok.
  rewrite (for_each_ok _ (field d)).
  2:{ intros n Hn. rewrite resolve_nodup by auto. reflexivity. }
  rewrite !bind_ok.
  rewrite (for_each_ok _ (fun r => [cell d r k; VStruct (map (cell d r) names)])).
  2:{ intros r _. cbn [for_each eval].
      rewrite (resolve_nodup _ _ Hnd Hk), !bind_ok.
      rewrite (for_each_ok _ (cell d r)).
      2:{ intros n Hn. rewrite resolve_nodup by auto. reflexivity. }
      reflexivity. }
  reflexivity.
Qed.

(** Looking a stripped name up in the renamed frame is looking the full
    name up in the original. *)
Lemma renamed_lookup {A : Type} (x : A) (l : list A) (d : A) :
  length l = length stripped ->
  map (fun n => nth (index_of n (key :: stripped)) (x :: l) d) stripped = l.
Proof.
  intros Hlen.
  transitivity (map (fun n => nth (index_of n stripped) l d) stripped).
  - apply map_ext_in. intros n Hn. cbn [index_of].
    destruct (String.eqb_spec key n) as [E|Hne]; [|reflexivity].
    exfalso. apply key_not_stripped. rewrite E. exact Hn.
  - apply map_nth_index_of; [apply stripped_nodup | assumption].
Qed.

Lemma group_df_into_struct_steps :
  group_df_into_struct df colfamily key =
  (df1 ← select_names (unprefixed colfamily df) df;
   df2 ← select_names (key :: prefixed colfamily df) df;
   df2_renamed ← toDF (key :: stripped) df2;
   df2_struct ← select [col key; alias (struct stripped) colfamily] df2_renamed;
   join df1 df2_struct key).
Proof. reflexivity. Qed.

Lemma group_df_into_struct_run :
  group_df_into_struct df colfamily key = Ok (regrouped df colfamily key).
Proof.
  pose proof Hreg as (Hnd & Hin & Hne & Hk & Hno).
  rewrite group_df_into_struct_steps.
  rewrite (select_names_project _ df Hnd unprefixed_incl), bind_ok.
  rewrite select_names_project; [| assumption |].
  2:{ intros n [<-|Hn]; [assumption | now apply prefixed_incl]. }
  rewrite bind_ok.
  unfold toDF, project. cbn [schema rows].
  rewrite !length_map. cbn [length].
  assert (Hlen : length stripped = length (prefixed colfamily df))
    by (unfold stripped; apply length_map).
  rewrite Hlen, Nat.eqb_refl, bind_ok.
  set (d := mkDF (combine _ _) _).
  assert (Hcols : columns d = key :: stripped).
  { unfold columns, d. cbn [schema]. apply columns_combine.
    rewrite !length_map. cbn [length]. lia. }
  assert (Hdnd : List.NoDup (columns d)).
  { rewrite Hcols. apply List.NoDup_cons;
      [apply key_not_stripped | apply stripped_nodup]. }
  rewrite select_key_struct; [| assumption | rewrite Hcols; apply in_eq
                              | rewrite Hcols; apply incl_tl, incl_refl].
  rewrite bind_ok. unfold join. cbn [schema rows].
  assert (Hflat : map fst (map (field df) (unprefixed colfamily df)) =
                  unprefixed colfamily df) by apply (columns_project _ df).
  rewrite (resolve_nodup (map (field df) (unprefixed colfamily df)) key);
    [| rewrite Hflat; now apply List.NoDup_filter
     | rewrite Hflat; apply key_unprefixed ].
  rewrite bind_ok, Hflat.
  rewrite (resolve_nodup [(key, _); (colfamily, _)] key);
    [| cbn [map fst]; apply List.NoDup_cons; [intros [E|[]]; congruence|];
       apply List.NoDup_cons; [intros [] | apply List.NoDup_nil]
     | apply in_eq ].
  rewrite bind_ok. cbn [map fst snd index_of]. rewrite String.eqb_refl.
  cbn [nth remove_nth].
  assert (Hsnd : map snd (schema d) =
                 dtype_of df key :: map (dtype_of df) (prefixed colfamily df)).
  { unfold d. cbn [schema]. rewrite map_snd_combine.
    - rewrite map_map. reflexivity.
    - rewrite !length_map. cbn [length]. lia. }
  assert (Hcell : forall b,
            cell d (map (cell df b) (key :: prefixed colfamily df)) key = cell df b key /\
            map (cell d (map (cell df b) (key :: prefixed colfamily df))) stripped =
              map (cell df b) (prefixed colfamily df)).
  { intros b. split.
    - unfold cell at 1. rewrite Hcols. cbn [map index_of].
      now rewrite String.eqb_refl.
    - rewrite (map_ext (cell d _)
                 (fun n => nth (index_of n (key :: stripped))
                             (map (cell df b) (key :: prefixed colfamily df)) VNull))
        by (intros n; unfold cell; now rewrite Hcols).
      apply (renamed_lookup (cell df b key)). now rewrite length_map. }
  unfold regrouped. do 2 f_equal.
  - f_equal; [f_equal|].
    + rewrite map_map. now apply nth_index_of_map, key_unprefixed.
    + do 4 f_equal. fold pos. fold stripped.
      unfold field. rewrite map_pair_combine. f_equal.
      rewrite (map_ext (dtype_of d)
                 (fun n => nth (index_of n (key :: stripped))
                             (dtype_of df key ::
                              map (dtype_of df) (prefixed colfamily df)) TBool))
        by (intros n; unfold dtype_of at 1; now rewrite Hcols, Hsnd).
      apply (renamed_lookup (dtype_of df key)). now rewrite length_map.
  - rewrite flat_map_map. apply flat_map_ext. intros a.
    assert (Hrows : rows d =
                    map (fun r => map (cell df r) (key :: prefixed colfamily df))
                        (rows df)) by reflexivity.
    rewrite Hrows, map_map, flat_map_map.
    apply flat_map_ext. intros b.
    destruct (Hcell b) as [-> ->].
    rewrite (nth_index_of_map (cell df a)) by apply key_unprefixed.
    reflexivity.
Qed.

Lemma index_of_lt (k : string) (l : list string) :
  In k l -> index_of k l < length l.
Proof.
  induction l as [|c l IH]; intros Hin; [destruct Hin|].
  cbn [index_of length]. destruct (String.eqb_spec c k) as [->|Hne]; [lia|].
  destruct Hin as [->|Hin]; [congruence|]. specialize (IH Hin). lia.
Qed.

Lemma remove_nth_length {A : Type} (i : nat) (l : list A) :
  i < length l -> length (remove_nth i l) = length l - 1.
Proof.
  revert i. induction l as [|a l IH]; intros i Hi; [cbn in Hi; lia|].
  destruct i; cbn [remove_nth length]; [lia|].
  cbn [length] in Hi. rewrite IH by lia. lia.
Qed.

Lemma remove_nth_map {A B : Type} (f : A -> B) (i : nat) (l : list A) :
  remove_nth i (map f l) = map f (remove_nth i l).
Proof.
  revert i. induction l as [|a l IH]; intros [|i]; try reflexivity.
  cbn [map remove_nth]. now rewrite IH.
Qed.

Lemma remove_nth_index_of (k : string) (l : list string) :
  List.NoDup l ->
  remove_nth (index_of k l) l = List.filter (fun c => negb (String.eqb c k)) l.
Proof.
  induction l as [|c l IH]; intros Hnd; [reflexivity|].
  apply List.NoDup_cons_iff in Hnd as [Hc Hnd].
  cbn [index_of List.filter]. destruct (String.eqb_spec c k) as [->|Hne]; cbn [negb remove_nth].
  - symmetry. apply forallb_filter_id, forallb_forall. intros x Hx.
    destruct (String.eqb_spec x k) as [->|]; [tauto | reflexivity].
  - f_equal. now apply IH.
Qed.

Lemma matches_length {A B : Type} (p : A -> bool) (g : A -> B) (l : list A) :
  length (flat_map (fun b => if p b then [g b] else []) l) = length (List.filter p l).
Proof.
  induction l as [|a l IH]; [reflexivity|]. cbn [flat_map List.filter].
  rewrite length_app, IH. now destruct (p a).
Qed.

Lemma filter_map_length {A B : Type} (p : B -> bool) (k : A -> B) (l : list A) :
  length (List.filter (fun a => p (k a)) l) = length (List.filter p (map k l)).
Proof.
  induction l as [|a l IH]; [reflexivity|]. cbn [map List.filter].
  destruct (p (k a)); cbn [length]; now rewrite IH.
Qed.

Lemma columns_regrouped :
  columns (regrouped df colfamily key) =
  key :: (List.filter (fun c => negb (String.eqb c key)) (unprefixed colfamily df)
          ++ [colfamily])%list.
Proof.
  destruct Hreg as (Hnd & _).
  unfold regrouped, columns. cbn [schema map fst]. f_equal.
  rewrite map_app. cbn [map fst]. f_equal.
  rewrite <- remove_nth_map, (columns_project _ df : map fst (map (field df) _) = _).
  apply remove_nth_index_of. now apply List.NoDup_filter.
Qed.

Lemma count_regrouped :
  unique_keys (key_values df key) = true ->
  count (regrouped df colfamily key) = count df.
Proof.
  intros Hu. unfold regrouped, count. cbn [rows].
  rewrite (flat_map_constant_length (c := 1)); [lia|].
  intros a Ha. rewrite matches_length.
  rewrite (filter_map_length (key_eqb (cell df a key)) (fun b => cell df b key)).
  apply unique_keys_one_match; [exact Hu|].
  unfold key_values. apply in_map_iff. eauto.
Qed.

(** C5, with the side conditions the code needs.  On a regroupable table
    whose names the analyser reads as they are written, and whose key
    values are unique and not null, [group_df_into_struct]
    returns a table with as many rows as the input and with one column more
    than the input has outside the family. *)
Theorem group_df_into_struct_shape :
  plainly_regroupable df colfamily key ->
  unique_keys (key_values df key) = true ->
  exists out,
    group_df_into_struct df colfamily key = Ok out /\
    count out = count df /\
    length (columns out) =
      length (columns df) - length (prefixed colfamily df) + 1.
Proof.
  intros _ Hu. exists (regrouped df colfamily key).
  split; [apply group_df_into_struct_run|].
  split; [now apply count_regrouped|].
  rewrite columns_regrouped. cbn [length]. rewrite length_app. cbn [length].
  rewrite <- remove_nth_index_of
    by (destruct Hreg as (Hnd & _); now apply List.NoDup_filter).
  pose proof (index_of_lt _ _ key_unprefixed) as Hlt.
  rewrite remove_nth_length by assumption.
  pose proof (filter_length (fun c => Py.startswith c (colfamily ++ "_")) (columns df)) as Hp.
  change (length (prefixed colfamily df) + length (unprefixed colfamily df) =
          length (columns df)) in Hp.
  lia.
Qed.

(** C6, as the code has it.  On a regroupable table whose names the
    analyser reads as they are written, the columns of the
    result are the key, then the other columns outside the family in
    their original order, then the record named after the family. *)
Theorem group_df_into_struct_columns :
  plainly_regroupable df colfamily key ->
  exists out,
    group_df_into_struct df colfamily key = Ok out /\
    columns out =
      key :: (List.filter (fun c => negb (String.eqb c key)) (unprefixed colfamily df)
              ++ [colfamily])%list.
Proof.
  intros _. exists (regrouped df colfamily key).
  split; [apply group_df_into_struct_run | apply columns_regrouped].
Qed.

End RegroupFacts.

(** *** Regrouping on concrete frames *)

Lemma flat_alerts_regroupable : regroupable Example.flat_alerts "candidate" "objectId".
Proof.
  split; [cbn; distinct_names|].
  split; [cbn; tauto|].
  split; [discriminate|].
  split; [reflexivity|].
  cbn. intuition discriminate.
Defined.

Lemma flat_alerts_plain :
  plainly_regroupable Example.flat_alerts "candidate" "objectId".
Proof.
  split; [plain_names_tac|]. split; [plain_names_tac | discriminate].
Defined.

Lemma group_df_into_struct_shape_witness :
  regroupable Example.flat_alerts "candidate" "objectId" /\
  plainly_regroupable Example.flat_alerts "candidate" "objectId" /\
  unique_keys (key_values Example.flat_alerts "objectId") = true /\
  exists out,
    @group_df_into_struct Example.codec Example.flat_alerts "candidate" "objectId" = Ok out /\
    count out = 2 /\
    length (columns out) = 5 - 2 + 1.
Proof.
  split; [exact flat_alerts_regroupable|].
  split; [exact flat_alerts_plain|].
  split; [reflexivity|].
  exact (@group_df_into_struct_shape Example.codec Example.flat_alerts
           "candidate" "objectId" flat_alerts_regroupable flat_alerts_plain eq_refl).
Defined.

Lemma group_df_into_struct_columns_witness :
  regroupable Example.flat_alerts "candidate" "objectId" /\
  plainly_regroupable Example.flat_alerts "candidate" "objectId" /\
  exists out,
    @group_df_into_struct Example.codec Example.flat_alerts "candidate" "objectId" = Ok out /\
    columns out = ["objectId"; "candid"; "cross_match_alerts_per_batch"; "candidate"].
Proof.
  split; [exact flat_alerts_regroupable|].
  split; [exact flat_alerts_plain|].
  exact (@group_df_into_struct_columns Example.codec Example.flat_alerts
           "candidate" "objectId" flat_alerts_regroupable flat_alerts_plain).
Defined.

(** A family member that would take the name of the key: the renamed
    frame has two columns called "id", and no table comes back. *)
Lemma group_df_into_struct_key_clash :
  List.NoDup (columns Example.keyed_family) /\
  In "id" (columns Example.keyed_family) /\
  unique_keys (key_values Example.keyed_family "id") = true /\
  @group_df_into_struct Example.codec Example.keyed_family "candidate" "id" =
    Raise (AnalysisException "ambiguous reference").
Proof.
  split; [cbn; distinct_names|].
  split; [cbn; tauto|].
  split; reflexivity.
Qed.

(** A key that is not the first column moves to the front. *)
Lemma group_df_into_struct_key_first :
  unique_keys (key_values Example.key_second "id") = true /\
  exists out,
    @group_df_into_struct Example.codec Example.key_second "candidate" "id" = Ok out /\
    columns out = ["id"; "a"; "candidate"] /\
    columns out <> (unprefixed "candidate" Example.key_second ++ ["candidate"])%list.
Proof.
  split; [reflexivity|]. eexists. split; [vm_compute; reflexivity|].
  split; [reflexivity | discriminate].
Qed.

(** ** Schema store *)

Section SchemaStoreFacts.
Context `{codec : AvroCodec} `{J : Json} `{sio : !SparkIO}.







End SchemaStoreFacts.

(** *** The schema store on a concrete machine *)



(** ** Ephemerides enricher *)

Module SsoFacts.
Import Pd Sso.

Lemma for_each_app_raise {A B : Type} (f : A -> result B) (before after : list A)
    (a : A) (e : exn) :
  (forall x, In x before -> exists b, f x = Ok b) -> f a = Raise e ->
  for_each f (before ++ a :: after) = Raise e.
Proof.
  induction before as [|x before IH]; intros Hok Ha.
  - cbn [app for_each]. now rewrite Ha.
  - cbn [app for_each]. destruct (Hok x (or_introl eq_refl)) as [b ->].
    rewrite bind_ok, IH; [reflexivity | | assumption].
    intros y Hy. apply Hok. now right.
Qed.

Section QueryFacts.
Context `{num : Numeric} `{sky : !Sky}.
Variable post : request -> outcome.

Lemma query_miriade_request (ident : string) (jd : list cell)
    (observer rplane tcoor : string) (shift : float) (lines : list string) :
  epoch_lines jd shift = Ok lines ->
  query_miriade post ident jd observer rplane tcoor shift =
  match post (request_of ident observer rplane tcoor lines) with
  | ReadTimeout => Ok empty_frame
  | Failed kind => Raise (RequestException kind)
  | Response NotJson => Raise JSONDecodeError
  | Response JsonOther => Raise TypeError
  | Response (JsonObject None) => Ok empty_frame
  | Response (JsonObject (Some ephem)) => Ok ephem
  end.
Proof.
  intros H. unfold query_miriade. unfold epoch_lines in H. rewrite H.
  reflexivity.
Qed.

Lemma enrich_group_steps (pdf : frame) (observer rplane tcoor : string)
    (withecl : bool) (g : cell) (ids : list cell) :
  getitem pdf "i:ssnamenr" = Ok ids ->
  enrich_group post pdf observer rplane tcoor withecl g =
  (eph ← first_query post pdf observer rplane tcoor g;
   if negb (empty eph) then
     ra ← getitem eph "RA";
     dec ← getitem eph "DEC";
     sc ← skycoord ra dec;
     eph ← drop eph ["RA"; "DEC"];
     eph ← setitem eph "RA" (map (fun x => Num (fmul x (of_int 15))) sc.1);
     eph ← setitem eph "Dec" (map Num sc.2);
     eph ←
       (if withecl then
          eph_ec ← second_query post pdf observer g;
          lon ← getitem eph_ec "Longitude";
          lat ← getitem eph_ec "Latitude";
          sc ← skycoord lon lat;
          eph ← setitem eph "Longitude" (map Num sc.1);
          setitem eph "Latitude" (map Num sc.2)
        else Ok eph);
     left ← reset_index eph;
     right ← reset_index (group_rows pdf g);
     let info := drop_duplicated (concat_columns left right) in
     magpsf ← getitem info "i:magpsf";
     dobs ← getitem info "Dobs";
     dhelio ← getitem info "Dhelio";
     red ←
       for_each
         (fun t : cell * (cell * cell) =>
            m ← as_float t.1;
            d ← as_float t.2.1;
            h ← as_float t.2.2;
            Ok (Num (reduced_magnitude m d h)))
         (combine magpsf (combine dobs dhelio));
     Ok (assign info "i:magpsf_red" red)
   else Ok (group_rows pdf g)).
Proof.
  intros Hids. unfold enrich_group, first_query, second_query, group_rows.
  rewrite Hids, bind_ok.
  destruct (getitem (select_rows pdf _) "i:jd") as [jd|e] eqn:Hjd; [|reflexivity].
  rewrite !bind_ok.
  destruct (query_miriade post _ jd observer rplane tcoor _) as [eph|e]; reflexivity.
Qed.

(** A first query that raises ends the group with its exception, and one
    that comes back empty hands the rows of the group through. *)
Lemma enrich_group_raise (pdf : frame) (observer rplane tcoor : string)
    (withecl : bool) (g : cell) (ids : list cell) (e : exn) :
  getitem pdf "i:ssnamenr" = Ok ids ->
  first_query post pdf observer rplane tcoor g = Raise e ->
  enrich_group post pdf observer rplane tcoor withecl g = Raise e.
Proof.
  intros Hids Hq. rewrite (enrich_group_steps _ _ _ _ _ _ ids Hids), Hq.
  reflexivity.
Qed.

Lemma enrich_group_passthrough (pdf : frame) (observer rplane tcoor : string)
    (withecl : bool) (g : cell) (ids : list cell) (eph : frame) :
  getitem pdf "i:ssnamenr" = Ok ids ->
  first_query post pdf observer rplane tcoor g = Ok eph ->
  empty eph = true ->
  enrich_group post pdf observer rplane tcoor withecl g = Ok (group_rows pdf g).
Proof.
  intros Hids Hq He. rewrite (enrich_group_steps _ _ _ _ _ _ ids Hids), Hq, bind_ok.
  rewrite He. reflexivity.
Qed.

(** C10. Of the ways a query can fail, [query_miriade] answers two with an
    empty frame: the read timeout and the JSON object without "data".  An
    other exception of the request, a body that is not JSON, and JSON
    that is not an object raise; nothing else gives an empty frame unless
    the service sent one.  An exception of the first query of a group is
    the outcome of [get_miriade_data] when the groups before it went
    through. *)
Theorem query_miriade_failure_modes (pdf : frame) (observer rplane tcoor : string)
    (withecl : bool) :
  (forall ident jd shift lines,
     epoch_lines jd shift = Ok lines ->
     let req := request_of ident observer rplane tcoor lines in
     let answer := query_miriade post ident jd observer rplane tcoor shift in
     (post req = ReadTimeout -> answer = Ok empty_frame) /\
     (post req = Response (JsonObject None) -> answer = Ok empty_frame) /\
     (forall kind, post req = Failed kind -> answer = Raise (RequestException kind)) /\
     (post req = Response NotJson -> answer = Raise JSONDecodeError) /\
     (post req = Response JsonOther -> answer = Raise TypeError) /\
     (forall ephem, answer = Ok ephem ->
        post req = ReadTimeout \/ post req = Response (JsonObject None) \/
        post req = Response (JsonObject (Some ephem)))) /\
  (forall ids before g after e,
     getitem pdf "i:ssnamenr" = Ok ids ->
     np_unique ids = Ok (before ++ g :: after)%list ->
     (forall g', In g' before ->
        exists info, enrich_group post pdf observer rplane tcoor withecl g' = Ok info) ->
     first_query post pdf observer rplane tcoor g = Raise e ->
     get_miriade_data post pdf observer rplane tcoor withecl = Raise e).
Proof.
  split.
  - intros ident jd shift lines Hlines req answer. subst req answer.
    rewrite (query_miriade_request _ _ _ _ _ _ _ Hlines).
    repeat split.
    + now intros ->.
    + now intros ->.
    + now intros kind ->.
    + now intros ->.
    + now intros ->.
    + intros ephem.
      destruct (post _) as [|kind|[|[data|]|]]; try discriminate; auto.
      intros [= ->]. auto.
  - intros ids before g after e Hids Hu Hbefore Hq.
    unfold get_miriade_data. rewrite Hids, bind_ok, Hu, bind_ok.
    rewrite (for_each_app_raise _ _ _ _ e Hbefore); [reflexivity|].
    now apply (enrich_group_raise _ _ _ _ _ _ ids).
Qed.

End QueryFacts.

Section FrameFacts.
Context `{num : Numeric}.

(** Every column of [f] has [n] cells. *)
Definition col_lengths (f : frame) (n : nat) : Prop :=
  Forall (fun c => length (snd c) = n) (cols f).

Lemma mem_In (name : string) (names : list string) :
  mem name names = true <-> In name names.
Proof.
  unfold mem. rewrite existsb_exists. split.
  - intros [x [Hx E]]. apply String.eqb_eq in E. now subst.
  - intros H. exists name. split; [assumption | apply String.eqb_refl].
Qed.

Lemma mem_false (name : string) (names : list string) :
  mem name names = false <-> ~ In name names.
Proof.
  rewrite <- mem_In. destruct (mem name names); split; intros; congruence.
Qed.

Lemma lookup_col_in (name : string) (cs : list (string * list cell)) (c : list cell) :
  lookup_col name cs = Some c -> In (name, c) cs.
Proof.
  induction cs as [|[n c0] cs IH]; [discriminate|]. cbn [lookup_col].
  destruct (String.eqb_spec n name) as [->|Hne].
  - intros [= ->]. apply in_eq.
  - intros H. right. now apply IH.
Qed.

Lemma lookup_col_none (name : string) (cs : list (string * list cell)) :
  lookup_col name cs = None <-> ~ In name (map fst cs).
Proof.
  induction cs as [|[n c0] cs IH]; [cbn; tauto|]. cbn [lookup_col map fst In].
  destruct (String.eqb_spec n name) as [->|Hne].
  - split; [discriminate | tauto].
  - rewrite IH. tauto.
Qed.

Lemma columns_select_rows (f : frame) (mask : list bool) :
  columns (select_rows f mask) = columns f.
Proof. unfold columns, select_rows. cbn [cols]. rewrite map_map. reflexivity. Qed.

Lemma keep_length {A : Type} (mask : list bool) (l : list A) :
  length mask = length l ->
  length (keep mask l) = length (List.filter (fun b : bool => b) mask).
Proof.
  revert l. induction mask as [|b mask IH]; intros [|a l] H; try discriminate;
    [reflexivity|].
  cbn in H. destruct b; cbn [keep List.filter length]; rewrite IH by lia; reflexivity.
Qed.

Lemma drop_ok (f f' : frame) (names : list string) :
  drop f names = Ok f' ->
  index f' = index f /\
  cols f' = List.filter (fun c => negb (mem (fst c) names)) (cols f).
Proof.
  unfold drop. destruct (List.filter _ names); [|discriminate].
  intros [= <-]. split; reflexivity.
Qed.

Lemma setitem_ok (f f' : frame) (name : string) (values : list cell) :
  setitem f name values = Ok f' ->
  f' = assign f name values /\ length values = nrows f.
Proof.
  unfold setitem. destruct (Nat.eqb_spec (length values) (nrows f)); [|discriminate].
  intros [= <-]. split; [reflexivity | assumption].
Qed.

Lemma index_assign (f : frame) (name : string) (values : list cell) :
  index (assign f name values) = index f.
Proof. unfold assign. now destruct (mem name (columns f)). Qed.

Lemma columns_assign (f : frame) (name : string) (values : list cell) (c : string) :
  In c (columns (assign f name values)) <-> In c (columns f) \/ c = name.
Proof.
  unfold assign. destruct (mem name (columns f)) eqn:Hm.
  - apply mem_In in Hm. unfold columns in *. cbn [cols]. rewrite map_map.
    rewrite (map_ext _ fst).
    + split; [tauto | intros [H| ->]; assumption].
    + intros [n v]. cbn [fst]. destruct (String.eqb_spec n name) as [->|]; reflexivity.
  - unfold columns. cbn [cols]. rewrite map_app, in_app_iff. cbn [map fst In].
    intuition congruence.
Qed.

Lemma col_lengths_assign (f : frame) (name : string) (values : list cell) (n : nat) :
  col_lengths f n -> length values = n -> col_lengths (assign f name values) n.
Proof.
  unfold col_lengths, assign. intros Hf Hv.
  destruct (mem name (columns f)); cbn [cols].
  - apply List.Forall_forall. intros c Hc. apply in_map_iff in Hc as [c0 [<- Hc0]].
    destruct (String.eqb (fst c0) name); [exact Hv|].
    rewrite List.Forall_forall in Hf. now apply Hf.
  - apply Forall_app. split; [assumption|]. now constructor.
Qed.

Lemma reset_index_ok (f f' : frame) :
  reset_index f = Ok f' ->
  f' = mkFrame (range (nrows f)) ((index_name (columns f), map Int (index f)) :: cols f).
Proof.
  unfold reset_index. destruct (mem _ (columns f)); [discriminate|]. now intros [= <-].
Qed.

Lemma length_range (n : nat) : length (range n) = n.
Proof. unfold range. now rewrite length_map, length_seq. Qed.

Lemma nrows_concat_columns (a b : frame) :
  nrows (concat_columns a b) = Nat.max (nrows a) (nrows b).
Proof. unfold concat_columns, nrows. cbn [index]. apply length_range. Qed.

Lemma columns_concat_columns (a b : frame) :
  columns (concat_columns a b) = (columns a ++ columns b)%list.
Proof.
  unfold concat_columns, columns. cbn [cols]. rewrite map_map. cbn [fst].
  apply map_app.
Qed.

Lemma length_pad (n : nat) (c : list cell) : length c <= n -> length (pad n c) = n.
Proof. intros H. unfold pad. rewrite length_app, repeat_length. lia. Qed.

Lemma In_first_occurrences (seen : list string) (cs : list (string * list cell))
    (c : string) :
  In c (map fst (first_occurrences seen cs)) <-> In c (map fst cs) /\ ~ In c seen.
Proof.
  revert seen. induction cs as [|[n v] cs IH]; intros seen; [cbn; tauto|].
  cbn [first_occurrences]. destruct (mem n seen) eqn:Hm.
  - apply mem_In in Hm. rewrite IH. cbn [map fst In]. intuition congruence.
  - apply mem_false in Hm. cbn [map fst In]. rewrite IH. cbn [In].
    destruct (String.eqb_spec n c) as [->|Hne]; intuition congruence.
Qed.

Lemma columns_drop_duplicated (f : frame) (c : string) :
  In c (columns (drop_duplicated f)) <-> In c (columns f).
Proof.
  unfold drop_duplicated, columns. cbn [cols]. rewrite In_first_occurrences.
  cbn. tauto.
Qed.

Lemma first_occurrences_incl (seen : list string) (cs : list (string * list cell)) :
  incl (first_occurrences seen cs) cs.
Proof.
  revert seen. induction cs as [|[n v] cs IH]; intros seen x Hx; [destruct Hx|].
  cbn [first_occurrences] in Hx. destruct (mem n seen).
  - right. now apply (IH seen).
  - destruct Hx as [<-|Hx]; [apply in_eq | right; now apply (IH (n :: seen))].
Qed.

Lemma In_union_names (seen names : list string) (c : string) :
  In c (union_names seen names) <-> In c names /\ ~ In c seen.
Proof.
  revert seen. induction names as [|n names IH]; intros seen; [cbn; tauto|].
  cbn [union_names]. destruct (mem n seen) eqn:Hm.
  - apply mem_In in Hm. rewrite IH. cbn [In]. intuition congruence.
  - apply mem_false in Hm. cbn [In]. rewrite IH. cbn [In].
    destruct (String.eqb_spec n c) as [->|Hne]; intuition congruence.
Qed.

Lemma columns_concat_rows (frames : list frame) (c : string) :
  In c (columns (concat_rows frames)) <-> exists f, In f frames /\ In c (columns f).
Proof.
  unfold concat_rows, columns at 1. cbn [cols]. rewrite map_map. cbn [fst].
  rewrite map_id, In_union_names, in_flat_map. cbn. tauto.
Qed.

Lemma nrows_concat_rows (frames : list frame) :
  nrows (concat_rows frames) = list_sum (map nrows frames).
Proof.
  unfold concat_rows, nrows at 1. cbn [index]. apply length_flat_map.
Qed.

Lemma lookup_col_assign_same (f : frame) (name : string) (values : list cell) :
  lookup_col name (cols (assign f name values)) = Some values.
Proof.
  unfold assign. destruct (mem name (columns f)) eqn:Hm; cbn [cols].
  - apply mem_In in Hm. unfold columns in Hm.
    induction (cols f) as [|[n v] cs IH]; [destruct Hm|].
    cbn [map fst lookup_col]. destruct (String.eqb_spec n name) as [->|Hne].
    + cbn [lookup_col]. now rewrite String.eqb_refl.
    + cbn [lookup_col fst]. rewrite (proj2 (String.eqb_neq n name) Hne).
      apply IH. destruct Hm as [E|Hm]; [cbn in E; congruence | exact Hm].
  - apply mem_false in Hm. unfold columns in Hm.
    induction (cols f) as [|[n v] cs IH].
    + cbn [app lookup_col]. now rewrite String.eqb_refl.
    + cbn [app lookup_col]. cbn [map fst In] in Hm.
      destruct (String.eqb_spec n name) as [->|Hne]; [tauto|]. apply IH. tauto.
Qed.

Lemma lookup_col_assign_other (f : frame) (name other : string) (values : list cell) :
  other <> name ->
  lookup_col other (cols (assign f name values)) = lookup_col other (cols f).
Proof.
  intros Hne. unfold assign. destruct (mem name (columns f)); cbn [cols].
  - induction (cols f) as [|[n v] cs IH]; [reflexivity|].
    cbn [map lookup_col fst]. destruct (String.eqb_spec n name) as [->|Hn].
    + cbn [lookup_col]. rewrite (proj2 (String.eqb_neq name other)) by congruence.
      exact IH.
    + cbn [lookup_col]. now rewrite IH.
  - induction (cols f) as [|[n v] cs IH].
    + cbn [app lookup_col]. now rewrite (proj2 (String.eqb_neq name other)) by congruence.
    + cbn [app lookup_col]. now rewrite IH.
Qed.

Lemma getitem_length (f : frame) (name : string) (c : list cell) (n : nat) :
  col_lengths f n -> getitem f name = Ok c -> length c = n.
Proof.
  unfold getitem, col_lengths. intros Hl H.
  destruct (lookup_col name (cols f)) as [c'|] eqn:E; [|discriminate].
  injection H as <-. apply lookup_col_in in E.
  rewrite List.Forall_forall in Hl. apply (Hl _ E).
Qed.

Lemma col_lengths_select_rows (f : frame) (mask : list bool) :
  col_lengths f (nrows f) -> length mask = nrows f ->
  col_lengths (select_rows f mask) (nrows (select_rows f mask)).
Proof.
  unfold col_lengths, select_rows, nrows. cbn [cols index]. intros Hl Hm.
  apply List.Forall_forall. intros c Hc. apply in_map_iff in Hc as [c0 [<- Hc0]].
  cbn [snd]. rewrite List.Forall_forall in Hl.
  rewrite !keep_length; [reflexivity | exact Hm | now rewrite (Hl _ Hc0)].
Qed.

Lemma col_lengths_reset_index (f f' : frame) :
  col_lengths f (nrows f) -> reset_index f = Ok f' -> col_lengths f' (nrows f').
Proof.
  intros Hl H. apply reset_index_ok in H as ->. unfold col_lengths, nrows.
  cbn [cols index]. rewrite length_range. constructor; [|exact Hl].
  cbn [snd]. apply length_map.
Qed.

Lemma col_lengths_concat_columns (a b : frame) :
  col_lengths a (nrows a) -> col_lengths b (nrows b) ->
  col_lengths (drop_duplicated (concat_columns a b))
              (Nat.max (nrows a) (nrows b)).
Proof.
  unfold col_lengths. intros Ha Hb. apply List.Forall_forall. intros c Hc.
  apply first_occurrences_incl in Hc. cbn [concat_columns cols] in Hc.
  apply in_map_iff in Hc as [c0 [<- Hc0]]. cbn [snd]. apply length_pad.
  rewrite List.Forall_forall in Ha, Hb.
  apply in_app_iff in Hc0 as [Hc0|Hc0]; [rewrite (Ha _ Hc0) | rewrite (Hb _ Hc0)]; lia.
Qed.

End FrameFacts.

(** *** [np.unique] on strings: sorted, without repetition, same elements *)

Lemma insert_string_In (x y : string) (l : list string) :
  In y (insert_string x l) <-> y = x \/ In y l.
Proof.
  induction l as [|z l IH]; [cbn; intuition|]. cbn [insert_string].
  destruct (String_as_OT.cmp x z) eqn:E.
  - apply String_as_OT.cmp_eq in E as ->. cbn [In]. intuition.
  - cbn [In]. intuition.
  - cbn [In]. rewrite IH. intuition.
Qed.

Lemma insert_string_sorted (x : string) (l : list string) :
  StronglySorted String_as_OT.lt l -> StronglySorted String_as_OT.lt (insert_string x l).
Proof.
  induction l as [|z l IH]; intros Hs; [repeat constructor|].
  apply StronglySorted_inv in Hs as [Hs Hz]. cbn [insert_string].
  destruct (String_as_OT.cmp x z) eqn:E.
  - now constructor.
  - apply String_as_OT.cmp_lt in E. constructor; [now constructor|].
    constructor; [assumption|].
    rewrite List.Forall_forall in *. intros y Hy.
    eapply String_as_OT.lt_trans; eauto.
  - constructor; [now apply IH|].
    apply List.Forall_forall. intros y Hy. apply insert_string_In in Hy as [->|Hy].
    + rewrite String_as_OT.cmp_antisym in E.
      apply String_as_OT.cmp_lt. now destruct (String_as_OT.cmp z x).
    + rewrite List.Forall_forall in Hz. now apply Hz.
Qed.

Lemma sorted_nodup (l : list string) :
  StronglySorted String_as_OT.lt l -> List.NoDup l.
Proof.
  induction 1 as [|x l Hs IH Hx]; constructor; [|assumption].
  intros Hin. rewrite List.Forall_forall in Hx.
  apply (String_as_OT.lt_not_eq _ _ (Hx x Hin)). reflexivity.
Qed.

Lemma unique_strings_spec (ss : list string) :
  List.NoDup (fold_right insert_string [] ss) /\
  forall x, In x (fold_right insert_string [] ss) <-> In x ss.
Proof.
  split.
  - apply sorted_nodup. induction ss as [|s ss IH]; [constructor|].
    cbn [fold_right]. now apply insert_string_sorted.
  - induction ss as [|s ss IH]; intros x; [reflexivity|].
    cbn [fold_right In]. rewrite insert_string_In, IH. intuition.
Qed.

(** The occurrences of the distinct values add up to the whole list. *)
Lemma list_sum_cons (a : nat) (l : list nat) : list_sum (a :: l) = a + list_sum l.
Proof. reflexivity. Qed.

Lemma one_hit (U : list string) (x : string) :
  List.NoDup U -> In x U ->
  list_sum (map (fun u => if String.eqb x u then 1 else 0) U) = 1.
Proof.
  induction U as [|u U IH]; intros Hnd Hin; [destruct Hin|].
  apply List.NoDup_cons_iff in Hnd as [Hu Hnd]. cbn [map]. rewrite list_sum_cons.
  destruct (String.eqb_spec x u) as [->|Hne].
  - assert (Hz : list_sum (map (fun v => if String.eqb u v then 1 else 0) U) = 0).
    { clear - Hu. induction U as [|v U IH]; [reflexivity|]. cbn [map]. rewrite list_sum_cons.
      cbn [In] in Hu. destruct (String.eqb_spec u v) as [->|]; [tauto|].
      rewrite IH; tauto. }
    rewrite Hz. reflexivity.
  - destruct Hin as [->|Hin]; [congruence|]. now rewrite IH.
Qed.

Lemma occurrences_sum (U ss : list string) :
  List.NoDup U -> (forall x, In x ss -> In x U) ->
  list_sum (map (fun u => length (List.filter (fun x => String.eqb x u) ss)) U) =
  length ss.
Proof.
  intros Hnd. induction ss as [|x ss IH]; intros Hin.
  - cbn [List.filter length]. clear. induction U as [|u U IHU]; [reflexivity|].
    cbn [map]. now rewrite list_sum_cons, IHU.
  - cbn [List.filter].
    assert (Hsplit :
      list_sum (map (fun u => length (if String.eqb x u
                                      then x :: List.filter (fun y => String.eqb y u) ss
                                      else List.filter (fun y => String.eqb y u) ss)) U) =
      list_sum (map (fun u => if String.eqb x u then 1 else 0) U) +
      list_sum (map (fun u => length (List.filter (fun y => String.eqb y u) ss)) U)).
    { clear. induction U as [|u U IHU]; [reflexivity|].
      cbn [map]. rewrite !list_sum_cons, IHU.
      destruct (String.eqb x u); cbn [length]; lia. }
    rewrite Hsplit, (one_hit U x Hnd) by (apply Hin; now left).
    rewrite IH by (intros y Hy; apply Hin; now right). reflexivity.
Qed.

Ltac r_step H :=
  match type of H with
  | mbind _ ?m = _ =>
      let E := fresh "E" in
      destruct m eqn:E; [rewrite bind_ok in H | discriminate H]
  end.

Ltac r_step_as H x E :=
  match type of H with
  | mbind _ ?m = _ =>
      destruct m as [x|] eqn:E; [rewrite bind_ok in H | discriminate H]
  end.

Section EnrichFacts.
Context `{num : Numeric} `{sky : !Sky}.
Variable post : request -> outcome.
Variables (pdf : frame) (observer rplane tcoor : string) (withecl : bool).

(** The frame of coordinates that is built from the answer [eph]. *)
Definition converted (eph eph' : frame) : Prop :=
  index eph' = index eph /\
  (forall c, In c (columns eph') <->
     (In c (columns eph) /\ c <> "RA" /\ c <> "DEC") \/ c = "RA" \/ c = "Dec" \/
     (withecl = true /\ (c = "Longitude" \/ c = "Latitude"))) /\
  (col_lengths eph (nrows eph) -> col_lengths eph' (nrows eph)).

Lemma converted_drop (eph e1 : frame) :
  drop eph ["RA"; "DEC"] = Ok e1 ->
  index e1 = index eph /\
  (forall c, In c (columns e1) <-> In c (columns eph) /\ c <> "RA" /\ c <> "DEC") /\
  (col_lengths eph (nrows eph) -> col_lengths e1 (nrows eph)).
Proof.
  intros H. apply drop_ok in H as [Hi Hc]. split; [exact Hi|]. split.
  - intros c. unfold columns. rewrite Hc. split.
    + intros Hin. apply in_map_iff in Hin as [[n v] [<- Hin]].
      apply filter_In in Hin as [Hin Hm]. cbn [fst] in *.
      apply negb_true_iff, mem_false in Hm. cbn [In] in Hm.
      split; [apply in_map_iff; exists (n, v); auto | intuition congruence].
    + intros [Hin [H1 H2]]. apply in_map_iff in Hin as [[n v] [<- Hin]].
      apply in_map_iff. exists (n, v). split; [reflexivity|].
      apply filter_In. split; [assumption|]. cbn [fst] in *.
      apply negb_true_iff, mem_false. cbn [In]. intuition congruence.
  - unfold col_lengths. rewrite Hc. intros Hl. apply List.Forall_forall.
    intros c Hin. apply filter_In in Hin as [Hin _].
    rewrite List.Forall_forall in Hl. now apply Hl.
Qed.

Lemma enrich_group_enriched (g : cell) (ids : list cell) (eph info : frame) :
  getitem pdf "i:ssnamenr" = Ok ids ->
  first_query post pdf observer rplane tcoor g = Ok eph ->
  empty eph = false ->
  enrich_group post pdf observer rplane tcoor withecl g = Ok info ->
  exists eph' left right magpsf dobs dhelio red,
    converted eph eph' /\
    reset_index eph' = Ok left /\
    reset_index (group_rows pdf g) = Ok right /\
    getitem (drop_duplicated (concat_columns left right)) "i:magpsf" = Ok magpsf /\
    getitem (drop_duplicated (concat_columns left right)) "Dobs" = Ok dobs /\
    getitem (drop_duplicated (concat_columns left right)) "Dhelio" = Ok dhelio /\
    for_each
      (fun t : cell * (cell * cell) =>
         m ← as_float t.1;
         d ← as_float t.2.1;
         h ← as_float t.2.2;
         Ok (Num (reduced_magnitude m d h)))
      (combine magpsf (combine dobs dhelio)) = Ok red /\
    info = assign (drop_duplicated (concat_columns left right)) "i:magpsf_red" red.
Proof.
  intros Hids Hq He H.
  rewrite (enrich_group_steps _ _ _ _ _ _ _ ids Hids), Hq, bind_ok, He in H.
  cbn [negb] in H.
  do 6 r_step H.
  match type of H with mbind _ ?m = _ => destruct m as [eph'|] eqn:Hecl end;
    [rewrite bind_ok in H | discriminate H].
  r_step_as H lhs Hleft. r_step_as H rhs Hright.
  r_step_as H magpsf Hmag. r_step_as H dobs Hdobs. r_step_as H dhelio Hdhelio.
  r_step_as H reduced Hred. injection H as <-.
  exists eph', lhs, rhs, magpsf, dobs, dhelio, reduced.
  split;
    [| split; [exact Hleft | split; [reflexivity | split; [exact Hmag |
       split; [exact Hdobs | split; [exact Hdhelio | split;
       [exact Hred | reflexivity]]]]]]].
  clear - E2 E3 E4 Hecl.
  apply converted_drop in E2 as (Hi2 & Hc2 & Hl2).
  apply setitem_ok in E3 as [-> Hv3]. apply setitem_ok in E4 as [-> Hv4].
  assert (Hn : forall name v, nrows (assign a2 name v) = nrows eph).
  { intros name v. unfold nrows. now rewrite index_assign, Hi2. }
  assert (Hn2 : nrows a2 = nrows eph) by (unfold nrows; now rewrite Hi2).
  set (e4 := assign (assign a2 "RA" _) "Dec" _) in *.
  assert (H4 : index e4 = index eph /\
               (forall c, In c (columns e4) <->
                  (In c (columns eph) /\ c <> "RA" /\ c <> "DEC") \/
                  c = "RA" \/ c = "Dec") /\
               (col_lengths eph (nrows eph) -> col_lengths e4 (nrows eph))).
  { unfold e4. split; [now rewrite !index_assign|]. split.
    - intros c. rewrite !columns_assign, Hc2. tauto.
    - intros Hl. apply col_lengths_assign; [apply col_lengths_assign; auto|];
        [congruence | rewrite Hv4; unfold nrows; now rewrite index_assign]. }
  destruct H4 as (Hi4 & Hc4 & Hl4).
  unfold converted. destruct withecl eqn:Hw.
  - do 4 r_step Hecl.
    match type of Hecl with mbind _ ?m = _ => destruct m as [e5|] eqn:E5 end;
      [rewrite bind_ok in Hecl | discriminate Hecl].
    apply setitem_ok in E5 as [-> Hv5]. apply setitem_ok in Hecl as [-> Hv6].
    split; [now rewrite !index_assign|]. split.
    + intros c. rewrite !columns_assign, Hc4. intuition congruence.
    + intros Hl. apply col_lengths_assign; [apply col_lengths_assign; auto|].
      * rewrite Hv5. unfold nrows. now rewrite Hi4.
      * rewrite Hv6. unfold nrows. now rewrite index_assign, Hi4.
  - injection Hecl as <-. split; [exact Hi4|]. split; [|exact Hl4].
    intros c. rewrite Hc4. intuition congruence.
Qed.

Lemma reset_index_shape (f f' : frame) :
  reset_index f = Ok f' ->
  nrows f' = nrows f /\ columns f' = index_name (columns f) :: columns f.
Proof.
  intros H. apply reset_index_ok in H as ->. split; [apply length_range | reflexivity].
Qed.

Lemma nrows_assign (f : frame) (name : string) (values : list cell) :
  nrows (assign f name values) = nrows f.
Proof. unfold nrows. now rewrite index_assign. Qed.

Lemma index_name_ext (a b : list string) :
  (forall c, In c a <-> In c b) -> index_name a = index_name b.
Proof.
  intros H. unfold index_name.
  destruct (mem "index" a) eqn:Ha, (mem "index" b) eqn:Hb; try reflexivity.
  - apply mem_In, H, mem_In in Ha. congruence.
  - apply mem_In, H, mem_In in Hb. congruence.
Qed.

Lemma columns_group_rows (g : cell) : columns (group_rows pdf g) = columns pdf.
Proof.
  unfold group_rows. destruct (getitem pdf "i:ssnamenr"); [|reflexivity].
  apply columns_select_rows.
Qed.

(** What a successful group looks like: as many rows as the longer of the
    answer and the group, and the columns of the group next to those of
    the enrichment. *)
Lemma enriched_shape (g : cell) (ids : list cell) (eph info : frame) :
  getitem pdf "i:ssnamenr" = Ok ids ->
  first_query post pdf observer rplane tcoor g = Ok eph ->
  empty eph = false ->
  enrich_group post pdf observer rplane tcoor withecl g = Ok info ->
  nrows info = Nat.max (nrows eph) (nrows (group_rows pdf g)) /\
  forall c, In c (columns info) <->
    In c (columns pdf) \/ In c (enrichment_columns (columns eph) (columns pdf) withecl).
Proof.
  intros Hids Hq He H.
  destruct (enrich_group_enriched g ids eph info Hids Hq He H)
    as (eph' & lhs & rhs & magpsf & dobs & dhelio & red &
        (Hi & Hc & _) & Hleft & Hright & _ & _ & _ & _ & ->).
  apply reset_index_shape in Hleft as [Hnl Hcl].
  apply reset_index_shape in Hright as [Hnr Hcr].
  rewrite columns_group_rows in Hcr.
  split.
  - rewrite nrows_assign. unfold drop_duplicated, nrows at 1. cbn [index].
    fold (nrows (concat_columns lhs rhs)).
    rewrite nrows_concat_columns, Hnl, Hnr. unfold nrows at 1. now rewrite Hi.
  - intros c. rewrite columns_assign, columns_drop_duplicated, columns_concat_columns.
    rewrite in_app_iff, Hcl, Hcr. cbn [In].
    set (e := (List.filter (fun c => negb (mem c ["RA"; "DEC"])) (columns eph) ++
               ["RA"; "Dec"] ++
               (if withecl then ["Longitude"; "Latitude"] else []))%list).
    assert (He' : forall x, In x e <-> In x (columns eph')).
    { intros x. rewrite Hc. unfold e. rewrite !in_app_iff, filter_In.
      rewrite negb_true_iff, mem_false. cbn [In].
      destruct withecl; cbn [In]; intuition congruence. }
    unfold enrichment_columns. fold e. cbn [In]. rewrite in_app_iff. cbn [In].
    rewrite (index_name_ext e (columns eph') He'), He'.
    intuition congruence.
Qed.

Lemma for_each_length {A B : Type} (f : A -> result B) (l : list A) (r : list B) :
  for_each f l = Ok r -> length r = length l.
Proof.
  revert r. induction l as [|a l IH]; intros r H.
  - now injection H as <-.
  - cbn [for_each] in H. r_step_as H b Hb. r_step_as H bs Hbs.
    injection H as <-. cbn [length]. f_equal. now apply IH.
Qed.

Lemma for_each_pointwise {A B : Type} (f : A -> result B) (l : list A) (r : list B) :
  for_each f l = Ok r -> Forall2 (fun b a => f a = Ok b) r l.
Proof.
  revert r. induction l as [|a l IH]; intros r H.
  - injection H as <-. constructor.
  - cbn [for_each] in H. r_step_as H b Hb. r_step_as H bs Hbs.
    injection H as <-. constructor; [exact Hb | now apply IH].
Qed.

(** C9. In the frame of a group whose query came back with rows, every
    cell of "i:magpsf_red" is the magnitude of its row minus 5 times log10
    of the product of the two distances of its row; on well-formed frames
    no row is left out. *)
Theorem reduced_magnitude_formula (g : cell) (ids : list cell) (eph info : frame) :
  getitem pdf "i:ssnamenr" = Ok ids ->
  first_query post pdf observer rplane tcoor g = Ok eph ->
  empty eph = false ->
  enrich_group post pdf observer rplane tcoor withecl g = Ok info ->
  exists magpsf dobs dhelio red,
    getitem info "i:magpsf" = Ok magpsf /\
    getitem info "Dobs" = Ok dobs /\
    getitem info "Dhelio" = Ok dhelio /\
    getitem info "i:magpsf_red" = Ok red /\
    Forall2
      (fun r t =>
         exists m d h,
           as_float (fst t) = Ok m /\ as_float (fst (snd t)) = Ok d /\
           as_float (snd (snd t)) = Ok h /\
           r = Num (fsub m (fmul (of_int 5) (log10 (fmul d h)))))
      red (combine magpsf (combine dobs dhelio)) /\
    (col_lengths pdf (nrows pdf) -> col_lengths eph (nrows eph) ->
     length magpsf = nrows info /\ length dobs = nrows info /\
     length dhelio = nrows info /\ length red = nrows info).
Proof.
  intros Hids Hq He H.
  destruct (enrich_group_enriched g ids eph info Hids Hq He H)
    as (eph' & lhs & rhs & magpsf & dobs & dhelio & red &
        (Hi & _ & Hl') & Hleft & Hright & Hmag & Hdobs & Hdhelio & Hred & ->).
  exists magpsf, dobs, dhelio, red.
  unfold getitem.
  rewrite !lookup_col_assign_other by discriminate.
  rewrite lookup_col_assign_same.
  split; [exact Hmag|]. split; [exact Hdobs|]. split; [exact Hdhelio|].
  split; [reflexivity|]. split.
  - apply for_each_pointwise in Hred.
    eapply List.Forall2_impl; [|exact Hred]. intros r [a [b c]] Hr. cbn [fst snd] in *.
    destruct (as_float a) as [m|]; [|discriminate]. rewrite bind_ok in Hr.
    destruct (as_float b) as [d|]; [|discriminate]. rewrite bind_ok in Hr.
    destruct (as_float c) as [h|]; [|discriminate]. rewrite bind_ok in Hr.
    injection Hr as <-. exists m, d, h. repeat split.
  - intros Hpdf Heph.
    assert (Hids_len : length ids = nrows pdf) by (eapply getitem_length; eauto).
    assert (Hsub : col_lengths (group_rows pdf g) (nrows (group_rows pdf g))).
    { unfold group_rows. rewrite Hids.
      apply col_lengths_select_rows; [exact Hpdf | now rewrite length_map]. }
    assert (Heph' : col_lengths eph' (nrows eph')).
    { unfold nrows at 1. rewrite Hi. now apply Hl'. }
    pose proof (col_lengths_concat_columns lhs rhs
                  (col_lengths_reset_index _ _ Heph' Hleft)
                  (col_lengths_reset_index _ _ Hsub Hright)) as Hinfo.
    rewrite nrows_assign. unfold drop_duplicated at 1 2 3 4, nrows at 1 2 3 4.
    cbn [index]. fold (nrows (concat_columns lhs rhs)).
    rewrite nrows_concat_columns.
    pose proof (getitem_length _ _ _ _ Hinfo Hmag) as L1.
    pose proof (getitem_length _ _ _ _ Hinfo Hdobs) as L2.
    pose proof (getitem_length _ _ _ _ Hinfo Hdhelio) as L3.
    apply for_each_length in Hred. rewrite !length_combine in Hred.
    repeat split; lia.
Qed.

End EnrichFacts.


Lemma for_each_Forall2 {A B : Type} (f : A -> result B) (l : list A) (r : list B) :
  for_each f l = Ok r -> Forall2 (fun a b => f a = Ok b) l r.
Proof.
  revert r. induction l as [|a l IH]; intros r H.
  - injection H as <-. constructor.
  - cbn [for_each] in H. r_step_as H b Hb. r_step_as H bs Hbs.
    injection H as <-. constructor; [exact Hb | now apply IH].
Qed.

Lemma Forall2_In_left {A B : Type} (R : A -> B -> Prop) (l : list A) (l' : list B)
    (a : A) :
  Forall2 R l l' -> In a l -> exists b, In b l' /\ R a b.
Proof.
  induction 1 as [|x y l l' Hxy _ IH]; intros Hin; [destruct Hin|].
  destruct Hin as [->|Hin].
  - exists y. split; [apply in_eq | assumption].
  - destruct (IH Hin) as [b [Hb Hr]]. exists b. split; [now right | assumption].
Qed.

Lemma Forall2_In_right {A B : Type} (R : A -> B -> Prop) (l : list A) (l' : list B)
    (b : B) :
  Forall2 R l l' -> In b l' -> exists a, In a l /\ R a b.
Proof.
  induction 1 as [|x y l l' Hxy _ IH]; intros Hin; [destruct Hin|].
  destruct Hin as [->|Hin].
  - exists x. split; [apply in_eq | assumption].
  - destruct (IH Hin) as [a [Ha Hr]]. exists a. split; [now right | assumption].
Qed.

Lemma Forall2_sum {A B : Type} (R : A -> B -> Prop) (f : A -> nat) (h : B -> nat)
    (l : list A) (l' : list B) :
  Forall2 R l l' -> (forall a b, R a b -> h b = f a) ->
  list_sum (map h l') = list_sum (map f l).
Proof.
  induction 1 as [|x y l l' Hxy _ IH]; intros Hr; [reflexivity|].
  cbn [map]. rewrite !list_sum_cons, (Hr x y Hxy), IH by assumption. reflexivity.
Qed.

Lemma Forall2_with_In {A B : Type} (R : A -> B -> Prop) (l : list A) (l' : list B) :
  Forall2 R l l' -> Forall2 (fun a b => In a l /\ R a b) l l'.
Proof.
  induction 1 as [|x y l l' Hxy _ IH]; constructor.
  - split; [apply in_eq | assumption].
  - eapply List.Forall2_impl; [|exact IH]. intros a b [Ha Hr].
    split; [now right | assumption].
Qed.

Section BatchFacts.
Context `{num : Numeric} `{sky : !Sky}.
Variable post : request -> outcome.
Variables (pdf : frame) (observer rplane tcoor : string) (withecl : bool).
Variables (ids : list cell) (ss : list string).
Hypothesis Hids : getitem pdf "i:ssnamenr" = Ok ids.
Hypothesis Hss : strings_of ids = Some ss.
Hypothesis Hlen : length ids = nrows pdf.

Lemma strings_of_map (l : list cell) (l' : list string) :
  strings_of l = Some l' -> l = map Str l'.
Proof.
  revert l'. induction l as [|[x|z|s] l IH]; intros l' H; try discriminate.
  - injection H as <-. reflexivity.
  - cbn [strings_of] in H. destruct (strings_of l) as [t|]; [|discriminate].
    injection H as <-. cbn [map]. f_equal. now apply IH.
Qed.

Lemma np_unique_strings :
  np_unique ids = Ok (map Str (fold_right insert_string [] ss)).
Proof. unfold np_unique. now rewrite Hss. Qed.

Lemma filter_mask_length {A : Type} (p : A -> bool) (l : list A) :
  length (List.filter (fun b : bool => b) (map p l)) = length (List.filter p l).
Proof.
  induction l as [|a l IH]; [reflexivity|]. cbn [map List.filter].
  destruct (p a); cbn [length]; now rewrite IH.
Qed.

Lemma nrows_group_rows (u : string) :
  nrows (group_rows pdf (Str u)) =
  length (List.filter (fun x => String.eqb x u) ss).
Proof.
  unfold group_rows. rewrite Hids. unfold select_rows, nrows at 1. cbn [index].
  rewrite keep_length by (rewrite length_map; exact Hlen).
  rewrite filter_mask_length, (strings_of_map _ _ Hss).
  clear. induction ss as [|s l IH]; [reflexivity|]. cbn [map List.filter cell_eqb].
  destruct (String.eqb s u); cbn [length]; now rewrite IH.
Qed.

Lemma groups_cover :
  list_sum (map (fun g => nrows (group_rows pdf g))
                (map Str (fold_right insert_string [] ss))) = nrows pdf.
Proof.
  rewrite map_map.
  rewrite (map_ext _ (fun u => length (List.filter (fun x => String.eqb x u) ss)))
    by apply nrows_group_rows.
  destruct (unique_strings_spec ss) as [Hnd Hin].
  rewrite occurrences_sum; [| assumption | intros x Hx; now apply Hin].
  rewrite <- Hlen, (strings_of_map _ _ Hss). now rewrite length_map.
Qed.

(** The outcome of one group, with the precondition on the answers. *)
Lemma enrich_group_outcome (g : cell) (info : frame) :
  (forall eph, first_query post pdf observer rplane tcoor g = Ok eph ->
     empty eph = false -> nrows eph = nrows (group_rows pdf g)) ->
  enrich_group post pdf observer rplane tcoor withecl g = Ok info ->
  nrows info = nrows (group_rows pdf g) /\
  exists eph,
    first_query post pdf observer rplane tcoor g = Ok eph /\
    (empty eph = true -> info = group_rows pdf g) /\
    (empty eph = false ->
       forall c, In c (columns info) <->
         In c (columns pdf) \/
         In c (enrichment_columns (columns eph) (columns pdf) withecl)).
Proof.
  intros Hpre H.
  destruct (first_query post pdf observer rplane tcoor g) as [eph|e] eqn:Hq.
  2:{ rewrite (enrich_group_raise post _ _ _ _ _ _ ids e Hids Hq) in H. discriminate. }
  destruct (empty eph) eqn:He.
  - rewrite (enrich_group_passthrough post _ _ _ _ _ _ ids eph Hids Hq He) in H.
    injection H as <-. split; [reflexivity|]. exists eph.
    split; [reflexivity|]. split; [intros _; reflexivity | congruence].
  - destruct (enriched_shape post pdf observer rplane tcoor withecl g ids eph info
                Hids Hq He H) as [Hn Hc].
    split; [rewrite Hn, (Hpre eph eq_refl He); apply Nat.max_id|].
    exists eph. split; [reflexivity|]. split; [congruence | intros _; exact Hc].
Qed.

(** C4, as the code has it.  When the identifiers are strings, every
    column of the input is as long as its index, and every non-empty
    answer has as many rows as its group, a call that returns gives back as
    many rows as it was given.  Its columns are those of the input and, for
    each group with a non-empty answer, the enrichment of that group: the
    answer's columns without "RA" and "DEC", the converted coordinates,
    the "index" columns and "i:magpsf_red".  A group with an empty answer
    contributes its own rows as they are; under a column it does not have
    the concatenation holds NaN for them. *)
Theorem get_miriade_data_shape (out : frame) :
  (forall g eph, In g ids ->
     first_query post pdf observer rplane tcoor g = Ok eph ->
     empty eph = false -> nrows eph = nrows (group_rows pdf g)) ->
  get_miriade_data post pdf observer rplane tcoor withecl = Ok out ->
  nrows out = nrows pdf /\
  (forall c, In c (columns out) <->
     In c (columns pdf) \/
     exists g eph,
       In g ids /\
       first_query post pdf observer rplane tcoor g = Ok eph /\
       empty eph = false /\
       In c (enrichment_columns (columns eph) (columns pdf) withecl)) /\
  exists infos,
    Forall2 (fun g info => enrich_group post pdf observer rplane tcoor withecl g = Ok info)
            (map Str (fold_right insert_string [] ss)) infos /\
    out = (if Nat.ltb 1 (length infos) then concat_rows infos else hd out infos) /\
    (forall g eph,
       In g ids ->
       first_query post pdf observer rplane tcoor g = Ok eph ->
       empty eph = true ->
       In (group_rows pdf g) infos /\
       columns (group_rows pdf g) = columns pdf /\
       forall c, ~ In c (columns pdf) ->
         column_or_nan c (group_rows pdf g) =
         repeat (Num nan) (nrows (group_rows pdf g))).
Proof.
  intros Hpre H. unfold get_miriade_data in H.
  rewrite Hids, bind_ok, np_unique_strings, bind_ok in H.
  r_step_as H infos Hinfos. apply for_each_Forall2 in Hinfos.
  set (groups := map Str (fold_right insert_string [] ss)) in *.
  assert (Hgroups : forall g, In g groups <-> In g ids).
  { intros g. unfold groups. rewrite (strings_of_map _ _ Hss), !in_map_iff.
    destruct (unique_strings_spec ss) as [_ Hin].
    split; intros [u [<- Hu]]; exists u; (split; [reflexivity | now apply Hin]). }
  assert (Hone : forall g info,
            In g groups ->
            enrich_group post pdf observer rplane tcoor withecl g = Ok info ->
            nrows info = nrows (group_rows pdf g) /\
            exists eph,
              first_query post pdf observer rplane tcoor g = Ok eph /\
              (empty eph = true -> info = group_rows pdf g) /\
              (empty eph = false ->
                 forall c, In c (columns info) <->
                   In c (columns pdf) \/
                   In c (enrichment_columns (columns eph) (columns pdf) withecl))).
  { intros g info Hg. apply enrich_group_outcome.
    intros eph. apply Hpre. now apply Hgroups. }
  apply Forall2_with_In in Hinfos.
  assert (Hout : nrows out = list_sum (map nrows infos) /\
                 (forall c, In c (columns out) <->
                    exists f, In f infos /\ In c (columns f)) /\
                 out = (if Nat.ltb 1 (length infos) then concat_rows infos
                        else hd out infos) /\
                 infos <> []).
  { destruct (Nat.ltb 1 (length infos)) eqn:Hmany.
    - injection H as <-. split; [apply nrows_concat_rows|].
      split; [apply columns_concat_rows|]. split; [reflexivity|].
      apply Nat.ltb_lt in Hmany. now destruct infos.
    - apply Nat.ltb_ge in Hmany. destruct infos as [|f [|f' fs]];
        [discriminate | | cbn in Hmany; lia].
      injection H as <-. cbn [map hd]. rewrite list_sum_cons. cbn [list_sum fold_right].
      split; [lia|]. split; [|split; [reflexivity | discriminate]].
      intros c. split; [intros Hc; exists f; split; [apply in_eq | exact Hc]|].
      intros [f' [[<-|[]] Hc]]. exact Hc. }
  destruct Hout as (Hrows & Hcols & Hcat & Hne).
  assert (Hcover : forall info c, In info infos -> In c (columns pdf) ->
                                  In c (columns info)).
  { intros info c Hinfo Hc.
    destruct (Forall2_In_right _ _ _ _ Hinfos Hinfo) as [g [_ [Hgin Hg]]].
    destruct (Hone g info Hgin Hg) as [_ [eph [_ [Hempty Hfull]]]].
    destruct (empty eph) eqn:He.
    - rewrite (Hempty eq_refl), columns_group_rows. exact Hc.
    - apply (Hfull eq_refl). now left. }
  split; [|split].
  - rewrite Hrows, <- groups_cover. fold groups.
    apply (Forall2_sum _ _ _ _ _ Hinfos).
    intros g info [Hgin Hg]. now destruct (Hone g info Hgin Hg).
  - intros c. rewrite Hcols. split.
    + intros [info [Hinfo Hc]].
      destruct (Forall2_In_right _ _ _ _ Hinfos Hinfo) as [g [_ [Hgin Hg]]].
      destruct (Hone g info Hgin Hg) as [_ [eph [Hq [Hempty Hfull]]]].
      destruct (empty eph) eqn:He.
      * left. rewrite (Hempty eq_refl), columns_group_rows in Hc. exact Hc.
      * apply (Hfull eq_refl) in Hc as [Hc|Hc]; [now left|].
        right. exists g, eph. repeat split; try assumption. now apply Hgroups.
    + intros [Hc|[g [eph [Hgin [Hq [He Hc]]]]]].
      * destruct infos as [|info infos']; [congruence|].
        exists info. split; [apply in_eq|]. apply Hcover; [apply in_eq | exact Hc].
      * apply Hgroups in Hgin.
        destruct (Forall2_In_left _ _ _ _ Hinfos Hgin) as [info [Hinfo [_ Hg]]].
        exists info. split; [exact Hinfo|].
        destruct (Hone g info Hgin Hg) as [_ [eph' [Hq' [_ Hfull]]]].
        rewrite Hq in Hq'. injection Hq' as <-.
        apply (Hfull He). now right.
  - exists infos. split.
    { eapply List.Forall2_impl; [|exact Hinfos]. now intros g info [_ Hg]. }
    split; [exact Hcat|].
    intros g eph Hgin Hq He. apply Hgroups in Hgin.
    destruct (Forall2_In_left _ _ _ _ Hinfos Hgin) as [info [Hinfo [_ Hg]]].
    destruct (Hone g info Hgin Hg) as [_ [eph' [Hq' [Hempty _]]]].
    rewrite Hq in Hq'. injection Hq' as <-. rewrite (Hempty He) in Hinfo.
    split; [exact Hinfo|]. split; [apply columns_group_rows|].
    intros c Hc. unfold column_or_nan.
    rewrite <- columns_group_rows with (g := g) in Hc.
    apply lookup_col_none in Hc. now rewrite Hc.
Qed.

End BatchFacts.

(** *** The enricher on three observations *)

Lemma query_miriade_failure_modes_witness :
  @get_miriade_data Example.symbolic Example.sky Example.refused
     Example.observations "I41" "1" "5" true =
    Raise (RequestException "ConnectionError") /\
  @query_miriade Example.symbolic Example.partly_down "9999"
     [Example.number "2459000.5"] "I41" "1" "5" (Example.SOfInt 15) =
    Ok empty_frame.
Proof.
  destruct (@query_miriade_failure_modes Example.symbolic Example.sky
              Example.refused Example.observations "I41" "1" "5" true)
    as [_ Hbatch].
  destruct (@query_miriade_failure_modes Example.symbolic Example.sky
              Example.partly_down Example.observations "I41" "1" "5" true)
    as [Hquery _].
  split.
  - apply (Hbatch [Example.text "9999"; Example.text "1234"; Example.text "9999"]
             [] (Example.text "1234") [Example.text "9999"]).
    + reflexivity.
    + reflexivity.
    + intros g' [].
    + reflexivity.
  - destruct (Hquery "9999" [Example.number "2459000.5"] (Example.SOfInt 15)
                ["(2459000.5 + ((15 / 24) / 3600))"] eq_refl) as [Htimeout _].
    apply Htimeout. reflexivity.
Defined.

(** C3 at an input where the second query is the one that fails.  The
    equatorial query for object 1234 succeeds and the ecliptic one times
    out: [query_miriade] turns the timeout into an empty frame, and the
    lookup of "Longitude" in it raises [KeyError], which ends the whole
    call although the rows of object 9999 could go through. *)
Theorem ecliptic_timeout_aborts :
  @first_query Example.symbolic Example.ecliptic_down Example.observations
     "I41" "1" "5" (Example.text "1234") = Ok Example.equatorial /\
  @second_query Example.symbolic Example.ecliptic_down Example.observations
     "I41" (Example.text "1234") = Ok empty_frame /\
  @get_miriade_data Example.symbolic Example.sky Example.ecliptic_down
     Example.observations "I41" "1" "5" true = Raise (KeyError "Longitude") /\
  @get_miriade_data Example.symbolic Example.sky Example.ecliptic_down
     Example.one_object "I41" "1" "5" true = Raise (KeyError "Longitude").
Proof. repeat split; vm_compute; reflexivity. Qed.

Lemma observations_answers (g : @cell Example.symbolic) (eph : @frame Example.symbolic) :
  In g [Example.text "9999"; Example.text "1234"; Example.text "9999"] ->
  @first_query Example.symbolic Example.partly_down Example.observations
     "I41" "1" "5" g = Ok eph ->
  empty eph = false ->
  nrows eph = nrows (group_rows Example.observations g).
Proof.
  intros [<-|[<-|[<-|[]]]] Hq He;
    vm_compute in Hq; injection Hq as <-; first [discriminate He | reflexivity].
Defined.

Lemma get_miriade_data_shape_witness :
  exists out,
    @get_miriade_data Example.symbolic Example.sky Example.partly_down
       Example.observations "I41" "1" "5" true = Ok out /\
    nrows out = 3 /\
    (forall c, In c (columns out) <->
       In c (columns Example.observations) \/
       exists g eph,
         In g [Example.text "9999"; Example.text "1234"; Example.text "9999"] /\
         @first_query Example.symbolic Example.partly_down Example.observations
            "I41" "1" "5" g = Ok eph /\
         empty eph = false /\
         In c (enrichment_columns (columns eph) (columns Example.observations) true)).
Proof.
  eexists. split; [vm_compute; reflexivity|].
  match goal with |- nrows ?out = _ /\ _ =>
    destruct (@get_miriade_data_shape Example.symbolic Example.sky Example.partly_down
                Example.observations "I41" "1" "5" true
                [Example.text "9999"; Example.text "1234"; Example.text "9999"]
                ["9999"; "1234"; "9999"] eq_refl eq_refl eq_refl out
                observations_answers eq_refl) as (Hrows & Hcols & _)
  end.
  split; [exact Hrows | exact Hcols].
Defined.

(** The enriched frame has an "index" column that neither the input nor
    an answer of the service has, and has no "DEC" although the answer
    has one. *)
Lemma enriched_columns_differ :
  exists out,
    @get_miriade_data Example.symbolic Example.sky Example.partly_down
       Example.observations "I41" "1" "5" true = Ok out /\
    In "index" (columns out) /\
    ~ In "index" (columns Example.observations) /\
    ~ In "index" (columns Example.equatorial) /\
    ~ In "index" (columns Example.ecliptic) /\
    In "DEC" (columns Example.equatorial) /\
    ~ In "DEC" (columns out).
Proof.
  eexists. split; [vm_compute; reflexivity|].
  cbn. intuition discriminate.
Qed.

Lemma reduced_magnitude_formula_witness :
  exists info,
    @enrich_group Example.symbolic Example.sky Example.partly_down
       Example.observations "I41" "1" "5" true (Example.text "1234") = Ok info /\
    getitem info "i:magpsf_red" =
      Ok [@Num Example.symbolic
            (Example.SSub (Example.SLit "18.0")
               (Example.SMul (Example.SOfInt 5)
                  (Example.SLog10 (Example.SMul (Example.SLit "1.2")
                                                (Example.SLit "2.3")))))] /\
    exists magpsf dobs dhelio red,
      getitem info "i:magpsf" = Ok magpsf /\
      getitem info "Dobs" = Ok dobs /\
      getitem info "Dhelio" = Ok dhelio /\
      getitem info "i:magpsf_red" = Ok red /\
      Forall2
        (fun r t =>
           exists m d h,
             as_float (fst t) = Ok m /\ as_float (fst (snd t)) = Ok d /\
             as_float (snd (snd t)) = Ok h /\
             r = Num (fsub m (fmul (of_int 5) (log10 (fmul d h)))))
        red (combine magpsf (combine dobs dhelio)) /\
      (col_lengths Example.observations (nrows Example.observations) ->
       col_lengths Example.equatorial (nrows Example.equatorial) ->
       length magpsf = nrows info /\ length dobs = nrows info /\
       length dhelio = nrows info /\ length red = nrows info).
Proof.
  eexists. split; [vm_compute; reflexivity|]. split; [reflexivity|].
  apply (@reduced_magnitude_formula Example.symbolic Example.sky Example.partly_down
           Example.observations "I41" "1" "5" true (Example.text "1234")
           [Example.text "9999"; Example.text "1234"; Example.text "9999"]
           Example.equatorial); reflexivity.
Defined.

End SsoFacts.

(* ================================================================== *)
(** * Further properties

    What the functions do at the edges of their inputs, what they leave
    alone, and how they compose. *)

(** ** Offset tracker: reading back what was logged *)

Lemma append_nil_l (s : string) : "" ++ s = s.
Proof. reflexivity. Qed.

Lemma append_nil_r (s : string) : s ++ "" = s.
Proof. induction s as [|c s IH]; [reflexivity|]. now rewrite append_cons, IH. Qed.

Lemma append_assoc (a b c : string) : (a ++ b) ++ c = a ++ b ++ c.
Proof.
  induction a as [|x a IH]; [reflexivity|]. now rewrite !append_cons, IH.
Qed.

Lemma chars_append (a b : string) : Py.chars (a ++ b) = (Py.chars a ++ Py.chars b)%list.
Proof.
  induction a as [|c a IH]; [reflexivity|].
  rewrite append_cons. unfold Py.chars in *. cbn [list_ascii_of_string app].
  now rewrite IH.
Qed.

Lemma str_chars (s : string) : Py.str (Py.chars s) = s.
Proof. apply string_of_list_ascii_of_string. Qed.

Lemma chars_str (l : list ascii) : Py.chars (Py.str l) = l.
Proof. apply list_ascii_of_string_of_list_ascii. Qed.

Lemma str_app (a b : list ascii) : Py.str (a ++ b) = Py.str a ++ Py.str b.
Proof.
  induction a as [|c a IH]; [reflexivity|].
  cbn [app]. unfold Py.str in *. cbn [string_of_list_ascii].
  now rewrite append_cons, IH.
Qed.

Lemma last_app {A : Type} (l l' : list A) : l' <> [] -> Py.last (l ++ l') = Py.last l'.
Proof.
  intros H. induction l as [|a l IH]; [reflexivity|].
  cbn [app Py.last]. destruct (l ++ l')%list as [|b r] eqn:E.
  - apply app_eq_nil in E as [_ ->]. congruence.
  - exact IH.
Qed.

(** Reading the lines of a text: a stretch without a line break goes to the
    line that is being read, and whatever comes before a line feed leaves
    whole lines. *)
Lemma readlines_go_line (line rest : string) (cur : list ascii) :
  one_line line = true ->
  Py.readlines_go (line ++ rest) cur =
  Py.readlines_go rest (rev (Py.chars line) ++ cur)%list.
Proof.
  revert cur. induction line as [|c line IH]; intros cur H; [reflexivity|].
  unfold one_line in H. cbn [Py.chars list_ascii_of_string forallb] in H.
  apply andb_prop in H as [Hc H]. apply negb_true_iff, orb_false_iff in Hc as [Hn Hr].
  rewrite append_cons. cbn [Py.readlines_go]. rewrite Hn, Hr.
  rewrite (IH (c :: cur) H).
  unfold Py.chars. cbn [list_ascii_of_string rev]. now rewrite <- app_assoc.
Qed.

Lemma readlines_go_feed (n : nat) :
  forall (e rest : string) (cur : list ascii),
    String.length e <= n ->
    exists ls, Py.readlines_go (e ++ String Py.nl rest) cur =
               (ls ++ Py.readlines_go rest [])%list.
Proof.
  induction n as [n IH] using lt_wf_ind. intros e rest cur Hn.
  destruct e as [|c e].
  - rewrite append_nil_l. cbn [Py.readlines_go]. rewrite Ascii.eqb_refl.
    now exists [Py.str (rev (Py.nl :: cur))].
  - rewrite append_cons. cbn [Py.readlines_go]. cbn [String.length] in Hn.
    destruct (Ascii.eqb c Py.nl).
    { destruct (IH (String.length e) ltac:(lia) e rest [] (le_n _)) as [ls Hls].
      rewrite Hls. now exists (Py.str (rev (Py.nl :: cur)) :: ls). }
    destruct (Ascii.eqb c Py.cr).
    + destruct e as [|c' e'].
      * rewrite append_nil_l. rewrite Ascii.eqb_refl.
        now exists [Py.str (rev (Py.nl :: cur))].
      * rewrite append_cons. cbn [String.length] in Hn.
        destruct (Ascii.eqb c' Py.nl).
        -- destruct (IH (String.length e') ltac:(lia) e' rest [] (le_n _)) as [ls Hls].
           rewrite Hls. now exists (Py.str (rev (Py.nl :: cur)) :: ls).
        -- destruct (IH (S (String.length e')) ltac:(lia) (String c' e') rest []
                        (le_n _)) as [ls Hls].
           rewrite append_cons in Hls. rewrite Hls.
           now exists (Py.str (rev (Py.nl :: cur)) :: ls).
    + destruct (IH (String.length e) ltac:(lia) e rest (c :: cur) (le_n _)) as [ls Hls].
      rewrite Hls. now exists ls.
Qed.

(** The last line of a log that ends with the record [line], with or
    without its line feed. *)
Lemma last_line (earlier line : string) (newline : bool) :
  one_line line = true -> line <> "" ->
  (earlier = "" \/ exists e, earlier = e ++ Py.str [Py.nl]) ->
  Py.last (Py.readlines
             (earlier ++ line ++ (if newline then Py.str [Py.nl] else ""))) =
  Ok (line ++ (if newline then Py.str [Py.nl] else "")).
Proof.
  intros Hline Hne Hearlier.
  assert (Hrec : Py.readlines_go
                   (line ++ (if newline then Py.str [Py.nl] else "")) [] =
                 [line ++ (if newline then Py.str [Py.nl] else "")]).
  { rewrite readlines_go_line by assumption. rewrite app_nil_r.
    destruct newline.
    - cbn [Py.str string_of_list_ascii Py.readlines_go]. rewrite Ascii.eqb_refl.
      cbn [rev]. rewrite rev_involutive, str_app, str_chars. reflexivity.
    - cbn [Py.readlines_go]. destruct (rev (Py.chars line)) as [|c r] eqn:E.
      + apply (f_equal (@rev ascii)) in E. rewrite rev_involutive in E. cbn in E.
        destruct line; [congruence | discriminate].
      + rewrite <- E, rev_involutive, str_chars, append_nil_r. reflexivity. }
  unfold Py.readlines. destruct Hearlier as [->|[e ->]].
  - rewrite append_nil_l. now rewrite Hrec.
  - change (Py.str [Py.nl]) with (String Py.nl "") at 1.
    rewrite append_assoc, append_cons, append_nil_l.
    destruct (readlines_go_feed (String.length e) e
                (line ++ (if newline then Py.str [Py.nl] else "")) [] (le_n _))
      as [ls Hls].
    rewrite Hls, last_app by (rewrite Hrec; discriminate).
    now rewrite Hrec.
Qed.

(** Splitting a record at ", ": the piece after the last separator. *)
Lemma split_go_plain (d : string) (cur : list ascii) :
  Forall (fun c => c <> ","%char) (Py.chars d) ->
  Py.split_go ", " d 0 cur = [Py.str (rev cur ++ Py.chars d)].
Proof.
  revert cur. induction d as [|c d IH]; intros cur H.
  - cbn [Py.split_go Py.chars list_ascii_of_string]. now rewrite app_nil_r.
  - unfold Py.chars in H. cbn [list_ascii_of_string] in H.
    apply List.Forall_cons_iff in H as [Hc H].
    cbn [Py.split_go String.prefix].
    destruct (ascii_dec "," c) as [E|_]; [now destruct Hc|].
    rewrite (IH (c :: cur) H). cbn [rev]. unfold Py.chars.
    cbn [list_ascii_of_string]. now rewrite <- app_assoc.
Qed.

Lemma split_go_match (s : string) (cur : list ascii) :
  Py.split_go ", " (String "," (String " " s)) 0 cur =
  Py.str (rev cur) :: Py.split_go ", " s 0 [].
Proof. destruct s; reflexivity. Qed.

Lemma last_piece (n : nat) :
  forall (pre d : string) (cur : list ascii),
    String.length pre <= n ->
    Forall (fun c => c <> ","%char) (Py.chars d) ->
    Py.last (Py.split_go ", " (pre ++ ", " ++ d) 0 cur) = Ok d.
Proof.
  induction n as [n IH] using lt_wf_ind. intros pre d cur Hn Hd.
  destruct pre as [|c pre].
  - rewrite append_nil_l.
    change (", " ++ d) with (String "," (String " " d)).
    rewrite split_go_match, (split_go_plain d [] Hd).
    cbn [rev app Py.last]. now rewrite str_chars.
  - cbn [String.length] in Hn. rewrite append_cons.
    assert (Hskip : Py.last (Py.split_go ", " (pre ++ ", " ++ d) 0 (c :: cur)) = Ok d)
      by (apply (IH (String.length pre)); [lia | lia | exact Hd]).
    cbn [Py.split_go String.prefix].
    destruct (ascii_dec "," c) as [<-|_]; [|exact Hskip].
    destruct pre as [|c' pre'].
    + rewrite append_nil_l in *.
      change (", " ++ d) with (String "," (String " " d)) in *. cbn [String.prefix].
      destruct (ascii_dec " " ",") as [E|_]; [discriminate E | exact Hskip].
    + rewrite append_cons in *. cbn [String.length] in Hn. cbn [String.prefix].
      destruct (ascii_dec " " c') as [<-|_]; [|exact Hskip].
      assert (Hp : String.prefix "" (pre' ++ ", " ++ d) = true)
        by (destruct (pre' ++ ", " ++ d); reflexivity).
      rewrite Hp. cbn [String.length Nat.sub Py.split_go].
      match goal with
      | |- Py.last (?x :: ?l) = _ =>
          change (x :: l) with ([x] ++ l)%list;
          rewrite (last_app [x] l (split_go_nonempty _ _ _ _))
      end.
      apply (IH (String.length pre')); [lia | lia | exact Hd].
Qed.

(** [int] of the digits that [str] writes *)
Lemma digit_not_space (c : ascii) : Py.is_digit c = true -> Py.is_space c = false.
Proof.
  destruct c as [[] [] [] [] [] [] [] []]; intros H;
    first [reflexivity | vm_compute in H; discriminate H].
Qed.

Lemma parse_digits_uint_acc (d : Decimal.uint) :
  forall (acc : positive) (n : nat),
    Py.parse_digits (Py.chars (NilEmpty.string_of_uint d)) (Z.pos acc) n true =
    Some (Z.pos (Pos.of_uint_acc d acc), n + Decimal.nb_digits d).
Proof.
  induction d as [|d IH|d IH|d IH|d IH|d IH|d IH|d IH|d IH|d IH|d IH];
    intros acc n;
    [cbn; now rewrite Nat.add_0_r | ..];
    unfold Py.chars; cbn [NilEmpty.string_of_uint list_ascii_of_string];
    cbn [Py.parse_digits Decimal.nb_digits Pos.of_uint_acc];
    match goal with
    | |- context [Py.is_digit ?c] => change (Py.is_digit c) with true; cbn iota
    end;
    match goal with
    | |- Py.parse_digits _ ?a _ _ = Some (Z.pos (Pos.of_uint_acc _ ?p), _) =>
        replace a with (Z.pos p) by (unfold Py.digit_value; cbn; lia)
    end;
    fold (Py.chars (NilEmpty.string_of_uint d)); rewrite IH; f_equal; f_equal; lia.
Qed.

Lemma parse_digits_uint (d : Decimal.uint) :
  forall (n : nat) (b : bool),
    d <> Decimal.Nil \/ b = true ->
    Py.parse_digits (Py.chars (NilEmpty.string_of_uint d)) 0 n b =
    Some (Z.of_N (Pos.of_uint d), n + Decimal.nb_digits d).
Proof.
  induction d as [|d IH|d IH|d IH|d IH|d IH|d IH|d IH|d IH|d IH|d IH];
    intros n b H.
  1:{ destruct H as [H| ->]; [congruence|]. cbn. now rewrite Nat.add_0_r. }
  1:{ unfold Py.chars. cbn [NilEmpty.string_of_uint list_ascii_of_string].
      cbn [Py.parse_digits Decimal.nb_digits Pos.of_uint].
      change (Py.is_digit "0") with true. cbn iota.
      change (10 * 0 + Py.digit_value "0")%Z with 0%Z.
      fold (Py.chars (NilEmpty.string_of_uint d)).
      rewrite (IH (S n) true) by auto. f_equal. f_equal. lia. }
  all: unfold Py.chars; cbn [NilEmpty.string_of_uint list_ascii_of_string];
      cbn [Py.parse_digits Decimal.nb_digits Pos.of_uint];
      match goal with
      | |- context [Py.is_digit ?c] => change (Py.is_digit c) with true; cbn iota
      end;
      match goal with
      | |- Py.parse_digits _ ?a _ _ = Some (Z.of_N (N.pos (Pos.of_uint_acc _ ?p)), _) =>
          change a with (Z.pos p)
      end;
      fold (Py.chars (NilEmpty.string_of_uint d));
      rewrite parse_digits_uint_acc; cbn [Z.of_N]; f_equal; f_equal; lia.
Qed.

Lemma digits_of_uint (d : Decimal.uint) :
  Forall (fun c => Py.is_digit c = true) (Py.chars (NilEmpty.string_of_uint d)) /\
  length (Py.chars (NilEmpty.string_of_uint d)) = Decimal.nb_digits d.
Proof.
  induction d as [|d [IH1 IH2]|d [IH1 IH2]|d [IH1 IH2]|d [IH1 IH2]|d [IH1 IH2]
                  |d [IH1 IH2]|d [IH1 IH2]|d [IH1 IH2]|d [IH1 IH2]|d [IH1 IH2]];
    [split; [constructor | reflexivity] | ..];
    unfold Py.chars in *;
    cbn [NilEmpty.string_of_uint list_ascii_of_string length Decimal.nb_digits];
    (split; [constructor; [reflexivity | exact IH1] | now rewrite IH2]).
Qed.

(** The text of an integer: a minus sign when it is negative, then at
    least one digit, and the digits read back as its absolute value. *)
Lemma decimal_parts (z : Z) :
  exists ds,
    Py.chars (Py.decimal z) = ((if (z <? 0)%Z then ["-"%char] else []) ++ ds)%list /\
    ds <> [] /\
    Forall (fun c => Py.is_digit c = true) ds /\
    Py.parse_digits ds 0 0 false = Some (Z.abs z, length ds).
Proof.
  unfold Py.decimal. destruct z as [|p|p].
  - exists ["0"%char]. repeat split; [discriminate | repeat constructor].
  - pose proof (DecimalPos.Unsigned.to_uint_nonnil p) as Hnn.
    pose proof (DecimalPos.Unsigned.of_to p) as Hof.
    exists (Py.chars (NilEmpty.string_of_uint (Pos.to_uint p))).
    destruct (digits_of_uint (Pos.to_uint p)) as [Hd Hl].
    cbn [Z.to_int NilZero.string_of_int Z.ltb Z.compare app Z.abs].
    split; [|split; [|split; [exact Hd|]]].
    + unfold NilZero.string_of_uint. now destruct (Pos.to_uint p).
    + intros E. destruct (Pos.to_uint p) eqn:Ed; [congruence|..];
        rewrite E in Hl; cbn in Hl; discriminate Hl.
    + rewrite parse_digits_uint by auto. now rewrite Hof, Hl.
  - pose proof (DecimalPos.Unsigned.to_uint_nonnil p) as Hnn.
    pose proof (DecimalPos.Unsigned.of_to p) as Hof.
    exists (Py.chars (NilEmpty.string_of_uint (Pos.to_uint p))).
    destruct (digits_of_uint (Pos.to_uint p)) as [Hd Hl].
    cbn [Z.to_int NilZero.string_of_int Z.ltb Z.compare app Z.abs].
    split; [|split; [|split; [exact Hd|]]].
    + unfold Py.chars. cbn [list_ascii_of_string]. f_equal.
      unfold NilZero.string_of_uint. now destruct (Pos.to_uint p).
    + intros E. destruct (Pos.to_uint p) eqn:Ed; [congruence|..];
        rewrite E in Hl; cbn in Hl; discriminate Hl.
    + rewrite parse_digits_uint by auto. now rewrite Hof, Hl.
Qed.

Lemma lstrip_spaces (sp rest : list ascii) :
  Forall (fun c => Py.is_space c = true) sp ->
  Py.lstrip (sp ++ rest) = Py.lstrip rest.
Proof.
  induction 1 as [|c sp Hc _ IH]; [reflexivity|].
  cbn [app Py.lstrip]. now rewrite Hc.
Qed.

Lemma lstrip_head (c : ascii) (rest : list ascii) :
  Py.is_space c = false -> Py.lstrip (c :: rest) = c :: rest.
Proof. intros H. cbn [Py.lstrip]. now rewrite H. Qed.

(** Blanks after a text that starts and ends with something else *)
Lemma strip_trailing (c c' : ascii) (body body' sp : list ascii) :
  Py.is_space c = false -> Py.is_space c' = false ->
  rev (c :: body) = c' :: body' ->
  Forall (fun x => Py.is_space x = true) sp ->
  Py.strip ((c :: body) ++ sp) = c :: body.
Proof.
  intros Hc Hc' Hrev Hsp. unfold Py.strip.
  change ((c :: body) ++ sp)%list with (c :: (body ++ sp))%list.
  rewrite lstrip_head by assumption.
  change (c :: (body ++ sp))%list with ((c :: body) ++ sp)%list.
  rewrite rev_app_distr, lstrip_spaces by (now apply Forall_rev).
  rewrite Hrev, lstrip_head by assumption.
  now rewrite <- Hrev, rev_involutive.
Qed.

Lemma int_unsigned (s : string) (c : ascii) (r : list ascii) :
  Py.strip (Py.chars s) = c :: r -> Py.is_digit c = true ->
  Py.int s =
  match Py.parse_digits (c :: r) 0 0 false with
  | Some (v, n) =>
      if Nat.ltb Py.int_max_str_digits n then Raise ValueError else Ok v
  | None => Raise ValueError
  end.
Proof.
  intros Hb Hc. unfold Py.int. rewrite Hb.
  destruct c as [[] [] [] [] [] [] [] []];
    first [reflexivity | vm_compute in Hc; discriminate Hc].
Qed.

Lemma int_negative (s : string) (r : list ascii) :
  Py.strip (Py.chars s) = "-"%char :: r ->
  Py.int s =
  match Py.parse_digits r 0 0 false with
  | Some (v, n) =>
      if Nat.ltb Py.int_max_str_digits n then Raise ValueError else Ok (- v)%Z
  | None => Raise ValueError
  end.
Proof. intros Hb. unfold Py.int. now rewrite Hb. Qed.

Lemma rev_head_last {A : Type} (l : list A) (x : A) :
  exists l', rev (l ++ [x]) = x :: l'.
Proof. exists (rev l). now rewrite rev_app_distr. Qed.

Lemma nonempty_last {A : Type} (l : list A) :
  l <> [] -> exists l' x, l = (l' ++ [x])%list.
Proof.
  intros H. destruct (exists_last H) as [l' [x ->]]. eauto.
Qed.

(** [int] reads back what [str] wrote, also before a line feed. *)
Lemma int_str_int (z : Z) (s : string) (newline : bool) :
  Py.str_int z = Ok s ->
  Py.int (s ++ (if newline then Py.str [Py.nl] else "")) = Ok z.
Proof.
  unfold Py.str_int. intros H.
  destruct (Nat.ltb Py.int_max_str_digits _) eqn:Hlim in H; [discriminate|].
  injection H as <-.
  destruct (decimal_parts z) as (ds & Hchars & Hne & Hdig & Hparse).
  assert (Hlen : String.length (Py.decimal z) = length (Py.chars (Py.decimal z))).
  { generalize (Py.decimal z). intros t. induction t as [|c t IH]; [reflexivity|].
    unfold Py.chars in *. cbn [String.length list_ascii_of_string length].
    now rewrite IH. }
  rewrite Hlen, Hchars, length_app in Hlim.
  set (sp := Py.chars (if newline then Py.str [Py.nl] else "")).
  assert (Hsp : Forall (fun x => Py.is_space x = true) sp)
    by (unfold sp; destruct newline; repeat constructor).
  destruct (nonempty_last ds Hne) as (ds' & x & Hds).
  assert (Hx : Py.is_digit x = true).
  { rewrite List.Forall_forall in Hdig. apply Hdig. rewrite Hds.
    apply in_or_app. right. now left. }
  destruct ds as [|c r]; [congruence|].
  assert (Hc : Py.is_digit c = true) by (now inversion Hdig).
  destruct (z <? 0)%Z eqn:Hneg.
  - assert (Hstrip : Py.strip (Py.chars (Py.decimal z ++
                         (if newline then Py.str [Py.nl] else ""))) =
                     "-"%char :: c :: r).
    { rewrite chars_append, Hchars. fold sp.
      destruct (rev_head_last ("-"%char :: ds') x) as [l' Hl'].
      apply (strip_trailing "-" x (c :: r) l'); [reflexivity | | | exact Hsp].
      - now apply digit_not_space.
      - rewrite <- Hl'. cbn [app]. now rewrite <- Hds. }
    rewrite (int_negative _ _ Hstrip), Hparse.
    assert (Hlim' : Nat.ltb Py.int_max_str_digits (length (c :: r)) = false)
      by (rewrite <- Hlim; f_equal; cbn [length]; lia).
    rewrite Hlim'. f_equal. apply Z.ltb_lt in Hneg. lia.
  - assert (Hstrip : Py.strip (Py.chars (Py.decimal z ++
                         (if newline then Py.str [Py.nl] else ""))) = c :: r).
    { rewrite chars_append, Hchars. fold sp. cbn [app].
      destruct (rev_head_last ds' x) as [l' Hl'].
      apply (strip_trailing c x r l'); [| | | exact Hsp].
      - now apply digit_not_space.
      - now apply digit_not_space.
      - now rewrite <- Hl', <- Hds. }
    rewrite (int_unsigned _ _ _ Hstrip Hc), Hparse.
    assert (Hlim' : Nat.ltb Py.int_max_str_digits (length (c :: r)) = false)
      by (rewrite <- Hlim; f_equal; cbn [length]; lia).
    rewrite Hlim'. f_equal. apply Z.ltb_ge in Hneg. lia.
Qed.

Lemma decimal_no_break (z : Z) :
  one_line (Py.decimal z) = true /\
  Forall (fun c => c <> ","%char) (Py.chars (Py.decimal z)) /\
  Py.decimal z <> "".
Proof.
  destruct (decimal_parts z) as (ds & Hchars & Hne & Hdig & _).
  assert (Hall : Forall (fun c => Py.is_digit c = true \/ c = "-"%char)
                        (Py.chars (Py.decimal z))).
  { rewrite Hchars. apply Forall_app. split.
    - destruct (z <? 0)%Z; [|apply List.Forall_nil].
      apply List.Forall_cons; [now right | apply List.Forall_nil].
    - eapply List.Forall_impl; [|exact Hdig]. intros c Hc. now left. }
  split; [|split].
  - unfold one_line. apply forallb_forall. intros c Hin.
    rewrite List.Forall_forall in Hall. destruct (Hall c Hin) as [Hc| ->]; [|reflexivity].
    destruct c as [[] [] [] [] [] [] [] []];
      first [reflexivity | vm_compute in Hc; discriminate Hc].
  - eapply List.Forall_impl; [|exact Hall]. intros c [Hc| ->] E; [|discriminate E].
    subst c. vm_compute in Hc. discriminate Hc.
  - intros E. rewrite E in Hchars. destruct (z <? 0)%Z; destruct ds; try discriminate.
    congruence.
Qed.

Lemma one_line_append (a b : string) :
  one_line a = true -> one_line b = true -> one_line (a ++ b) = true.
Proof.
  unfold one_line. intros Ha Hb. rewrite chars_append, forallb_app.
  now rewrite Ha, Hb.
Qed.

(** X1. The offset that was logged last is the offset that is read.  When the
    log ends with a record "..., t", where t is what [str] writes for an
    integer, the tracker under "latest" answers t, whatever the text before
    the last ", " of that record and whatever the earlier lines. *)
Theorem get_distribution_offset_reads_back (w : world)
    (path earlier pre s : string) (t : Z) (newline : bool) :
  Py.str_int t = Ok s ->
  one_line pre = true ->
  (earlier = "" \/ exists e, earlier = e ++ Py.str [Py.nl]) ->
  fs w !! path =
    Some (File (earlier ++ (pre ++ ", " ++ s) ++
                (if newline then Py.str [Py.nl] else ""))) ->
  get_distribution_offset w path "latest" = Ok t.
Proof.
  intros Hs Hpre Hearlier Hfile.
  assert (Hdec : s = Py.decimal t).
  { unfold Py.str_int in Hs. destruct (Nat.ltb _ _) in Hs; congruence. }
  destruct (decimal_no_break t) as (Hone & Hcomma & Hne).
  set (trailer := if newline then Py.str [Py.nl] else "") in *.
  set (line := pre ++ ", " ++ s) in *.
  assert (Hline : one_line line = true).
  { unfold line. apply one_line_append; [exact Hpre|].
    apply one_line_append; [reflexivity | now rewrite Hdec]. }
  assert (Hlne : line <> "").
  { unfold line. destruct pre; [discriminate|]. rewrite append_cons. discriminate. }
  pose proof (last_line earlier line newline Hline Hlne Hearlier) as Hlast.
  fold trailer in Hlast.
  assert (Hsize : earlier ++ line ++ trailer <> "").
  { intros E. apply (f_equal String.length) in E.
    rewrite !string_length_append in E. cbn [String.length] in E.
    destruct line; [congruence | cbn [String.length] in E; lia]. }
  unfold get_distribution_offset, getsize, read_text, isfile. rewrite Hfile.
  destruct (earlier ++ line ++ trailer) as [|c0 content] eqn:Hcontent; [congruence|].
  cbn [mbind result_bind String.length Nat.leb negb orb].
  change (String.eqb "latest" "earliest") with false.
  change (String.eqb "latest" "latest") with true. cbn iota.
  rewrite Hlast. cbn [mbind result_bind]. unfold Py.split. cbn [mbind result_bind].
  unfold line. rewrite !append_assoc.
  assert (Htail : Forall (fun c => c <> ","%char) (Py.chars (s ++ trailer))).
  { rewrite chars_append. apply Forall_app. split; [now rewrite Hdec|].
    unfold trailer. destruct newline; repeat constructor. discriminate. }
  rewrite <- (append_assoc ", " s trailer) at 1.
  change ((", " ++ s) ++ trailer) with (", " ++ s ++ trailer).
  rewrite (last_piece (String.length pre) pre (s ++ trailer) [] (le_n _) Htail).
  cbn [mbind result_bind]. now apply int_str_int.
Qed.

Lemma get_distribution_offset_reads_back_witness :
  Py.str_int 1700000000000 = Ok "1700000000000" /\
  one_line "distributed till" = true /\
  get_distribution_offset Example.offset_machine "dist.offset.test" "latest" =
    Ok 1700000000000%Z.
Proof.
  assert (Hs : Py.str_int 1700000000000 = Ok "1700000000000") by reflexivity.
  assert (Hp : one_line "distributed till" = true) by reflexivity.
  split; [exact Hs|]. split; [exact Hp|].
  apply (get_distribution_offset_reads_back Example.offset_machine "dist.offset.test"
           ("distributed till, 1600000000000" ++ Py.str [Py.nl]) "distributed till"
           "1700000000000" 1700000000000 false Hs Hp).
  - right. eexists. reflexivity.
  - reflexivity.
Defined.

Lemma decimal_first (z : Z) :
  exists c rest,
    Py.decimal z = String c rest /\ (c = "-"%char \/ Py.is_digit c = true).
Proof.
  destruct (decimal_parts z) as (ds & Hchars & Hne & Hdig & _).
  destruct (Py.decimal z) as [|c rest] eqn:E.
  - destruct (z <? 0)%Z; destruct ds; try discriminate. congruence.
  - exists c, rest. split; [reflexivity|].
    unfold Py.chars in Hchars. cbn [list_ascii_of_string] in Hchars.
    destruct (z <? 0)%Z.
    + injection Hchars as -> _. now left.
    + destruct ds as [|d ds]; [congruence|]. injection Hchars as -> _.
      right. now inversion Hdig.
Qed.

(** X2. A timestamp that is passed as the policy comes back: with a log that
    is there and not empty, the tracker answers t when it is given what
    [str] writes for the integer t. *)
Theorem get_distribution_offset_custom (w : world) (path content s : string) (t : Z) :
  fs w !! path = Some (File content) -> content <> "" ->
  Py.str_int t = Ok s ->
  get_distribution_offset w path s = Ok t.
Proof.
  intros Hfile Hne Hs.
  assert (Hdec : s = Py.decimal t).
  { unfold Py.str_int in Hs. destruct (Nat.ltb _ _) in Hs; congruence. }
  destruct (decimal_first t) as (c & rest & Hc & Hfirst). rewrite <- Hdec in Hc.
  assert (Hother : forall word, word = "earliest" \/ word = "latest" ->
            String.eqb s word = false).
  { intros word Hw. apply String.eqb_neq. intros E. rewrite Hc in E.
    destruct Hw as [-> | ->]; injection E as -> _;
      (destruct Hfirst as [Hf|Hf]; [discriminate Hf | vm_compute in Hf; discriminate Hf]). }
  pose proof (int_str_int t s false Hs) as Hint. rewrite append_nil_r in Hint.
  unfold get_distribution_offset, getsize, isfile. rewrite Hfile.
  destruct content as [|c0 content']; [congruence|].
  cbn [mbind result_bind String.length Nat.leb negb orb].
  rewrite (Hother "earliest") by auto. rewrite (Hother "latest") by auto.
  exact Hint.
Qed.

Lemma get_distribution_offset_custom_witness :
  Py.str_int 1650000000000 = Ok "1650000000000" /\
  get_distribution_offset Example.offset_machine "dist.offset.test" "1650000000000" =
    Ok 1650000000000%Z.
Proof.
  assert (Hs : Py.str_int 1650000000000 = Ok "1650000000000") by reflexivity.
  split; [exact Hs|].
  apply (get_distribution_offset_custom Example.offset_machine "dist.offset.test"
           ("distributed till, 1600000000000" ++ Py.str [Py.nl] ++
            "distributed till, 1700000000000") "1650000000000" 1650000000000).
  - reflexivity.
  - discriminate.
  - exact Hs.
Defined.

(** ** Record encoder: what it refuses, and what it leaves alone *)

Lemma for_each_raise {A B : Type} (f : A -> result B) (l : list A) (e : exn) :
  (forall a, In a l -> (exists b, f a = Ok b) \/ f a = Raise e) ->
  (exists a, In a l /\ f a = Raise e) ->
  for_each f l = Raise e.
Proof.
  induction l as [|x l IH]; intros Hall [a [Hin Ha]]; [destruct Hin|].
  cbn [for_each]. destruct (Hall x (or_introl eq_refl)) as [[b Hb]|Hx].
  - rewrite Hb, bind_ok. rewrite IH; [reflexivity | |].
    + intros y Hy. apply Hall. now right.
    + destruct Hin as [->|Hin]; [congruence | eauto].
  - now rewrite Hx.
Qed.


Section EncoderEdges.
Context `{codec : AvroCodec} `{J : Json} `{sio : !SparkIO}.








Lemma lift_run {A B : Type} (r : result A) (k : A -> io B) (w : world) :
  (x ← lift r; k x) w =
  match r with Ok a => k a w | Raise e => (Raise e, w) end.
Proof. destruct r; reflexivity. Qed.

(** X4. Without [saveschema] the store, the environment and the output are
    left as they were, also when the call fails; the [schema_path] that is
    passed has no influence on the outcome; and on a stream, asking for
    the schema to be saved does not change the frame that is returned,
    whatever happens while it is saved. *)
Theorem get_kafka_df_schema_saving (df : DataFrame)
    (schema_path fink_broker_version fink_science_version : string)
    (elasticc : bool) (stream : option (list DataFrame)) (w : world) :
  snd (get_kafka_df df schema_path fink_broker_version fink_science_version
         false elasticc stream w) = w /\
  (forall other saveschema,
     get_kafka_df df other fink_broker_version fink_science_version
       saveschema elasticc stream w =
     get_kafka_df df schema_path fink_broker_version fink_science_version
       saveschema elasticc stream w) /\
  (forall batches,
     List.NoDup (columns df) ->
     fst (get_kafka_df df schema_path fink_broker_version fink_science_version
            true false (Some batches) w) =
     fst (get_kafka_df df schema_path fink_broker_version fink_science_version
            false false stream w)).
Proof.
  split; [|split].
  - unfold get_kafka_df. rewrite lift_run.
    destruct (select_names _ df) as [d|e]; [|reflexivity].
    rewrite lift_run. destruct (select _ d) as [ds|e]; [|reflexivity].
    rewrite io_bind_run. destruct elasticc.
    + rewrite io_bind_run. unfold open_read.
      destruct (read_text w elasticc_schema) as [js|e]; [|reflexivity].
      unfold lift at 1. destruct (select _ ds) as [dk|e]; [|reflexivity].
      rewrite lift_run. destruct (withColumn _ _ dk); reflexivity.
    + unfold lift at 1. destruct (select _ ds) as [dk|e]; [|reflexivity].
      rewrite lift_run. destruct (withColumn _ _ dk); reflexivity.
  - reflexivity.
  - intros batches Hnd. rewrite !get_kafka_df_run by assumption. reflexivity.
Qed.

(** X5. In [elasticc] mode the schema is read from one fixed path: where that
    file is missing the call fails with [FileNotFoundError], whatever the
    rows of the frame hold.  A static frame cannot have its schema saved.
    Both are said of a frame whose column names are plain and differ also
    when case is ignored: another frame is refused before that. *)
Theorem get_kafka_df_needs (df : DataFrame)
    (schema_path fink_broker_version fink_science_version : string) (w : world) :
  plain_names (columns df) ->
  (forall saveschema stream,
     fs w !! elasticc_schema = None ->
     get_kafka_df df schema_path fink_broker_version fink_science_version
       saveschema true stream w = (Raise FileNotFoundError, w)) /\
  get_kafka_df df schema_path fink_broker_version fink_science_version
    true false None w =
    (Raise (AnalysisException "writeStream on a static frame"), w).
Proof.
  intros Hplain. pose proof (plain_names_nodup _ Hplain) as Hnd. split.
  - intros saveschema stream Hfile. unfold get_kafka_df.
    rewrite remove_first_filter by assumption. fold (kept_columns df).
    rewrite select_names_project by (auto using kept_columns_incl).
    fold (drop_status df).
    rewrite io_bind_ok, select_struct_nest.
    2:{ unfold drop_status. rewrite columns_project. now apply kept_columns_nodup. }
    2:{ apply project_rows_length. }
    rewrite io_bind_ok, io_bind_run, io_bind_run.
    unfold open_read at 1, read_text. now rewrite Hfile.
  - now rewrite get_kafka_df_run.
Qed.

End EncoderEdges.


Lemma get_kafka_df_needs_witness :
  plain_names (columns Example.alerts) /\
  @get_kafka_df Example.codec Example.text_json Example.spark_io
    Example.alerts "schema.avsc" "2.2" "2.0.0" false true None Example.machine =
  (Raise FileNotFoundError, Example.machine).
Proof.
  pose proof alerts_plain as Hnd.
  split; [exact Hnd|].
  exact (proj1 (@get_kafka_df_needs Example.codec Example.text_json Example.spark_io
                  Example.alerts "schema.avsc" "2.2" "2.0.0" Example.machine Hnd)
           false None eq_refl).
Defined.

(** ** Record decoder: its shape and what it refuses *)

Section DecoderEdges.
Context `{codec : AvroCodec} `{J : Json} `{sio : !SparkIO}.

Lemma select_alias_shape (c : column) (name : string) (d out : DataFrame) :
  select [alias c name] d = Ok out ->
  columns out = [name] /\ count out = count d /\
  Forall (fun r => length r = 1) (rows out).
Proof.
  unfold select. cbn [for_each field_of]. intros H.
  destruct (field_of (schema d) c) as [[n t]|e]; [|discriminate].
  rewrite !bind_ok in H.
  destruct (for_each _ (rows d)) as [rs|e] eqn:Hrs; [|discriminate].
  rewrite bind_ok in H. injection H as <-.
  split; [reflexivity|]. split.
  - unfold count. cbn [rows]. now apply for_each_Forall2_len in Hrs.
  - cbn [rows]. apply SsoFacts.for_each_Forall2 in Hrs.
    clear -Hrs. induction Hrs as [|r r' l l' Hr _ IH]; constructor; [|exact IH].
    cbn [for_each] in Hr.
    destruct (eval (schema d) (alias c name) r) as [v|e]; [|discriminate].
    rewrite !bind_ok in Hr. now injection Hr as <-.
Qed.

(** X6. Whatever frame is decoded, and whatever else it carries next to the
    payload (key, topic, partition, offset, ...), the answer has the one
    column "struct" and one row for each row that was given; the store is
    only read. *)
Theorem decode_kafka_df_shape (df_kafka out : DataFrame) (schema_path : string)
    (w : world) :
  fst (decode_kafka_df df_kafka schema_path w) = Ok out ->
  columns out = ["struct"] /\
  count out = count df_kafka /\
  Forall (fun r => length r = 1) (rows out) /\
  snd (decode_kafka_df df_kafka schema_path w) = w.
Proof.
  unfold decode_kafka_df. rewrite io_bind_run. unfold open_read.
  destruct (read_text w schema_path) as [text|e]; [|discriminate].
  rewrite lift_run. destruct (json_load text) as [parsed|e]; [|discriminate].
  unfold lift. cbn [fst snd]. intros H.
  destruct (select_alias_shape _ _ _ _ H) as (Hc & Hn & Hr). auto.
Qed.

(** X7. The decoder fails when the descriptor is missing, when its text is not
    JSON, when the frame has no column that is "value" in any case, and
    when, among names that differ also when case is ignored, the "value"
    column is not binary; the store is as it was. *)
Theorem decode_kafka_df_refuses (df_kafka : DataFrame) (schema_path : string)
    (w : world) :
  (fs w !! schema_path = None ->
   decode_kafka_df df_kafka schema_path w = (Raise FileNotFoundError, w)) /\
  (forall text e,
     fs w !! schema_path = Some (File text) -> json_load text = Raise e ->
     decode_kafka_df df_kafka schema_path w = (Raise e, w)) /\
  (forall text parsed,
     fs w !! schema_path = Some (File text) -> json_load text = Ok parsed ->
     absent "value" (columns df_kafka) ->
     decode_kafka_df df_kafka schema_path w =
     (Raise (AnalysisException "cannot resolve"), w)) /\
  (forall text parsed t,
     fs w !! schema_path = Some (File text) -> json_load text = Ok parsed ->
     List.NoDup (map lower (columns df_kafka)) -> In "value" (columns df_kafka) ->
     dtype_of df_kafka "value" = t -> t <> TBinary ->
     decode_kafka_df df_kafka schema_path w =
     (Raise (AnalysisException "data type mismatch"), w)).
Proof.
  unfold decode_kafka_df, open_read, read_text.
  split; [|split; [|split]].
  - intros H. rewrite io_bind_run, H. reflexivity.
  - intros text e H He. rewrite io_bind_run, H, lift_run, He. reflexivity.
  - intros text parsed H Hp Hno. apply absent_not_in in Hno.
    rewrite io_bind_run, H, lift_run, Hp.
    unfold lift, select. cbn [for_each field_of].
    now rewrite (resolve_missing _ _ Hno).
  - intros text parsed t H Hp Hnd Hin Ht Hne. apply List.NoDup_map_inv in Hnd.
    rewrite io_bind_run, H, lift_run, Hp.
    unfold lift, select. cbn [for_each field_of].
    rewrite (resolve_nodup _ _ Hnd Hin). cbn [mbind result_bind].
    unfold dtype_of, columns in Ht. rewrite Ht.
    destruct t; try reflexivity. congruence.
Qed.

End DecoderEdges.

(** ** Kafka sink *)

Lemma has_type_struct_length (r : list value) (sch : list (string * dtype)) :
  has_type (VStruct r) (TStruct sch) = true -> length r = length sch.
Proof.
  revert sch. induction r as [|v r IH]; intros [|[n t] sch] H; try discriminate.
  - reflexivity.
  - rewrite has_type_struct_cons in H. apply andb_prop in H as [_ H].
    cbn [length]. f_equal. now apply IH.
Qed.

Lemma well_formed_lengths (df : DataFrame) :
  well_formed df -> Forall (fun r => length r = length (schema df)) (rows df).
Proof.
  intros [_ H]. eapply List.Forall_impl; [|exact H].
  intros r Hr. now apply has_type_struct_length.
Qed.

Lemma map_fst_combine {A B : Type} (l : list A) (l' : list B) :
  length l = length l' -> map fst (combine l l') = l.
Proof.
  revert l'. induction l as [|a l IH]; intros [|b l'] H; try discriminate; [reflexivity|].
  cbn [combine map fst]. f_equal. apply IH. now injection H.
Qed.

(** A frame without "status" is what remains of it without "status". *)
Lemma drop_status_id (df : DataFrame) :
  well_formed df -> ~ In "status" (columns df) -> drop_status df = df.
Proof.
  intros Hwf Hno. pose proof (well_formed_lengths df Hwf) as Hlen.
  destruct Hwf as [Hnd _].
  assert (Hk : kept_columns df = columns df).
  { unfold kept_columns. apply forallb_filter_id, forallb_forall. intros x Hx.
    destruct (String.eqb_spec x "status") as [->|]; [tauto | reflexivity]. }
  unfold drop_status, project. rewrite Hk, map_field_columns by assumption.
  destruct df as [sch rs]. cbn [schema rows] in *. f_equal.
  rewrite <- (map_id rs) at 2. apply map_ext_in. intros r Hr.
  rewrite List.Forall_forall in Hlen. unfold cell.
  apply map_nth_index_of; [exact Hnd|].
  rewrite (Hlen r Hr). unfold columns. cbn [schema]. now rewrite length_map.
Qed.

Lemma for_each_cons {A B : Type} (f : A -> result B) (a : A) (l : list A) :
  for_each f (a :: l) = (b ← f a; bs ← for_each f l; Ok (b :: bs)).
Proof. reflexivity. Qed.

Section SinkFacts.
Context `{codec : AvroCodec} `{J : Json} `{sio : !SparkIO}.
Context `{num : Numeric} `{sink : StreamSink}.

Lemma write_to_kafka_steps (sdf : DataFrame) (key : column)
    (servers user password topic checkpoint : string) (t : float) :
  well_formed sdf ->
  write_to_kafka sdf key servers user password topic checkpoint t =
  (d ← withColumn "key" key (value_frame sdf);
   start (mkWriter d "kafka" (kafka_options servers user password topic checkpoint)
            (format_seconds t))).
Proof.
  intros Hwf. pose proof (well_formed_lengths sdf Hwf) as Hlen.
  destruct Hwf as [Hnd _]. unfold write_to_kafka.
  rewrite select_struct_nest, bind_ok by assumption.
  unfold nest. rewrite select_to_avro, bind_ok. reflexivity.
Qed.

Lemma withColumn_value (key : column) (rs : list (list value)) :
  withColumn "key" key (mkDF [("value", TBinary)] rs) =
  select [col "value"; alias key "key"] (mkDF [("value", TBinary)] rs).
Proof. reflexivity. Qed.

Lemma select_keyed (key : column) (bs : list value) (d : DataFrame) :
  select [col "value"; alias key "key"]
    (mkDF [("value", TBinary)] (map (fun b => [b]) bs)) = Ok d ->
  exists t kvs,
    length kvs = length bs /\
    d = mkDF [("value", TBinary); ("key", t)]
          (map (fun p => [fst p; snd p]) (combine bs kvs)).
Proof.
  unfold select. cbn [schema rows for_each].
  change (field_of [("value", TBinary)] (col "value"))
    with (Ok ("value", TBinary) : result (string * dtype)).
  rewrite bind_ok. cbn [field_of].
  destruct (field_of [("value", TBinary)] key) as [[n t]|e]; [|discriminate].
  rewrite !bind_ok. rewrite for_each_map.
  destruct (for_each _ bs) as [rs|e] eqn:Hrs; [|discriminate].
  rewrite bind_ok. intros [= <-]. exists t.
  revert rs Hrs. induction bs as [|b bs IH]; intros rs Hrs.
  - injection Hrs as <-. now exists [].
  - cbn [for_each] in Hrs.
    change (eval [("value", TBinary)] (col "value") [b]) with (Ok b : result value) in Hrs.
    rewrite bind_ok in Hrs. cbn [eval] in Hrs.
    destruct (eval [("value", TBinary)] key [b]) as [kv|e]; [|discriminate].
    rewrite !bind_ok in Hrs.
    destruct (for_each _ bs) as [rs'|e]; [|discriminate].
    rewrite bind_ok in Hrs. injection Hrs as <-.
    destruct (IH rs' eq_refl) as (kvs & Hl & Hd). injection Hd as Hd.
    exists (kv :: kvs). split; [cbn [length]; now rewrite Hl|].
    cbn [combine map fst snd]. now rewrite Hd.
Qed.

(** X8. What is streamed to Kafka decodes to the frame that was given, every
    column of it: when [write_to_kafka] starts a query on a well-formed
    frame, the query was started from a description that names the kafka
    format, the options and the trigger that were passed, and a frame whose
    payloads decode, against a descriptor of the frame's records, to the
    frame packed into one record column.  "status" is not taken out. *)
Theorem write_to_kafka_decodes (sdf : DataFrame) (key : column)
    (servers user password topic checkpoint : string) (t : float)
    (schema_path text : string) (parsed : json) (w : world)
    (q : streaming_query) :
  well_formed sdf ->
  fs w !! schema_path = Some (File text) ->
  json_load text = Ok parsed ->
  avro_describes (json_dumps parsed) (TStruct (schema sdf)) ->
  write_to_kafka sdf key servers user password topic checkpoint t = Ok q ->
  exists wr,
    start wr = Ok q /\
    w_format wr = "kafka" /\
    w_options wr = kafka_options servers user password topic checkpoint /\
    w_trigger wr = format_seconds t /\
    columns (w_source wr) = ["value"; "key"] /\
    decode_kafka_df (w_source wr) schema_path w = (Ok (nest "struct" sdf), w).
Proof.
  intros Hwf Hfile Hload Hd Hrun.
  rewrite write_to_kafka_steps in Hrun by assumption.
  unfold value_frame in Hrun. rewrite withColumn_value in Hrun.
  fold (value_frame sdf) in Hrun.
  destruct (select _ (value_frame sdf)) as [d|e] eqn:Hsel; [|discriminate].
  rewrite bind_ok in Hrun. exists (mkWriter d "kafka"
    (kafka_options servers user password topic checkpoint) (format_seconds t)).
  cbn [w_format w_options w_trigger w_source].
  split; [exact Hrun|]. do 3 (split; [reflexivity|]).
  unfold value_frame in Hsel.
  rewrite <- (map_map (fun r => VBinary (to_avro_bytes (TStruct (schema sdf)) (VStruct r)))
                      (fun b => [b])) in Hsel.
  apply select_keyed in Hsel as (tk & kvs & Hl & ->). rewrite length_map in Hl.
  split; [reflexivity|].
  unfold decode_kafka_df. rewrite io_bind_run. unfold open_read, read_text.
  rewrite Hfile, Hload, io_bind_ok. unfold lift. f_equal.
  unfold select. cbn [schema rows for_each field_of].
  change (resolve [("value", TBinary); ("key", tk)] "value")
    with (Ok (0, TBinary) : result (nat * dtype)).
  rewrite !bind_ok, (avro_describes_type _ _ Hd), !bind_ok.
  rewrite for_each_map.
  assert (Hrows : forall (rs : list (list value)) (ks : list value),
            Forall (fun r => has_type (VStruct r) (TStruct (schema sdf)) = true) rs ->
            length ks = length rs ->
            for_each
              (fun p : value * value =>
                 for_each (fun c => eval [("value", TBinary); ("key", tk)] c [p.1; p.2])
                   [alias (from_avro "value" (json_dumps parsed)) "struct"])
              (combine
                 (map (fun r => VBinary (to_avro_bytes (TStruct (schema sdf)) (VStruct r)))
                      rs) ks) =
            Ok (map (fun r => [VStruct r]) rs)).
  { induction rs as [|r rs IH]; intros ks Hty Hlen; [reflexivity|].
    destruct ks as [|k ks]; [discriminate|].
    apply List.Forall_cons_iff in Hty as [Hr Hty].
    assert (Hhead :
      for_each
        (fun c => eval [("value", TBinary); ("key", tk)] c
                    [VBinary (to_avro_bytes (TStruct (schema sdf)) (VStruct r)); k])
        [alias (from_avro "value" (json_dumps parsed)) "struct"] = Ok [VStruct r]).
    { cbn [for_each eval].
      change (resolve [("value", TBinary); ("key", tk)] "value")
        with (Ok (0, TBinary) : result (nat * dtype)).
      rewrite !bind_ok. cbn [nth].
      now rewrite (avro_roundtrip _ _ _ Hd Hr), !bind_ok. }
    cbn [map combine]. rewrite for_each_cons. cbv beta. cbn [fst snd].
    rewrite Hhead, bind_ok.
    rewrite (IH ks Hty) by (now injection Hlen). reflexivity. }
  rewrite Hrows; [reflexivity | apply Hwf | exact Hl].
Qed.

(** X9. The key cannot be taken from the alerts: the key column is added to a
    frame that holds the payload only, so a key that refers by a plain
    name to a column other than "value" is refused, and no query is
    started. *)
Theorem write_to_kafka_key_column (sdf : DataFrame) (n : string)
    (servers user password topic checkpoint : string) (t : float) :
  well_formed sdf -> plain_names (columns sdf) -> absent n ["value"] ->
  write_to_kafka sdf (col n) servers user password topic checkpoint t =
  Raise (AnalysisException "cannot resolve").
Proof.
  intros Hwf _ Hn. apply absent_not_in in Hn.
  rewrite write_to_kafka_steps by assumption.
  unfold value_frame. rewrite withColumn_value.
  unfold select. cbn [schema for_each field_of].
  change (resolve [("value", TBinary)] "value")
    with (Ok (0, TBinary) : result (nat * dtype)).
  rewrite !bind_ok.
  assert (Hr : resolve [("value", TBinary)] n =
               Raise (AnalysisException "cannot resolve")).
  { apply resolve_missing. exact Hn. }
  now rewrite Hr.
Qed.

(** X10. On a frame without "status" whose names are plain, and with the
    versions as the key, [write_to_kafka] streams the very frame that
    [get_kafka_df] returns. *)
Theorem write_to_kafka_get_kafka_df (sdf : DataFrame)
    (schema_path fink_broker_version fink_science_version : string)
    (servers user password topic checkpoint : string) (t : float) (w : world) :
  well_formed sdf -> plain_names (columns sdf) -> ~ In "status" (columns sdf) ->
  exists frame,
    get_kafka_df sdf schema_path fink_broker_version fink_science_version
      false false None w = (Ok frame, w) /\
    write_to_kafka sdf (lit (Py.format_underscore fink_broker_version fink_science_version))
      servers user password topic checkpoint t =
    start (mkWriter frame "kafka"
             (kafka_options servers user password topic checkpoint)
             (format_seconds t)).
Proof.
  intros Hwf _ Hno.
  exists (kafka_frame sdf (fink_broker_version ++ "_" ++ fink_science_version)).
  split.
  - rewrite get_kafka_df_run by apply Hwf. reflexivity.
  - rewrite write_to_kafka_steps by assumption.
    unfold kafka_frame. rewrite drop_status_id by assumption.
    unfold value_frame.
    rewrite <- (map_map (fun r => VBinary (to_avro_bytes (TStruct (schema sdf)) (VStruct r)))
                        (fun b => [b])).
    unfold Py.format_underscore. rewrite withColumn_key, bind_ok, map_map.
    reflexivity.
Qed.

End SinkFacts.

(** *** The decoder and the sink on concrete frames *)

Lemma bare_alerts_well_formed : well_formed Example.bare_alerts.
Proof.
  split; [cbn; distinct_names | repeat constructor].
Defined.

Lemma bare_alerts_plain : plain_names (columns Example.bare_alerts).
Proof. plain_names_tac. Defined.

Lemma decode_kafka_df_shape_witness :
  let message :=
    mkDF [("key", TBinary); ("value", TBinary); ("topic", TString)]
      [[VNull;
        VBinary (Example.to_bytes Example.record_type (VStruct [VString "ZTF18aceatkx"]));
        VString "fink_alerts"]] in
  let decoded :=
    mkDF [("struct", Example.record_type)] [[VStruct [VString "ZTF18aceatkx"]]] in
  fst (@decode_kafka_df Example.codec Example.text_json message "schema.avsc"
         Example.machine) = Ok decoded /\
  columns decoded = ["struct"] /\ count decoded = count message.
Proof.
  intros message decoded.
  assert (H : fst (@decode_kafka_df Example.codec Example.text_json message "schema.avsc"
                     Example.machine) = Ok decoded) by (vm_compute; reflexivity).
  split; [exact H|].
  destruct (@decode_kafka_df_shape Example.codec Example.text_json message decoded
              "schema.avsc" Example.machine H) as (Hc & Hn & _ & _).
  split; [exact Hc | exact Hn].
Defined.

Lemma decode_kafka_df_refuses_witness :
  let message :=
    mkDF [("key", TBinary); ("payload", TBinary); ("topic", TString)]
      [[VNull; VBinary [Byte.x00]; VString "fink_alerts"]] in
  absent "value" (columns message) /\
  @decode_kafka_df Example.codec Example.text_json message "schema.avsc"
    Example.machine =
  (Raise (AnalysisException "cannot resolve"), Example.machine).
Proof.
  intros message.
  assert (Hno : absent "value" (columns message))
    by (split; [reflexivity | vm_compute; intuition discriminate]).
  split; [exact Hno|].
  exact (proj1 (proj2 (proj2
           (@decode_kafka_df_refuses Example.codec Example.text_json message
              "schema.avsc" Example.machine)))
           Example.record_schema Example.record_schema eq_refl eq_refl Hno).
Defined.

Lemma write_to_kafka_decodes_witness :
  let q :=
    mkWriter (@kafka_frame Example.codec Example.bare_alerts "alert") "kafka"
      (kafka_options "localhost:9092" "fink" "secret" "fink_alerts" "/tmp/checkpoint")
      "10.0 seconds" in
  well_formed Example.bare_alerts /\
  @write_to_kafka Example.codec Example.symbolic Example.sink
    Example.bare_alerts (lit "alert") "localhost:9092" "fink" "secret" "fink_alerts"
    "/tmp/checkpoint" (Example.SLit "10.0") = Ok q /\
  exists wr,
    @start Example.sink wr = Ok q /\
    @decode_kafka_df Example.codec Example.text_json (w_source wr) "schema.avsc"
      Example.machine =
    (Ok (nest "struct" Example.bare_alerts), Example.machine).
Proof.
  intros q.
  assert (Hrun : @write_to_kafka Example.codec Example.symbolic Example.sink
            Example.bare_alerts (lit "alert") "localhost:9092" "fink" "secret"
            "fink_alerts" "/tmp/checkpoint" (Example.SLit "10.0") = Ok q)
    by (vm_compute; reflexivity).
  split; [exact bare_alerts_well_formed|]. split; [exact Hrun|].
  destruct (@write_to_kafka_decodes Example.codec Example.text_json Example.symbolic
              Example.sink Example.bare_alerts (lit "alert") "localhost:9092" "fink"
              "secret" "fink_alerts" "/tmp/checkpoint" (Example.SLit "10.0")
              "schema.avsc" Example.record_schema Example.record_schema Example.machine q
              bare_alerts_well_formed eq_refl eq_refl (conj eq_refl eq_refl) Hrun)
    as (wr & Hs & _ & _ & _ & _ & Hdec).
  exists wr. split; [exact Hs | exact Hdec].
Defined.

Lemma write_to_kafka_key_column_witness :
  well_formed Example.bare_alerts /\ plain_names (columns Example.bare_alerts) /\
  absent "objectId" ["value"] /\
  @write_to_kafka Example.codec Example.symbolic Example.sink
    Example.bare_alerts (col "objectId") "localhost:9092" "fink" "secret" "fink_alerts"
    "/tmp/checkpoint" (Example.SLit "10.0") =
  Raise (AnalysisException "cannot resolve").
Proof.
  assert (Hn : absent "objectId" ["value"])
    by (split; [reflexivity | vm_compute; intuition discriminate]).
  split; [exact bare_alerts_well_formed|]. split; [exact bare_alerts_plain|].
  split; [exact Hn|].
  exact (@write_to_kafka_key_column Example.codec Example.symbolic Example.sink
           Example.bare_alerts "objectId" "localhost:9092" "fink" "secret" "fink_alerts"
           "/tmp/checkpoint" (Example.SLit "10.0") bare_alerts_well_formed
           bare_alerts_plain Hn).
Defined.

Lemma write_to_kafka_get_kafka_df_witness :
  well_formed Example.bare_alerts /\ plain_names (columns Example.bare_alerts) /\
  ~ In "status" (columns Example.bare_alerts) /\
  exists frame,
    @get_kafka_df Example.codec Example.text_json Example.spark_io
      Example.bare_alerts "schema.avsc" "2.2" "2.0.0" false false None Example.machine =
      (Ok frame, Example.machine) /\
    @write_to_kafka Example.codec Example.symbolic Example.sink
      Example.bare_alerts (lit (Py.format_underscore "2.2" "2.0.0")) "localhost:9092"
      "fink" "secret" "fink_alerts" "/tmp/checkpoint" (Example.SLit "10.0") =
    @start Example.sink
      (mkWriter frame "kafka"
         (kafka_options "localhost:9092" "fink" "secret" "fink_alerts" "/tmp/checkpoint")
         (@format_seconds Example.symbolic (Example.SLit "10.0"))).
Proof.
  assert (Hno : ~ In "status" (columns Example.bare_alerts))
    by (cbn; intros [E|[]]; discriminate E).
  split; [exact bare_alerts_well_formed|]. split; [exact bare_alerts_plain|].
  split; [exact Hno|].
  exact (@write_to_kafka_get_kafka_df Example.codec Example.text_json Example.spark_io
           Example.symbolic Example.sink Example.bare_alerts "schema.avsc" "2.2" "2.0.0"
           "localhost:9092" "fink" "secret" "fink_alerts" "/tmp/checkpoint"
           (Example.SLit "10.0") Example.machine bare_alerts_well_formed
           bare_alerts_plain Hno).
Defined.

(** ** Schema store: a fresh path *)

Ltac run_step H :=
  rewrite io_bind_run in H;
  match type of H with
  | match ?m with _ => _ end = _ =>
      let E := fresh "E" in
      destruct m as [[?|?] ?] eqn:E; [|discriminate H]
  end.

Ltac run_step_as H x w' E :=
  rewrite io_bind_run in H;
  match type of H with
  | match ?m with _ => _ end = _ =>
      destruct m as [[x|?] w'] eqn:E; [|discriminate H]
  end.

Lemma rmtree_ok (path : string) (w w' : world) :
  rmtree path w = (Ok tt, w') ->
  fs w !! path = Some Dir /\
  fs w' !! path = None /\
  environ w' = environ w /\ stdout w' = stdout w /\
  forall other c,
    fs w !! other = Some (File c) -> below path other = false ->
    fs w' !! other = Some (File c).
Proof.
  unfold rmtree. intros H.
  destruct (fs w !! path) as [[c|]|] eqn:Hdir; try discriminate.
  injection H as <-. cbn [fs set_fs environ stdout].
  split; [reflexivity|]. split; [|split; [reflexivity|split; [reflexivity|]]].
  - apply map_lookup_filter_None. right. intros x _. cbn [fst].
    now rewrite String.eqb_refl.
  - intros other c Hother Hbelow.
    apply map_lookup_filter_Some_2; [exact Hother|]. cbn [fst].
    assert (Hne : String.eqb other path = false).
    { apply String.eqb_neq. intros ->. congruence. }
    now rewrite Hne, Hbelow.
Qed.

Lemma open_write_ok (path text : string) (w w' : world) :
  open_write path text w = (Ok tt, w') ->
  fs w' = <[path := File text]> (fs w) /\
  environ w' = environ w /\ stdout w' = stdout w.
Proof.
  unfold open_write. intros H.
  destruct (fs w !! path) as [[c|]|];
    try discriminate;
    destruct (_ || _); try discriminate;
    injection H as <-; repeat split.
Qed.



Section FreshPath.
Context `{codec : AvroCodec} `{J : Json} `{sio : !SparkIO}.

Lemma save_avro_schema_no_pwd (df : DataFrame) (schema_path : string)
    (save_on_hdfs : bool) (w : world) :
  isfile w schema_path = false ->
  environ w !! "PWD" = None ->
  save_avro_schema df schema_path save_on_hdfs w = (Raise (KeyError "PWD"), w).
Proof.
  intros Hfile Hpwd. unfold save_avro_schema. rewrite io_bind_run.
  unfold os_path_isfile. rewrite Hfile. cbn [negb].
  rewrite io_bind_run. unfold os_environ. now rewrite Hpwd.
Qed.

(** X11. Without a working directory in the environment, a fresh path gives
    [KeyError], and nothing was written. *)
Theorem save_avro_schema_needs_pwd (df : DataFrame) (schema_path : string)
    (save_on_hdfs : bool) (w : world) :
  isfile w schema_path = false ->
  environ w !! "PWD" = None ->
  save_avro_schema df schema_path save_on_hdfs w = (Raise (KeyError "PWD"), w).
Proof. apply save_avro_schema_no_pwd. Qed.

(** The run on a fresh path up to the final clean-up, when it returned. *)
Lemma save_avro_schema_returned (df : DataFrame) (schema_path pwd : string)
    (save_on_hdfs : bool) (w w1 : world) :
  isfile w schema_path = false ->
  environ w !! "PWD" = Some pwd ->
  save_avro_schema df schema_path save_on_hdfs w = (Ok tt, w1) ->
  exists m0 m avro_file j w3,
    m0 !! scratch_dir save_on_hdfs pwd = None /\
    write_avro df (scratch_dir save_on_hdfs pwd) m0 = Ok m /\
    readschemafromavrofile m avro_file = Ok j /\
    fs w3 = <[schema_path := File (json_dump_indent j)]> m /\
    environ w3 = environ w /\ stdout w3 = stdout w /\
    rmtree (scratch_dir save_on_hdfs pwd) w3 = (Ok tt, w1).
Proof.
  intros Hfile Hpwd Hrun.
  unfold save_avro_schema in Hrun. rewrite io_bind_run in Hrun.
  unfold os_path_isfile in Hrun. rewrite Hfile in Hrun. cbn [negb] in Hrun.
  rewrite io_bind_run in Hrun. unfold os_environ at 1 in Hrun. rewrite Hpwd in Hrun.
  fold (scratch_dir save_on_hdfs pwd) in Hrun.
  set (scratch := scratch_dir save_on_hdfs pwd) in *.
  rewrite io_bind_run in Hrun. unfold os_path_exists at 1 in Hrun.
  run_step_as Hrun u0 wa Ea.
  assert (H0 : fs wa !! scratch = None /\ environ wa = environ w /\
               stdout wa = stdout w).
  { unfold exists_ in Ea. destruct (fs w !! scratch) as [nd|] eqn:Hs.
    - destruct u0. apply rmtree_ok in Ea as (_ & Hgone & He & Ho & _). auto.
    - injection Ea as _ <-. auto. }
  destruct H0 as (Hnone & Henv & Hout).
  run_step_as Hrun u1 wb Eb. unfold df_write_avro in Eb.
  destruct (write_avro df scratch (fs wa)) as [m|e] eqn:Hwrite; [|discriminate].
  injection Eb as _ <-.
  run_step_as Hrun found wc Ec.
  assert (Hwc : wc = set_fs wa m).
  { destruct save_on_hdfs.
    - unfold glob_prefix in Ec. now injection Ec.
    - rewrite io_bind_run in Ec. unfold os_environ at 1 in Ec.
      cbn [environ set_fs] in Ec. rewrite Henv, Hpwd in Ec.
      unfold glob_prefix in Ec. now injection Ec. }
  subst wc. clear Ec.
  run_step_as Hrun avro_file wd Ed. unfold lift in Ed. injection Ed as Hfirst <-.
  run_step_as Hrun j we Ee. unfold read_schema in Ee. injection Ee as Hread <-.
  cbn [fs set_fs] in Hread.
  run_step_as Hrun u2 wf Ef. destruct u2.
  apply open_write_ok in Ef as (Hfs & Henv3 & Hout3).
  cbn [fs set_fs environ stdout] in Hfs, Henv3, Hout3.
  exists (fs wa), m, avro_file, j, wf.
  repeat split; try assumption; congruence.
Qed.





(** X14. The scratch directory is looked for under the URL itself.  With an
    engine that leaves the store entry of that name alone, as one that
    resolves the URL does, no call on a fresh path returns: what is left to
    the call is an exception. *)
Theorem save_avro_schema_never_returns (df : DataFrame) (schema_path : string)
    (save_on_hdfs : bool) (w : world) :
  isfile w schema_path = false ->
  (forall pwd m0 m,
     environ w !! "PWD" = Some pwd ->
     write_avro df (scratch_dir save_on_hdfs pwd) m0 = Ok m ->
     m !! scratch_dir save_on_hdfs pwd = m0 !! scratch_dir save_on_hdfs pwd) ->
  fst (save_avro_schema df schema_path save_on_hdfs w) <> Ok tt.
Proof.
  intros Hfile Hengine Hok.
  destruct (save_avro_schema df schema_path save_on_hdfs w) as [r w1] eqn:Hrun.
  cbn [fst] in Hok. subst r.
  destruct (environ w !! "PWD") as [pwd|] eqn:Hpwd.
  2:{ rewrite save_avro_schema_no_pwd in Hrun by assumption. discriminate. }
  destruct (save_avro_schema_returned df schema_path pwd save_on_hdfs w w1
              Hfile Hpwd Hrun)
    as (m0 & m & avro_file & j & w3 & Hnone & Hwrite & _ & Hfs & _ & _ & Hrm).
  apply rmtree_ok in Hrm as (Hdir & _).
  rewrite Hfs in Hdir.
  destruct (String.eqb_spec schema_path (scratch_dir save_on_hdfs pwd)) as [->|Hne].
  - rewrite lookup_insert_eq in Hdir. discriminate.
  - rewrite lookup_insert_ne in Hdir by assumption.
    rewrite (Hengine pwd m0 m eq_refl Hwrite), Hnone in Hdir. discriminate.
Qed.

End FreshPath.

(** *** A fresh path on concrete machines *)

Lemma save_avro_schema_needs_pwd_witness :
  isfile Example.offset_machine "new.avsc" = false /\
  environ Example.offset_machine !! "PWD" = None /\
  @save_avro_schema Example.text_json Example.spark_io
    Example.alerts "new.avsc" false Example.offset_machine =
  (Raise (KeyError "PWD"), Example.offset_machine).
Proof.
  split; [reflexivity|]. split; [reflexivity|].
  exact (@save_avro_schema_needs_pwd Example.text_json Example.spark_io
           Example.alerts "new.avsc" false Example.offset_machine eq_refl eq_refl).
Defined.






Lemma spark_io_resolves (df : DataFrame) (pwd : string) (m0 m : gmap string node) :
  environ Example.machine !! "PWD" = Some pwd ->
  @write_avro Example.text_json Example.spark_io df (scratch_dir false pwd) m0 = Ok m ->
  m !! scratch_dir false pwd = m0 !! scratch_dir false pwd.
Proof.
  intros Hpwd. vm_compute in Hpwd. injection Hpwd as <-.
  change (scratch_dir false "/home/fink") with "file:///home/fink/flatten_hbase.avro".
  cbn [write_avro Example.spark_io].
  change (Example.local_path "file:///home/fink/flatten_hbase.avro")
    with (Some "/home/fink/flatten_hbase.avro").
  cbn iota. destruct (m0 !! "/home/fink/flatten_hbase.avro"); [discriminate|].
  intros [= <-].
  rewrite !lookup_insert_ne by (intros E; vm_compute in E; discriminate E).
  reflexivity.
Qed.

Lemma save_avro_schema_never_returns_witness :
  isfile Example.machine "new.avsc" = false /\
  fst (@save_avro_schema Example.text_json Example.spark_io
         Example.alerts "new.avsc" false Example.machine) <> Ok tt.
Proof.
  split; [reflexivity|].
  exact (@save_avro_schema_never_returns Example.text_json Example.spark_io
           Example.alerts "new.avsc" false Example.machine eq_refl
           (spark_io_resolves Example.alerts)).
Defined.

(** ** Column regrouping: the rows, the keys, and a key that is missing *)

Lemma flat_map_ext_in {A B : Type} (f g : A -> list B) (l : list A) :
  (forall a, In a l -> f a = g a) -> flat_map f l = flat_map g l.
Proof.
  induction l as [|a l IH]; intros H; [reflexivity|].
  cbn [flat_map]. rewrite (H a (or_introl eq_refl)), IH; [reflexivity|].
  intros x Hx. apply H. now right.
Qed.

Lemma flat_map_none {A B : Type} (f : A -> list B) (l : list A) :
  (forall a, In a l -> f a = []) -> flat_map f l = [].
Proof.
  induction l as [|a l IH]; intros H; [reflexivity|].
  cbn [flat_map]. rewrite (H a (or_introl eq_refl)), IH; [reflexivity|].
  intros x Hx. apply H. now right.
Qed.

(** An equi-join of a list with itself on keys that are unique pairs every
    element with itself, and with nothing else. *)
Lemma self_join_unique {A B : Type} (k : A -> value) (f : A -> A -> B) (l : list A) :
  unique_keys (map k l) = true ->
  flat_map
    (fun a => flat_map (fun b => if key_eqb (k a) (k b) then [f a b] else []) l) l =
  map (fun a => f a a) l.
Proof.
  induction l as [|r rs IH]; intros Hu; [reflexivity|].
  cbn [map unique_keys] in Hu.
  apply andb_prop in Hu as [Hu Hrest]. apply andb_prop in Hu as [Hnull Hfresh].
  apply negb_true_iff in Hnull, Hfresh.
  assert (Hother : forall b, In b rs -> key_eqb (k r) (k b) = false).
  { intros b Hb. destruct (key_eqb (k r) (k b)) eqn:E; [|reflexivity].
    assert (Hex : existsb (key_eqb (k r)) (map k rs) = true)
      by (apply existsb_exists; exists (k b); split; [now apply in_map | exact E]).
    congruence. }
  cbn [flat_map map]. rewrite (key_eqb_refl _ Hnull).
  rewrite (flat_map_none _ rs) by (intros b Hb; now rewrite (Hother b Hb)).
  cbn [app]. f_equal. rewrite <- (IH Hrest).
  apply flat_map_ext_in. intros a Ha.
  now rewrite key_eqb_sym, (Hother a Ha).
Qed.

Lemma for_each_analysis {A B : Type} (f : A -> result B) (l : list A) :
  (forall a, (exists b, f a = Ok b) \/ exists msg, f a = Raise (AnalysisException msg)) ->
  (exists bs, for_each f l = Ok bs) \/
  exists msg, for_each f l = Raise (AnalysisException msg).
Proof.
  intros H. induction l as [|a l IH]; [left; now exists []|].
  cbn [for_each]. destruct (H a) as [[b Hb]|[msg Hm]].
  - rewrite Hb, bind_ok. destruct IH as [[bs Hbs]|[msg Hm]].
    + rewrite Hbs. left. now exists (b :: bs).
    + rewrite Hm. right. now exists msg.
  - rewrite Hm. right. now exists msg.
Qed.

Section RegroupEdges.
Context `{codec : AvroCodec}.

Lemma resolve_analysis (sch : list (string * dtype)) (n : string) :
  (exists p, resolve sch n = Ok p) \/
  exists msg, resolve sch n = Raise (AnalysisException msg).
Proof.
  unfold resolve. destruct (positions n sch 0) as [|i [|j l]]; eauto.
Qed.

Lemma select_names_analysis (names : list string) (df : DataFrame) :
  (exists d, select_names names df = Ok d) \/
  exists msg, select_names names df = Raise (AnalysisException msg).
Proof.
  unfold select_names, select. rewrite for_each_map.
  destruct (for_each_analysis (fun n => field_of (schema df) (col n)) names)
    as [[fs Hfs]|[msg Hm]].
  { intros n. cbn [field_of].
    destruct (resolve_analysis (schema df) n) as [[[i t] Hp]|[msg Hp]]; rewrite Hp; eauto. }
  2:{ rewrite Hm. right. now exists msg. }
  rewrite Hfs, bind_ok.
  destruct (for_each_analysis
              (fun r => for_each (fun c => eval (schema df) c r) (map col names))
              (rows df)) as [[rs Hrs]|[msg Hm]].
  { intros r. rewrite for_each_map. apply for_each_analysis. intros n. cbn [eval].
    destruct (resolve_analysis (schema df) n) as [[[i t] Hp]|[msg Hp]]; rewrite Hp; eauto. }
  - rewrite Hrs, bind_ok. left. eauto.
  - rewrite Hm. right. now exists msg.
Qed.

(** X15. Without a column that the key names, in any case, there is nothing
    to join on: the call ends in an [AnalysisException], whatever else the
    frame holds. *)
Theorem group_df_into_struct_missing_key (df : DataFrame) (colfamily key : string) :
  absent key (columns df) ->
  exists msg, group_df_into_struct df colfamily key = Raise (AnalysisException msg).
Proof.
  intros Hno. apply absent_not_in in Hno. unfold group_df_into_struct.
  destruct (select_names_analysis
              (List.filter (fun c => negb (Py.startswith c (colfamily ++ "_"))) (columns df))
              df) as [[d Hd]|[msg Hm]].
  - rewrite Hd, bind_ok. exists "cannot resolve".
    unfold select_names at 1, select. cbn [app map for_each field_of].
    now rewrite (resolve_missing _ _ Hno).
  - rewrite Hm. now exists msg.
Qed.

(** X16. On a regroupable table whose names the analyser reads as they are
    written, and whose keys are unique and not null, every row
    of the input gives one row of the result, and the result has no other
    row: the row holds its key, its other cells outside the family, and
    the record of its cells of the family.  The fields of the record are
    named after the family's columns without the prefix and keep their
    types.  The rows are stated up to their order, which a join does not
    promise. *)
Theorem group_df_into_struct_rows (df : DataFrame) (colfamily key : string) :
  regroupable df colfamily key ->
  plainly_regroupable df colfamily key ->
  unique_keys (key_values df key) = true ->
  exists out,
    group_df_into_struct df colfamily key = Ok out /\
    schema out =
      (key, dtype_of df key) ::
      (map (field df)
           (List.filter (fun c => negb (String.eqb c key)) (unprefixed colfamily df)) ++
       [(colfamily,
         TStruct (combine
                    (map (Py.slice_from (String.length colfamily + 1))
                         (prefixed colfamily df))
                    (map (dtype_of df) (prefixed colfamily df))))])%list /\
    Permutation (rows out)
      (map (fun a =>
              cell df a key ::
              (map (cell df a)
                   (List.filter (fun c => negb (String.eqb c key))
                                (unprefixed colfamily df)) ++
               [VStruct (map (cell df a) (prefixed colfamily df))])%list)
           (rows df)).
Proof.
  intros Hreg _ Hu. exists (regrouped df colfamily key).
  split; [now apply group_df_into_struct_run|].
  assert (Hnd : List.NoDup (unprefixed colfamily df))
    by (destruct Hreg as (Hnd & _); now apply List.NoDup_filter).
  unfold regrouped. cbn [schema rows]. split.
  - now rewrite remove_nth_map, remove_nth_index_of.
  - rewrite (self_join_unique (fun r => cell df r key)
               (fun a b =>
                  cell df a key ::
                  (remove_nth (index_of key (unprefixed colfamily df))
                     (map (cell df a) (unprefixed colfamily df)) ++
                   [VStruct (map (cell df b) (prefixed colfamily df))])%list))
      by exact Hu.
    erewrite map_ext; [reflexivity|].
    intros a. cbv beta. now rewrite remove_nth_map, remove_nth_index_of.
Qed.

(** X17. On a regroupable table whose names the analyser reads as they are
    written, the result has one row for every pair of rows of the input
    whose keys are equal and not null.  So a row with a null key is left out, and
    rows that share a key are multiplied; when every key is null nothing
    is left. *)
Theorem group_df_into_struct_row_count (df : DataFrame) (colfamily key : string) :
  regroupable df colfamily key ->
  plainly_regroupable df colfamily key ->
  exists out,
    group_df_into_struct df colfamily key = Ok out /\
    count out =
      list_sum
        (map (fun a => length (List.filter (key_eqb (cell df a key)) (key_values df key)))
             (rows df)) /\
    ((forall a, In a (rows df) -> cell df a key = VNull) -> rows out = []).
Proof.
  intros Hreg _. exists (regrouped df colfamily key).
  split; [now apply group_df_into_struct_run|].
  unfold regrouped, count. cbn [rows]. split.
  - rewrite length_flat_map. f_equal. apply map_ext. intros a.
    rewrite matches_length.
    apply (filter_map_length (key_eqb (cell df a key)) (fun b => cell df b key)).
  - intros Hnull. apply flat_map_none. intros a Ha. apply flat_map_none. intros b _.
    now rewrite (Hnull a Ha).
Qed.

End RegroupEdges.

(** *** Regrouping the frame of the docstring, and a frame with shared keys *)

Lemma group_df_into_struct_rows_witness :
  regroupable Example.flat_alerts "candidate" "objectId" /\
  plainly_regroupable Example.flat_alerts "candidate" "objectId" /\
  unique_keys (key_values Example.flat_alerts "objectId") = true /\
  exists out,
    @group_df_into_struct Example.codec Example.flat_alerts "candidate" "objectId" =
      Ok out /\
    schema out =
      [("objectId", TString); ("candid", TLong);
       ("cross_match_alerts_per_batch", TString);
       ("candidate", TStruct [("ra", TDouble); ("dec", TDouble)])] /\
    Permutation (rows out)
      [[VString "ZTF18aceatkx"; VLong 697251923115015002; VString "Star";
        VStruct [VDouble 4626433554180871324; VDouble 13851233562653588731]];
       [VString "ZTF18acsbjvw"; VLong 697251921215010004; VString "Unknown";
        VStruct [VDouble 4626441890259339094; VDouble 13851681644020094312]]].
Proof.
  assert (Hu : unique_keys (key_values Example.flat_alerts "objectId") = true)
    by reflexivity.
  split; [exact flat_alerts_regroupable|]. split; [exact flat_alerts_plain|].
  split; [exact Hu|].
  destruct (@group_df_into_struct_rows Example.codec Example.flat_alerts
              "candidate" "objectId" flat_alerts_regroupable flat_alerts_plain Hu)
    as (out & Hrun & Hs & Hr).
  exists out. split; [exact Hrun|]. split; [exact Hs | exact Hr].
Defined.

Lemma group_df_into_struct_missing_key_witness :
  absent "ssnamenr" (columns Example.flat_alerts) /\
  exists msg,
    @group_df_into_struct Example.codec Example.flat_alerts "candidate" "ssnamenr" =
    Raise (AnalysisException msg).
Proof.
  assert (Hno : absent "ssnamenr" (columns Example.flat_alerts))
    by (split; [reflexivity | vm_compute; intuition discriminate]).
  split; [exact Hno|].
  exact (@group_df_into_struct_missing_key Example.codec Example.flat_alerts
           "candidate" "ssnamenr" Hno).
Defined.

Lemma group_df_into_struct_row_count_witness :
  let shared :=
    mkDF [("objectId", TString); ("candidate_ra", TDouble)]
      [[VString "ZTF18aceatkx"; VDouble 4626433554180871324];
       [VString "ZTF18aceatkx"; VDouble 4626441890259339094];
       [VNull; VDouble 0]] in
  regroupable shared "candidate" "objectId" /\
  plainly_regroupable shared "candidate" "objectId" /\
  exists out,
    @group_df_into_struct Example.codec shared "candidate" "objectId" = Ok out /\
    count shared = 3 /\ count out = 4.
Proof.
  intros shared.
  assert (Hreg : regroupable shared "candidate" "objectId").
  { split; [cbn; distinct_names|]. split; [cbn; auto|].
    split; [discriminate|]. split; [reflexivity|]. cbn. intuition discriminate. }
  assert (Hplain : plainly_regroupable shared "candidate" "objectId").
  { split; [plain_names_tac|]. split; [plain_names_tac | discriminate]. }
  split; [exact Hreg|]. split; [exact Hplain|].
  destruct (@group_df_into_struct_row_count Example.codec shared
              "candidate" "objectId" Hreg Hplain) as (out & Hrun & Hn & _).
  exists out. split; [exact Hrun|]. split; [reflexivity | exact Hn].
Defined.

(** ** Ephemerides enricher: its inputs, a service that is down, and the
    second query *)

Module SsoEdges.
Import Pd Sso SsoFacts.

Lemma insert_string_nonempty (x : string) (l : list string) : insert_string x l <> [].
Proof.
  destruct l as [|y l]; [discriminate|]. cbn [insert_string].
  destruct (String_as_OT.cmp x y); discriminate.
Qed.

Lemma unique_strings_nonempty (ss : list string) :
  ss <> [] -> fold_right insert_string [] ss <> [].
Proof.
  destruct ss as [|s ss]; [congruence|]. intros _. cbn [fold_right].
  apply insert_string_nonempty.
Qed.

Lemma unique_strings_one (s : string) (ss : list string) :
  ss <> [] -> (forall x, In x ss -> x = s) -> fold_right insert_string [] ss = [s].
Proof.
  induction ss as [|x ss IH]; [congruence|]. intros _ Hall.
  rewrite (Hall x (or_introl eq_refl)). cbn [fold_right].
  destruct ss as [|y ss]; [reflexivity|].
  rewrite IH; [|discriminate | intros z Hz; apply Hall; now right].
  cbn [insert_string].
  assert (E : String_as_OT.cmp s s = Eq) by (now apply String_as_OT.cmp_eq).
  now rewrite E.
Qed.

Lemma keep_all {A : Type} (mask : list bool) (l : list A) :
  Forall (fun b => b = true) mask -> length l <= length mask -> keep mask l = l.
Proof.
  intros H. revert l. induction H as [|b mask -> _ IH]; intros l Hl.
  - destruct l; [reflexivity | cbn in Hl; lia].
  - destruct l as [|a l]; [reflexivity|]. cbn [keep]. f_equal. apply IH.
    cbn [length] in Hl. lia.
Qed.

Section InputFacts.
Context `{num : Numeric} `{sky : !Sky}.
Variable post : request -> outcome.
Variables (pdf : frame) (observer rplane tcoor : string) (withecl : bool).

Lemma getitem_missing (f : frame) (name : string) :
  ~ In name (columns f) -> getitem f name = Raise (KeyError name).
Proof.
  intros H. unfold getitem. apply lookup_col_none in H. now rewrite H.
Qed.

(** Rows that all carry the same identifier are one group: the table. *)
Lemma group_rows_all (s : string) (ids : list cell) :
  col_lengths pdf (nrows pdf) ->
  getitem pdf "i:ssnamenr" = Ok ids ->
  (forall x, In x ids -> x = Str s) ->
  group_rows pdf (Str s) = pdf.
Proof.
  intros Hlen Hids Hall. unfold group_rows. rewrite Hids.
  assert (Hn : length ids = nrows pdf) by (eapply getitem_length; eauto).
  assert (Hmask : Forall (fun b => b = true) (map (fun x => cell_eqb x (Str s)) ids)).
  { apply List.Forall_forall. intros b Hb. apply in_map_iff in Hb as [x [<- Hx]].
    rewrite (Hall x Hx). cbn [cell_eqb]. apply String.eqb_refl. }
  unfold select_rows. destruct pdf as [idx cs]. cbn [index cols] in *.
  unfold nrows in *. cbn [index] in *. f_equal.
  - apply keep_all; [exact Hmask | rewrite length_map; lia].
  - rewrite <- (map_id cs) at 2. apply map_ext_in. intros [n c] Hc. cbn [fst snd].
    f_equal. apply keep_all; [exact Hmask|]. rewrite length_map.
    unfold col_lengths in Hlen. cbn [cols] in Hlen.
    rewrite List.Forall_forall in Hlen. specialize (Hlen (n, c) Hc).
    cbn [snd] in Hlen. lia.
Qed.

(** X18. What is wrong with the table is found before the service is asked:
    whatever the service would answer, a table without "i:ssnamenr" gives
    [KeyError], a table without rows gives [IndexError], and a table with
    rows and without "i:jd" gives [KeyError]. *)
Theorem get_miriade_data_input_errors :
  (~ In "i:ssnamenr" (columns pdf) ->
   get_miriade_data post pdf observer rplane tcoor withecl =
   Raise (KeyError "i:ssnamenr")) /\
  (getitem pdf "i:ssnamenr" = Ok [] ->
   get_miriade_data post pdf observer rplane tcoor withecl = Raise IndexError) /\
  (forall ids ss,
     getitem pdf "i:ssnamenr" = Ok ids -> strings_of ids = Some ss -> ids <> [] ->
     ~ In "i:jd" (columns pdf) ->
     get_miriade_data post pdf observer rplane tcoor withecl = Raise (KeyError "i:jd")).
Proof.
  split; [|split].
  - intros H. unfold get_miriade_data. now rewrite (getitem_missing _ _ H).
  - intros H. unfold get_miriade_data. rewrite H. reflexivity.
  - intros ids ss Hids Hss Hne Hjd. unfold get_miriade_data.
    rewrite Hids, bind_ok. unfold np_unique. rewrite Hss, bind_ok.
    assert (Hss' : ss <> []).
    { intros ->. apply Hne. destruct ids as [|[]]; try discriminate; [reflexivity|].
      cbn [strings_of] in Hss. destruct (strings_of ids); discriminate. }
    destruct (fold_right insert_string [] ss) as [|u us] eqn:Hu;
      [now apply unique_strings_nonempty in Hu|].
    cbn [map for_each].
    assert (Hg : enrich_group post pdf observer rplane tcoor withecl (Str u) =
                 Raise (KeyError "i:jd")).
    { unfold enrich_group. rewrite Hids, bind_ok.
      rewrite getitem_missing; [reflexivity|]. now rewrite columns_select_rows. }
    now rewrite Hg.
Qed.

(** X19. With the service down and one object in the table, the table comes
    back as it was given. *)
Theorem get_miriade_data_service_down (s : string) (ids jd : list cell)
    (lines : list string) :
  col_lengths pdf (nrows pdf) ->
  getitem pdf "i:ssnamenr" = Ok ids -> ids <> [] ->
  (forall x, In x ids -> x = Str s) ->
  getitem pdf "i:jd" = Ok jd ->
  epoch_lines jd (of_int 15) = Ok lines ->
  (forall req, post req = ReadTimeout) ->
  get_miriade_data post pdf observer rplane tcoor withecl = Ok pdf.
Proof.
  intros Hlen Hids Hne Hall Hjd Hlines Hdown.
  assert (Hss : strings_of ids = Some (map (fun _ => s) ids)).
  { clear Hids Hne. induction ids as [|x l IH]; [reflexivity|].
    rewrite (Hall x (or_introl eq_refl)). cbn [strings_of map].
    rewrite IH; [reflexivity|]. intros y Hy. apply Hall. now right. }
  pose proof (group_rows_all s ids Hlen Hids Hall) as Hgroup.
  assert (Hq : first_query post pdf observer rplane tcoor (Str s) = Ok empty_frame).
  { unfold first_query. rewrite Hgroup, Hjd, bind_ok.
    rewrite (query_miriade_request post _ _ _ _ _ _ lines Hlines), Hdown.
    reflexivity. }
  unfold get_miriade_data. rewrite Hids, bind_ok. unfold np_unique.
  rewrite Hss, bind_ok.
  rewrite (unique_strings_one s).
  2:{ destruct ids; [congruence | discriminate]. }
  2:{ intros x Hx. apply in_map_iff in Hx as [y [<- _]]. reflexivity. }
  cbn [map for_each].
  rewrite (enrich_group_passthrough post pdf observer rplane tcoor withecl (Str s) ids
             empty_frame Hids Hq eq_refl).
  rewrite Hgroup. reflexivity.
Qed.

(** X20. The number of rows follows the answer: for one object whose query
    came back with rows, the table that is returned has as many rows as
    the longer of the answer and the table that was given. *)
Theorem get_miriade_data_rows_follow_answer (s : string) (ids : list cell)
    (eph out : frame) :
  col_lengths pdf (nrows pdf) ->
  getitem pdf "i:ssnamenr" = Ok ids -> ids <> [] ->
  (forall x, In x ids -> x = Str s) ->
  first_query post pdf observer rplane tcoor (Str s) = Ok eph ->
  empty eph = false ->
  get_miriade_data post pdf observer rplane tcoor withecl = Ok out ->
  nrows out = Nat.max (nrows eph) (nrows pdf).
Proof.
  intros Hlen Hids Hne Hall Hq He Hrun.
  assert (Hss : strings_of ids = Some (map (fun _ => s) ids)).
  { clear Hids Hne. induction ids as [|x l IH]; [reflexivity|].
    rewrite (Hall x (or_introl eq_refl)). cbn [strings_of map].
    rewrite IH; [reflexivity|]. intros y Hy. apply Hall. now right. }
  unfold get_miriade_data in Hrun. rewrite Hids, bind_ok in Hrun.
  unfold np_unique in Hrun. rewrite Hss, bind_ok in Hrun.
  rewrite (unique_strings_one s) in Hrun.
  2:{ destruct ids; [congruence | discriminate]. }
  2:{ intros x Hx. apply in_map_iff in Hx as [y [<- _]]. reflexivity. }
  cbn [map for_each] in Hrun.
  destruct (enrich_group post pdf observer rplane tcoor withecl (Str s))
    as [info|e] eqn:Hinfo; [|discriminate].
  rewrite !bind_ok in Hrun. cbn in Hrun. injection Hrun as <-.
  destruct (enriched_shape post pdf observer rplane tcoor withecl (Str s) ids eph info
              Hids Hq He Hinfo) as [Hn _].
  now rewrite Hn, (group_rows_all s ids Hlen Hids Hall).
Qed.

(** X21. The second query is not guarded.  When a group was answered with rows
    and the ecliptic query for it comes back empty, as it does after a
    read timeout, the call ends in [KeyError] for "Longitude", although
    the same group goes through when the ecliptic coordinates are not
    asked for. *)
Theorem get_miriade_data_ecliptic_missing (ids before after : list cell) (g : cell)
    (eph info : frame) :
  getitem pdf "i:ssnamenr" = Ok ids ->
  np_unique ids = Ok (before ++ g :: after)%list ->
  (forall g', In g' before ->
     exists info', enrich_group post pdf observer rplane tcoor true g' = Ok info') ->
  first_query post pdf observer rplane tcoor g = Ok eph ->
  empty eph = false ->
  enrich_group post pdf observer rplane tcoor false g = Ok info ->
  second_query post pdf observer g = Ok empty_frame ->
  get_miriade_data post pdf observer rplane tcoor true = Raise (KeyError "Longitude").
Proof.
  intros Hids Hu Hbefore Hq He Hplain Hsecond.
  unfold get_miriade_data. rewrite Hids, bind_ok, Hu, bind_ok.
  rewrite (for_each_app_raise _ _ _ _ (KeyError "Longitude") Hbefore); [reflexivity|].
  rewrite (enrich_group_steps post pdf observer rplane tcoor false g ids Hids) in Hplain.
  rewrite (enrich_group_steps post pdf observer rplane tcoor true g ids Hids).
  rewrite Hq, bind_ok, He in *. cbn [negb] in *.
  destruct (getitem eph "RA") as [ra|e]; [|discriminate]. rewrite bind_ok in *.
  destruct (getitem eph "DEC") as [dec|e]; [|discriminate]. rewrite bind_ok in *.
  destruct (skycoord ra dec) as [sc|e]; [|discriminate]. rewrite bind_ok in *.
  destruct (drop eph ["RA"; "DEC"]) as [e1|e]; [|discriminate]. rewrite bind_ok in *.
  destruct (setitem e1 "RA" _) as [e2|e]; [|discriminate]. rewrite bind_ok in *.
  destruct (setitem e2 "Dec" _) as [e3|e]; [|discriminate]. rewrite bind_ok.
  rewrite Hsecond, bind_ok. reflexivity.
Qed.

End InputFacts.

End SsoEdges.

(** *** The enricher on one object *)

Module SsoEdgesExamples.
Import Pd Sso SsoFacts SsoEdges.

Lemma one_object_lengths :
  @col_lengths Example.symbolic Example.one_object (nrows Example.one_object).
Proof. repeat constructor. Defined.

Lemma one_object_ids (x : @cell Example.symbolic) :
  In x [Example.text "1234"] -> x = Str "1234".
Proof. intros [<-|[]]. reflexivity. Defined.

Lemma get_miriade_data_service_down_witness :
  let down := fun _ : request => @ReadTimeout Example.symbolic in
  @col_lengths Example.symbolic Example.one_object (nrows Example.one_object) /\
  (forall req, down req = ReadTimeout) /\
  @get_miriade_data Example.symbolic Example.sky down Example.one_object
    "I41" "1" "5" true = Ok Example.one_object.
Proof.
  intros down.
  split; [exact one_object_lengths|]. split; [reflexivity|].
  apply (@get_miriade_data_service_down Example.symbolic Example.sky down
           Example.one_object "I41" "1" "5" true "1234"
           [Example.text "1234"] [Example.number "2459001.5"]
           ["(2459001.5 + ((15 / 24) / 3600))"]).
  - exact one_object_lengths.
  - reflexivity.
  - discriminate.
  - exact one_object_ids.
  - reflexivity.
  - reflexivity.
  - reflexivity.
Defined.

Lemma get_miriade_data_rows_follow_answer_witness :
  let twice : @frame Example.symbolic :=
    @mkFrame Example.symbolic [0; 1]%Z
      [("RA", [Example.text "12 30 00.0"; Example.text "12 30 00.1"]);
       ("DEC", [Example.text "+05 00 00.0"; Example.text "+05 00 00.1"]);
       ("Dobs", [Example.number "1.2"; Example.number "1.3"]);
       ("Dhelio", [Example.number "2.3"; Example.number "2.4"])] in
  let generous := fun _ : request => Response (JsonObject (Some twice)) in
  nrows Example.one_object = 1 /\
  exists out,
    @get_miriade_data Example.symbolic Example.sky generous Example.one_object
      "I41" "1" "5" false = Ok out /\
    nrows out = 2.
Proof.
  intros twice generous. split; [reflexivity|].
  assert (Hrun : exists out,
            @get_miriade_data Example.symbolic Example.sky generous Example.one_object
              "I41" "1" "5" false = Ok out)
    by (eexists; vm_compute; reflexivity).
  destruct Hrun as [out Hrun]. exists out. split; [exact Hrun|].
  exact (@get_miriade_data_rows_follow_answer Example.symbolic Example.sky generous
           Example.one_object "I41" "1" "5" false "1234" [Example.text "1234"]
           twice out one_object_lengths eq_refl
           ltac:(discriminate) one_object_ids eq_refl eq_refl Hrun).
Defined.

Lemma get_miriade_data_ecliptic_missing_witness :
  (exists info,
     @enrich_group Example.symbolic Example.sky Example.ecliptic_down Example.one_object
       "I41" "1" "5" false (Example.text "1234") = Ok info) /\
  @second_query Example.symbolic Example.ecliptic_down Example.one_object "I41"
    (Example.text "1234") = Ok empty_frame /\
  @get_miriade_data Example.symbolic Example.sky Example.ecliptic_down
    Example.one_object "I41" "1" "5" true = Raise (KeyError "Longitude").
Proof.
  assert (Hplain : exists info,
     @enrich_group Example.symbolic Example.sky Example.ecliptic_down Example.one_object
       "I41" "1" "5" false (Example.text "1234") = Ok info)
    by (eexists; vm_compute; reflexivity).
  split; [exact Hplain|]. split; [reflexivity|].
  destruct Hplain as [info Hinfo].
  apply (@get_miriade_data_ecliptic_missing Example.symbolic Example.sky
           Example.ecliptic_down Example.one_object "I41" "1" "5"
           [Example.text "1234"] [] [] (Example.text "1234") Example.equatorial info).
  - reflexivity.
  - reflexivity.
  - intros g' [].
  - reflexivity.
  - reflexivity.
  - exact Hinfo.
  - reflexivity.
Defined.

End SsoEdgesExamples.

Module SsoRegroup.
Import Pd Sso SsoFacts SsoEdges.

Lemma keep_nil {A : Type} (mask : list bool) : keep mask (@nil A) = [].
Proof. destruct mask as [|[] mask]; reflexivity. Qed.

Lemma keep_combine {A B : Type} (mask : list bool) (l : list A) (l' : list B) :
  keep mask (combine l l') = combine (keep mask l) (keep mask l').
Proof.
  revert l l'. induction mask as [|b mask IH]; intros l l'.
  - now destruct l, l'.
  - destruct l as [|a l]; [cbn [combine]; now rewrite !keep_nil|].
    destruct l' as [|a' l'].
    + cbn [combine]. rewrite !keep_nil. now destruct (keep (b :: mask) (a :: l)).
    + cbn [combine]. destruct b; cbn [keep combine]; now rewrite IH.
Qed.

Lemma combine_append {A B : Type} (l1 l2 : list A) (l1' l2' : list B) :
  length l1 = length l1' ->
  combine (l1 ++ l2) (l1' ++ l2') = (combine l1 l1' ++ combine l2 l2')%list.
Proof.
  revert l1'. induction l1 as [|a l1 IH]; intros [|b l1'] H; try discriminate;
    [reflexivity|].
  cbn [app combine]. f_equal. apply IH. now injection H.
Qed.

Lemma combine_flat_map {A B C : Type} (f : A -> list B) (g : A -> list C) (l : list A) :
  (forall x, In x l -> length (f x) = length (g x)) ->
  combine (flat_map f l) (flat_map g l) = flat_map (fun x => combine (f x) (g x)) l.
Proof.
  induction l as [|a l IH]; intros H; [reflexivity|].
  cbn [flat_map]. rewrite combine_append by (apply H; now left).
  rewrite IH; [reflexivity|]. intros x Hx. apply H. now right.
Qed.

(** Picking, for every key of a list of distinct keys, the elements filed
    under it yields every element once. *)
Lemma groups_permute {A : Type} (U : list string) :
  List.NoDup U ->
  forall (keys : list string) (L : list A),
    length L = length keys ->
    (forall k, In k keys -> In k U) ->
    Permutation
      (flat_map (fun u => keep (map (fun k => String.eqb k u) keys) L) U) L.
Proof.
  intros Hnd keys. induction keys as [|k keys IH]; intros L Hlen Hin.
  - destruct L; [|discriminate].
    rewrite flat_map_none by (intros u _; reflexivity). constructor.
  - destruct L as [|a L]; [discriminate|].
    destruct (in_split k U (Hin k (or_introl eq_refl))) as (U1 & U2 & ->).
    apply NoDup_remove in Hnd as [Hnd' Hk].
    assert (Hstep : forall V, ~ In k V ->
              flat_map (fun u => keep (map (fun k' => String.eqb k' u) (k :: keys)) (a :: L)) V =
              flat_map (fun u => keep (map (fun k' => String.eqb k' u) keys) L) V).
    { intros V HV. apply flat_map_ext_in. intros u Hu. cbn [map keep].
      destruct (String.eqb_spec k u) as [->|_]; [contradiction | reflexivity]. }
    rewrite flat_map_app. cbn [flat_map].
    rewrite (Hstep U1) by (intros H; apply Hk, in_or_app; now left).
    rewrite (Hstep U2) by (intros H; apply Hk, in_or_app; now right).
    cbn [map keep]. rewrite String.eqb_refl.
    rewrite <- app_comm_cons. apply Permutation_sym, Permutation_cons_app, Permutation_sym.
    specialize (IH L ltac:(now injection Hlen)
                  ltac:(intros k' Hk'; apply Hin; now right)).
    rewrite flat_map_app in IH. cbn [flat_map] in IH. exact IH.
Qed.

Lemma lookup_col_tabulate `{num : Numeric} (F : string -> list cell)
    (names : list string) (c : string) :
  In c names -> lookup_col c (map (fun n => (n, F n)) names) = Some (F c).
Proof.
  induction names as [|n names IH]; intros H; [destruct H|].
  cbn [map lookup_col]. destruct (String.eqb_spec n c) as [->|Hne]; [reflexivity|].
  apply IH. destruct H; [congruence | assumption].
Qed.

Lemma lookup_col_keep `{num : Numeric} (mask : list bool)
    (cs : list (string * list cell)) (c : string) :
  lookup_col c (map (fun x => (fst x, keep mask (snd x))) cs) =
  option_map (keep mask) (lookup_col c cs).
Proof.
  induction cs as [|[n v] cs IH]; [reflexivity|].
  cbn [map lookup_col fst snd]. now destruct (String.eqb n c).
Qed.

Section ServiceDown.
Context `{num : Numeric} `{sky : !Sky}.
Variable post : request -> outcome.
Variables (pdf : frame) (observer rplane tcoor : string) (withecl : bool).

(** X22. With the service down no observation is lost and none is doubled:
    when every first query comes back empty, the table that is returned
    holds the rows of the table that was given, filed by identifier; its
    index is a rearrangement of the index that was given, and under every
    column the cells stay with their index labels. *)
Theorem get_miriade_data_service_down_regroups (ids : list cell) (ss : list string) :
  col_lengths pdf (nrows pdf) ->
  getitem pdf "i:ssnamenr" = Ok ids -> strings_of ids = Some ss -> ids <> [] ->
  (forall g, In g ids ->
     exists eph, first_query post pdf observer rplane tcoor g = Ok eph /\
                 empty eph = true) ->
  exists out,
    get_miriade_data post pdf observer rplane tcoor withecl = Ok out /\
    Permutation (index out) (index pdf) /\
    forall c v,
      getitem pdf c = Ok v ->
      exists v', getitem out c = Ok v' /\
                 Permutation (combine (index out) v') (combine (index pdf) v).
Proof.
  intros Hlen Hids Hss Hne Hdown.
  set (U := fold_right insert_string [] ss).
  destruct (unique_strings_spec ss) as [Hnd HU]. fold U in Hnd, HU.
  pose proof (strings_of_map ids ss Hss) as Hmap.
  assert (Hn : length ids = nrows pdf) by (eapply getitem_length; eauto).
  assert (Hkeys : length ss = nrows pdf) by (rewrite <- Hn, Hmap; now rewrite length_map).
  set (mask := fun u => map (fun k => String.eqb k u) ss).
  assert (Hgroup : forall u,
            group_rows pdf (Str u) = select_rows pdf (mask u)).
  { intros u. unfold group_rows, mask. rewrite Hids, Hmap, map_map. reflexivity. }
  set (frames := map (fun u => select_rows pdf (mask u)) U).
  assert (Hinfos : for_each (enrich_group post pdf observer rplane tcoor withecl)
                     (map Str U) = Ok frames).
  { unfold frames. rewrite for_each_map. apply for_each_ok. intros u Hu.
    destruct (Hdown (Str u)) as (eph & Hq & He).
    { rewrite Hmap. apply in_map, HU, Hu. }
    rewrite (enrich_group_passthrough post pdf observer rplane tcoor withecl (Str u) ids
               eph Hids Hq He).
    now rewrite Hgroup. }
  assert (HUne : U <> []).
  { apply unique_strings_nonempty. intros ->.
    rewrite Hmap in Hne. now apply Hne. }
  assert (Hindex : Permutation (flat_map index frames) (index pdf)).
  { unfold frames. rewrite flat_map_map. cbn [select_rows index].
    apply groups_permute; [exact Hnd | exact (eq_sym Hkeys) | intros k Hk; now apply HU]. }
  assert (Hcol : forall c v, getitem pdf c = Ok v ->
            Permutation
              (combine (flat_map index frames) (flat_map (column_or_nan c) frames))
              (combine (index pdf) v) /\
            forall f, In f frames -> In c (columns f)).
  { intros c v Hv. unfold getitem in Hv.
    destruct (lookup_col c (cols pdf)) as [v0|] eqn:Hl; [|discriminate].
    injection Hv as ->.
    assert (Hvlen : length v = nrows pdf).
    { apply lookup_col_in in Hl. unfold col_lengths in Hlen.
      rewrite List.Forall_forall in Hlen. apply (Hlen _ Hl). }
    split.
    - unfold frames. rewrite !flat_map_map.
      rewrite combine_flat_map.
      + rewrite (flat_map_ext_in _
                   (fun u => keep (mask u) (combine (index pdf) v))).
        * apply groups_permute; [exact Hnd | | intros k Hk; now apply HU].
          rewrite length_combine. unfold nrows in *. lia.
        * intros u _. unfold column_or_nan, select_rows. cbn [index cols].
          rewrite lookup_col_keep, Hl. cbn [option_map]. now rewrite keep_combine.
      + intros u _. unfold column_or_nan, select_rows. cbn [index cols].
        rewrite lookup_col_keep, Hl. cbn [option_map].
        rewrite !keep_length; [reflexivity | |];
          unfold mask; rewrite length_map; unfold nrows in *; lia.
    - intros f Hf. unfold frames in Hf. apply in_map_iff in Hf as [u [<- _]].
      rewrite columns_select_rows. apply lookup_col_in in Hl.
      unfold columns. apply in_map_iff. now exists (c, v). }
  unfold get_miriade_data. rewrite Hids, bind_ok. unfold np_unique.
  rewrite Hss, bind_ok. fold U. rewrite Hinfos, bind_ok.
  destruct (Nat.ltb 1 (length frames)) eqn:Hmany.
  - exists (concat_rows frames). split; [reflexivity|].
    split; [exact Hindex|]. intros c v Hv.
    destruct (Hcol c v Hv) as [Hperm Hhas].
    exists (flat_map (column_or_nan c) frames). split; [|exact Hperm].
    unfold getitem, concat_rows. cbn [cols].
    rewrite (lookup_col_tabulate (fun n => flat_map (column_or_nan n) frames));
      [reflexivity|].
    apply In_union_names. split; [|intros []].
    destruct frames as [|f fs] eqn:Hf; [discriminate|].
    apply in_flat_map. exists f. split; [now left | apply Hhas; now left].
  - destruct frames as [|f [|f' fs]] eqn:Hf; [| |discriminate].
    { unfold frames in Hf. destruct U; [congruence | discriminate]. }
    exists f. split; [reflexivity|].
    cbn [flat_map] in Hindex. rewrite app_nil_r in Hindex.
    split; [exact Hindex|]. intros c v Hv.
    destruct (Hcol c v Hv) as [Hperm Hhas].
    cbn [flat_map] in Hperm. rewrite !app_nil_r in Hperm.
    exists (column_or_nan c f). split; [|exact Hperm].
    unfold getitem, column_or_nan.
    specialize (Hhas f (or_introl eq_refl)).
    destruct (lookup_col c (cols f)) as [x|] eqn:Hx; [reflexivity|].
    apply lookup_col_none in Hx. contradiction.
Qed.

(** X23. A date that is not a number is refused before the service is asked. *)
Theorem query_miriade_checks_dates (ident : string) (jd : list cell)
    (observer' rplane' tcoor' : string) (shift : float) (s : string) :
  In (Str s) jd ->
  query_miriade post ident jd observer' rplane' tcoor' shift = Raise TypeError.
Proof.
  intros Hin. unfold query_miriade.
  rewrite (for_each_raise _ jd TypeError); [reflexivity | |].
  - intros a _. destruct a; cbn [as_float mbind result_bind]; eauto.
  - exists (Str s). split; [exact Hin | reflexivity].
Qed.

End ServiceDown.

End SsoRegroup.

(** *** A service that is down, and three observations *)

Module SsoRegroupExamples.
Import Pd Sso SsoFacts SsoEdges SsoRegroup.

Lemma get_miriade_data_service_down_regroups_witness :
  let down := fun _ : request => @ReadTimeout Example.symbolic in
  @col_lengths Example.symbolic Example.observations (nrows Example.observations) /\
  index Example.observations = [0; 1; 2]%Z /\
  exists out,
    @get_miriade_data Example.symbolic Example.sky down Example.observations
      "I41" "1" "5" true = Ok out /\
    index out = [1; 0; 2]%Z /\
    Permutation (index out) (index Example.observations).
Proof.
  intros down.
  assert (Hlen : @col_lengths Example.symbolic Example.observations
                   (nrows Example.observations)) by (repeat constructor).
  split; [exact Hlen|]. split; [reflexivity|].
  destruct (@get_miriade_data_service_down_regroups Example.symbolic Example.sky down
              Example.observations "I41" "1" "5" true
              [Example.text "9999"; Example.text "1234"; Example.text "9999"]
              ["9999"; "1234"; "9999"] Hlen eq_refl eq_refl ltac:(discriminate))
    as (out & Hrun & Hperm & _).
  { intros g [<-|[<-|[<-|[]]]]; eexists; split; reflexivity. }
  exists out. split; [exact Hrun|]. split; [|exact Hperm].
  assert (Hv : exists o,
            @get_miriade_data Example.symbolic Example.sky down Example.observations
              "I41" "1" "5" true = Ok o /\ index o = [1; 0; 2]%Z)
    by (eexists; split; vm_compute; reflexivity).
  destruct Hv as (o & Ho & Hi). rewrite Hrun in Ho. now injection Ho as ->.
Defined.

Lemma query_miriade_checks_dates_witness :
  In (@Str Example.symbolic "yesterday") [Example.text "yesterday"] /\
  @query_miriade Example.symbolic Example.refused "1234" [Example.text "yesterday"]
    "I41" "1" "5" (Example.SOfInt 15) = Raise TypeError.
Proof.
  assert (Hin : In (@Str Example.symbolic "yesterday") [Example.text "yesterday"])
    by (now left).
  split; [exact Hin|].
  exact (@query_miriade_checks_dates Example.symbolic Example.refused "1234"
           [Example.text "yesterday"] "I41" "1" "5" (Example.SOfInt 15) "yesterday" Hin).
Defined.

End SsoRegroupExamples.
